(** * View3D: the mesh model, its text parser and the transform commands

    A shallow embedding of [model.hpp]/[model.cpp] (class [Model], structs
    [Vertex] and [Polygon]), of [model_manager.hpp] (class [ModelManager]) and
    of [command.hpp] ([MoveCommand], [RotateCommand], [ScaleCommand]).

    - [std::string] is [string]; [size_t] and [unsigned long] are [N] (64
      bits, as on LP64 platforms), with the one place where the wrap-around
      matters ([std::stoul] on a signed subject) written out;
    - [float] is a type [F] with the operations the code uses, gathered in
      the class [FloatOps]; everything that does not depend on the laws of
      arithmetic is proved for every instance, the numeric statements are
      proved for the instance of the real numbers, which is exact
      arithmetic, and where the program departs from it the code is run in
      the instance of IEEE 754 binary32;
    - the numeric conversion behind the [%f] of [sscanf] is a parameter
      [strtof] of the parser; [Decimal.strtof] is a reference conversion for
      decimal notation, on which the sample files are run;
    - the file system is a function from paths to contents;
    - exceptions are an explicit outcome ([Returned] / [Thrown]) threaded
      with the [Model] being mutated. *)

From Stdlib Require Import List Bool ZArith NArith Lia String Ascii DecimalString.
From Stdlib Require Import Sorted Permutation.
From Stdlib Require Import Reals Lra.
From Stdlib Require SpecFloat.
Import ListNotations.

Set Implicit Arguments.

Local Open Scope string_scope.
Local Open Scope N_scope.

(** ** Characters and strings *)

Module Text.

(** [std::isspace] in the "C" locale: space, \t, \n, \v, \f, \r. *)
Definition isspace (c : ascii) : bool :=
  let n := N_of_ascii c in (n =? 32) || ((9 <=? n) && (n <=? 13)).

Definition isdigit (c : ascii) : bool :=
  let n := N_of_ascii c in (48 <=? n) && (n <=? 57).

Definition digit_value (c : ascii) : N := N_of_ascii c - 48.

(** [line.erase(line.begin(), find_if(..., !isspace))]. *)
Fixpoint ltrim (s : string) : string :=
  match s with
  | EmptyString => EmptyString
  | String c s' => if isspace c then ltrim s' else s
  end.

(** [s.starts_with(p)]. *)
Definition starts_with (s p : string) : bool := String.prefix p s.

(** [s.substr(n)] for [n <= s.size()]. *)
Fixpoint substr_from (n : nat) (s : string) : string :=
  match n, s with
  | O, _ => s
  | S n', String _ s' => substr_from n' s'
  | S _, EmptyString => EmptyString
  end.

(** [s.c_str()] as a C function reads it: the characters before the first
    NUL. *)
Fixpoint c_str (s : string) : string :=
  match s with
  | EmptyString => EmptyString
  | String c s' =>
      if (N_of_ascii c =? 0) then EmptyString else String c (c_str s')
  end.

(** [token.substr(0, token.find('/'))], the token itself when it holds no
    slash. *)
Fixpoint before_slash (s : string) : string :=
  match s with
  | EmptyString => EmptyString
  | String c s' =>
      if (N_of_ascii c =? 47) then EmptyString
      else String c (before_slash s')
  end.

(** The lines successive [std::getline] calls deliver: cut at every \n, the
    last line need not be terminated. *)
Fixpoint getlines (s : string) : list string :=
  match s with
  | EmptyString => []
  | String c s' =>
      if (N_of_ascii c =? 10) then EmptyString :: getlines s'
      else match getlines s' with
           | [] => [String c EmptyString]
           | l :: ls => String c l :: ls
           end
  end.

(** The tokens successive [iss >> token] extractions deliver: maximal runs
    of non-space characters. *)
Fixpoint words (s : string) : list string :=
  match s with
  | EmptyString => []
  | String c s' =>
      if isspace c then words s'
      else match s' with
           | EmptyString => [String c EmptyString]
           | String c' _ =>
               if isspace c' then String c EmptyString :: words s'
               else match words s' with
                    | w :: ws => String c w :: ws
                    | [] => [String c EmptyString]
                    end
           end
  end.

(** [std::to_string] on a [size_t]. *)
Definition to_string (n : N) : string :=
  DecimalString.NilZero.string_of_uint (N.to_uint n).

End Text.

(** ** The C library calls of the parser *)

Module Libc.
Import Text.

Definition ULONG_MAX : N := 2 ^ 64 - 1.

(** Leading decimal digits of [s]: their value, how many there are, and
    what follows them. *)
Fixpoint scan_digits (acc : N) (cnt : nat) (s : string) : N * nat * string :=
  match s with
  | String c s' =>
      if isdigit c then scan_digits (10 * acc + digit_value c) (S cnt) s'
      else (acc, cnt, s)
  | EmptyString => (acc, cnt, s)
  end.

Inductive stoul_result :=
| stoul_value (v : N)
| stoul_invalid_argument
| stoul_out_of_range.

(** [std::stoul(token)] = [strtoul(token, &end, 10)]: leading white space
    is skipped, one sign is accepted, the longest run of digits is
    converted and what follows is ignored.  No digit: [invalid_argument].
    A magnitude above [ULONG_MAX]: [out_of_range] (ERANGE).  With a minus
    sign the magnitude is negated in [unsigned long], that is modulo
    2^64. *)
Definition stoul (token : string) : stoul_result :=
  let s := ltrim token in
  let '(neg, s1) :=
    match s with
    | String "-" r => (true, r)
    | String "+" r => (false, r)
    | _ => (false, s)
    end in
  let '(mag, cnt, _) := scan_digits 0 0 s1 in
  match cnt with
  | O => stoul_invalid_argument
  | S _ =>
      if ULONG_MAX <? mag then stoul_out_of_range
      else stoul_value (if neg then (2 ^ 64 - mag) mod 2 ^ 64 else mag)
  end.

(** What [sscanf(s, "v %f %f %f", &x, &y, &z)] hands back: the number of
    assignments ([EOF] when the input ends before the first conversion)
    and the values assigned. *)
Inductive scan_result (F : Type) :=
| ScanEOF
| Scan0
| Scan1 (a : F)
| Scan2 (a b : F)
| Scan3 (a b c : F).
Arguments ScanEOF {F}.
Arguments Scan0 {F}.

Definition scan_count {F} (r : scan_result F) : Z :=
  match r with
  | ScanEOF => (-1)%Z
  | Scan0 => 0%Z
  | Scan1 _ => 1%Z
  | Scan2 _ _ => 2%Z
  | Scan3 _ _ _ => 3%Z
  end.

Section Scanf.
Context {F : Type}.

(** The numeric conversion of the C library at the current position
    (the work of [strtof] on a subject without leading white space):
    the value of the longest numeric prefix and the unread rest, [None]
    when there is no such prefix. *)
Variable strtof : string -> option (F * string).

(** One [%f] directive: white space is skipped, then the conversion
    runs.  [inl true] is an input failure (end of input), [inl false] a
    matching failure. *)
Definition scan_f (s : string) : bool + (F * string) :=
  match ltrim s with
  | EmptyString => inl true
  | String _ _ as s' =>
      match strtof s' with
      | Some r => inr r
      | None => inl false
      end
  end.

(** [sscanf(s, "v %f %f %f", ...)]: the literal [v], then three [%f]
    directives; the white space of the format matches any amount of
    white space, which the next [%f] skips anyway. *)
Definition sscanf_v_fff (s : string) : scan_result F :=
  match s with
  | EmptyString => ScanEOF
  | String "v" s0 =>
      match scan_f s0 with
      | inl true => ScanEOF
      | inl false => Scan0
      | inr (a, s1) =>
          match scan_f s1 with
          | inl _ => Scan1 a
          | inr (b, s2) =>
              match scan_f s2 with
              | inl _ => Scan2 a b
              | inr (c, _) => Scan3 a b c
              end
          end
      end
  | String _ _ => Scan0
  end.
End Scanf.

End Libc.

(** ** [std::set]: a strictly increasing list, kept so by [insert] *)

Module StdSet.
Section Ordered.
Context {A : Type}.
Variable ltb : A -> A -> bool.

(** [s.insert(x)]: nothing happens when an element equivalent to [x]
    (neither less than the other) is present. *)
Fixpoint insert (x : A) (s : list A) : list A :=
  match s with
  | [] => [x]
  | y :: s' =>
      if ltb x y then x :: s
      else if ltb y x then y :: insert x s'
      else s
  end.
End Ordered.

(** [operator<] of [std::pair<size_t, size_t>]. *)
Definition pair_ltb (a b : N * N) : bool :=
  (fst a <? fst b) || (negb (fst b <? fst a) && (snd a <? snd b)).
End StdSet.

(** [v.size()] of a [std::vector]. *)
Definition size {A : Type} (v : list A) : N := N.of_nat (List.length v).

(** ** Arithmetic on [float] *)

(** The operations and literals of type [float] that the code uses. *)
Class FloatOps (F : Type) := {
  lit_0_0 : F;                       (* 0.0f *)
  lit_0_5 : F;                       (* 0.5f *)
  lit_1_0 : F;                       (* 1.0f *)
  lit_1e_6 : F;                      (* 1e-6f *)
  deg_to_rad : F;                    (* M_PI / 180.0f *)
  of_int : Z -> F;                   (* int converted to float *)
  fadd : F -> F -> F;
  fsub : F -> F -> F;
  fmul : F -> F -> F;
  fdiv : F -> F -> F;
  fsqrt : F -> F;                    (* std::sqrt *)
  fabs : F -> F;                     (* std::abs *)
  fcos : F -> F;                     (* cos *)
  fsin : F -> F;                     (* sin *)
  fltb : F -> F -> bool;             (* < *)
  fleb : F -> F -> bool;             (* <= *)
  feqb : F -> F -> bool              (* == *)
}.

Declare Scope float_scope.
Delimit Scope float_scope with flt.
Infix "+" := fadd : float_scope.
Infix "-" := fsub : float_scope.
Infix "*" := fmul : float_scope.
Infix "/" := fdiv : float_scope.
Infix "<?" := fltb : float_scope.
Infix "<=?" := fleb : float_scope.
Infix "=?" := feqb : float_scope.

(** [std::min(a, b)] is [(b < a) ? b : a], [std::max(a, b)] is
    [(a < b) ? b : a]. *)
Definition std_min {F} `{FloatOps F} (a b : F) : F := if (b <? a)%flt then b else a.
Definition std_max {F} `{FloatOps F} (a b : F) : F := if (a <? b)%flt then b else a.

(** ** Geometric primitives *)

Record Vertex (F : Type) := mkVertex { x : F; y : F; z : F }.
Arguments mkVertex {F} _ _ _.
Arguments x {F} _.
Arguments y {F} _.
Arguments z {F} _.

Record Polygon := mkPolygon { vertex_indices : list N }.

(** The loop of [Polygon::IsValid]: [None] is the early [return false] on an
    index out of range, otherwise the set of indices seen. *)
Fixpoint Polygon_IsValid_loop (max_vertex_index : N) (idxs : list N)
    (unique_indices : list N) : option (list N) :=
  match idxs with
  | [] => Some unique_indices
  | idx :: rest =>
      if max_vertex_index <=? idx then None
      else Polygon_IsValid_loop max_vertex_index rest
             (StdSet.insert N.ltb idx unique_indices)
  end.

(** [Polygon::IsValid(max_vertex_index)]. *)
Definition Polygon_IsValid (p : Polygon) (max_vertex_index : N) : bool :=
  if size (vertex_indices p) <? 3 then false
  else match Polygon_IsValid_loop max_vertex_index (vertex_indices p) [] with
       | None => false
       | Some unique_indices => 3 <=? size unique_indices
       end.

(** ** The mesh model *)

Inductive ErrorCode := kSuccess | kFileOpenError | kInvalidData | kNoValidData.

Record Model (F : Type) := mkModel {
  path_file_ : string;
  vertices_ : list (Vertex F);
  polygons_ : list Polygon;
  last_error_ : ErrorCode;
  last_error_str_ : string
}.
Arguments mkModel {F} _ _ _ _ _.
Arguments path_file_ {F} _.
Arguments vertices_ {F} _.
Arguments polygons_ {F} _.
Arguments last_error_ {F} _.
Arguments last_error_str_ {F} _.

(** [Model m;]: the default-constructed model. *)
Definition new_Model {F} : Model F := mkModel "" [] [] kSuccess "".

Section ModelFields.
Context {F : Type}.

Definition set_path_file (m : Model F) (p : string) : Model F :=
  mkModel p (vertices_ m) (polygons_ m) (last_error_ m) (last_error_str_ m).
Definition set_vertices (m : Model F) (vs : list (Vertex F)) : Model F :=
  mkModel (path_file_ m) vs (polygons_ m) (last_error_ m) (last_error_str_ m).
Definition set_polygons (m : Model F) (ps : list Polygon) : Model F :=
  mkModel (path_file_ m) (vertices_ m) ps (last_error_ m) (last_error_str_ m).

Definition ClearErrors (m : Model F) : Model F :=
  mkModel (path_file_ m) (vertices_ m) (polygons_ m) kSuccess "".
Definition SetError (m : Model F) (code : ErrorCode) (message : string) : Model F :=
  mkModel (path_file_ m) (vertices_ m) (polygons_ m) code message.

Definition GetLastError (m : Model F) : ErrorCode := last_error_ m.
Definition GetLastErrorString (m : Model F) : string := last_error_str_ m.
Definition GetVertices (m : Model F) : list (Vertex F) := vertices_ m.
Definition GetPolygons (m : Model F) : list Polygon := polygons_ m.
Definition GetVertexCount (m : Model F) : N := size (vertices_ m).
Definition GetPolygonCount (m : Model F) : N := size (polygons_ m).
Definition GetPathFile (m : Model F) : string := path_file_ m.

(** [Model::IsValid]. *)
Definition IsValid (m : Model F) : bool :=
  match vertices_ m with
  | [] => false
  | _ :: _ =>
      forallb (fun poly => Polygon_IsValid poly (size (vertices_ m)))
        (polygons_ m)
  end.
End ModelFields.

(** ** Member functions that may throw *)

Inductive outcome (A : Type) :=
| Returned (a : A)
| Thrown (what : string).
Arguments Returned {A} _.
Arguments Thrown {A} _.

(** A member function of [Model]: it returns or throws, and leaves the
    object in some state either way. *)
Definition method (F A : Type) : Type := Model F -> outcome A * Model F.

Definition ret {F A} (a : A) : method F A := fun m => (Returned a, m).
Definition throw {F A} (what : string) : method F A := fun m => (Thrown what, m).
Definition bind {F A B} (c : method F A) (k : A -> method F B) : method F B :=
  fun m =>
    match c m with
    | (Returned a, m') => k a m'
    | (Thrown what, m') => (Thrown what, m')
    end.
Definition get {F} : method F (Model F) := fun m => (Returned m, m).
Definition put {F} (m : Model F) : method F unit := fun _ => (Returned tt, m).

Notation "a <- c ;; k" := (bind c (fun a => k))
  (at level 61, c at next level, right associativity).
Notation "c ;;; k" := (bind c (fun _ => k))
  (at level 61, right associativity).

(** ** The text format parser *)

Section Parser.
Context {F : Type}.
Variable strtof : string -> option (F * string).

(** [Model::ParseVertex]. *)
Definition ParseVertex (line : string) : method F bool :=
  match Libc.sscanf_v_fff strtof (Text.c_str line) with
  | Libc.Scan3 a b c =>
      m <- get ;;
      put (set_vertices m (vertices_ m ++ [mkVertex a b c])) ;;;
      ret true
  | _ (* count != 3 *) => throw "Invalid vertex format"
  end.

(** The [while (iss >> token)] loop of [Model::ParsePolygon], with its
    [try]/[catch (...)]: whatever [std::stoul] or the range test throws is
    replaced by the [runtime_error] of the handler. *)
Fixpoint read_indices (vertex_count : N) (tokens : list string)
    (p : list N) : outcome (list N) :=
  match tokens with
  | [] => Returned p
  | token0 :: rest =>
      let token := Text.before_slash token0 in
      match Libc.stoul token with
      | Libc.stoul_value idx =>
          if (idx =? 0) || (vertex_count <? idx)
          then Thrown ("Invalid face index: " ++ token)
          else read_indices vertex_count rest (p ++ [idx - 1])
      | _ => Thrown ("Invalid face index: " ++ token)
      end
  end.

(** [Model::ParsePolygon]. *)
Definition ParsePolygon (line : string) : method F bool :=
  m <- get ;;
  match read_indices (size (vertices_ m))
          (Text.words (Text.substr_from 2 line)) [] with
  | Thrown what => throw what
  | Returned idxs =>
      let p := mkPolygon idxs in
      if Polygon_IsValid p (size (vertices_ m))
      then put (set_polygons m (polygons_ m ++ [p])) ;;; ret true
      else ret false
  end.

(** One turn of the [while (std::getline(file, line))] loop of
    [Model::LoadFromFile], [line_num] already incremented. *)
Definition load_line (line_num : N) (line0 : string)
    (st : bool * Model F) : bool * Model F :=
  let '(has_valid_data, m) := st in
  let line := Text.ltrim line0 in
  match line with
  | EmptyString => st
  | String "#" _ => st
  | _ =>
      let attempt : method F bool :=
        if Text.starts_with line "v " then ParseVertex line
        else if Text.starts_with line "f " then ParsePolygon line
        else ret false in
      match attempt m with
      | (Returned true, m') => (true, m')
      | (Returned false, m') => (has_valid_data, m')
      | (Thrown what, m') =>
          (has_valid_data,
           SetError m' kInvalidData
             ("Error at line " ++ Text.to_string line_num ++ ": " ++ what))
      end
  end.

Fixpoint load_lines (lines : list string) (line_num : N)
    (st : bool * Model F) : bool * Model F :=
  match lines with
  | [] => st
  | line :: rest =>
      load_lines rest (line_num + 1) (load_line (line_num + 1) line st)
  end.

(** The files of the program's environment: the content of the file at a
    path, [None] when it cannot be opened. *)
Definition filesystem := string -> option string.

(** [Model::LoadFromFile]: the returned flag and the model afterwards. *)
Definition LoadFromFile (fs : filesystem) (m0 : Model F) (path : string)
    : bool * Model F :=
  let m := ClearErrors m0 in
  let m := set_vertices m [] in
  let m := set_polygons m [] in
  let m := set_path_file m path in
  match fs path with
  | None =>
      let m := SetError m kFileOpenError ("Failed to open file: " ++ path) in
      (false, set_path_file m ("Failed to open file: " ++ path))
  | Some content =>
      let '(has_valid_data, m) :=
        load_lines (Text.getlines content) 0 (false, m) in
      if negb has_valid_data
      then (false, SetError m kNoValidData "No valid data found in file")
      else if negb (IsValid m)
      then (false, SetError m kInvalidData "Loaded data is invalid")
      else (true, m)
  end.
End Parser.

(** ** Edges *)

(** The inner loop of [Model::GetEdges] over one polygon. *)
Definition poly_edges (vertex_indices : list N) (unique_edges : list (N * N))
    : list (N * N) :=
  fold_left
    (fun unique_edges i =>
       let start := nth i vertex_indices 0 in
       let end_ := nth (Nat.modulo (i + 1) (List.length vertex_indices))
                     vertex_indices 0 in
       if start =? end_ then unique_edges
       else
         let edge := if start <? end_ then (start, end_) else (end_, start) in
         StdSet.insert StdSet.pair_ltb edge unique_edges)
    (seq 0 (List.length vertex_indices)) unique_edges.

(** [Model::GetEdges]: the content of the set, in its order. *)
Definition GetEdges {F} (m : Model F) : list (N * N) :=
  fold_left
    (fun unique_edges poly =>
       if size (vertex_indices poly) <? 2 then unique_edges
       else poly_edges (vertex_indices poly) unique_edges)
    (polygons_ m) [].

Definition GetEdgeCount {F} (m : Model F) : N := size (GetEdges m).

(** ** Normalisation *)

Section Normalize.
Context {F : Type} `{FloatOps F}.
Local Open Scope float_scope.

(** The six running extrema of the first loop of [NormalizeModel]. *)
Record extrema := mkExtrema {
  min_x : F; min_y : F; min_z : F;
  max_x : F; max_y : F; max_z : F
}.

Definition extrema_step (e : extrema) (v : Vertex F) : extrema :=
  mkExtrema
    (std_min (min_x e) (x v)) (std_min (min_y e) (y v)) (std_min (min_z e) (z v))
    (std_max (max_x e) (x v)) (std_max (max_y e) (y v)) (std_max (max_z e) (z v)).

(** The radius after the guard against a division by zero. *)
Definition guarded_radius (e : extrema) : F :=
  let dx := max_x e - min_x e in
  let dy := max_y e - min_y e in
  let dz := max_z e - min_z e in
  let diagonal := fsqrt (dx * dx + dy * dy + dz * dz) in
  let radius := diagonal * lit_0_5 in
  if radius <? lit_1e_6 then lit_1_0 else radius.

(** [Model::NormalizeModel]. *)
Definition NormalizeModel (m : Model F) : Model F :=
  match vertices_ m with
  | [] => m
  | v0 :: _ =>
      let e0 := mkExtrema (x v0) (y v0) (z v0) (x v0) (y v0) (z v0) in
      let e := fold_left extrema_step (vertices_ m) e0 in
      let center_x := (min_x e + max_x e) * lit_0_5 in
      let center_y := (min_y e + max_y e) * lit_0_5 in
      let center_z := (min_z e + max_z e) * lit_0_5 in
      let radius := guarded_radius e in
      let scale_factor := lit_1_0 / radius in
      set_vertices m
        (map (fun v =>
                mkVertex ((x v - center_x) * scale_factor)
                         ((y v - center_y) * scale_factor)
                         ((z v - center_z) * scale_factor))
           (vertices_ m))
  end.
End Normalize.

(** ** The holder of the current model *)

Record ModelManager (F : Type) := mkModelManager {
  current_model_ : option (Model F)     (* nullptr is None *)
}.
Arguments mkModelManager {F} _.
Arguments current_model_ {F} _.

Section Manager.
Context {F : Type} `{FloatOps F}.
Variable strtof : string -> option (F * string).

Definition GetModel (mgr : ModelManager F) : option (Model F) :=
  current_model_ mgr.

(** [ModelManager::LoadModel]. *)
Definition LoadModel (fs : filesystem) (mgr : ModelManager F) (path : string)
    : bool * ModelManager F :=
  let '(flag, m) := LoadFromFile strtof fs new_Model path in
  (flag, mkModelManager (Some (if flag then NormalizeModel m else m))).

(** [ModelManager::LoadModelForTest]. *)
Definition LoadModelForTest (fs : filesystem) (mgr : ModelManager F)
    (path : string) : bool * ModelManager F :=
  let '(flag, m) := LoadFromFile strtof fs new_Model path in
  (flag, mkModelManager (Some m)).
End Manager.

(** ** The transform commands *)

Record MoveCommand (F : Type) := mkMoveCommand { dx_ : F; dy_ : F; dz_ : F }.
Record RotateCommand (F : Type) :=
  mkRotateCommand { angle_x_ : F; angle_y_ : F; angle_z_ : F }.
Record ScaleCommand (F : Type) := mkScaleCommand { factor_ : F }.
Arguments mkMoveCommand {F} _ _ _.
Arguments mkRotateCommand {F} _ _ _.
Arguments mkScaleCommand {F} _.
Arguments dx_ {F} _.
Arguments dy_ {F} _.
Arguments dz_ {F} _.
Arguments angle_x_ {F} _.
Arguments angle_y_ {F} _.
Arguments angle_z_ {F} _.
Arguments factor_ {F} _.

(** The abstract class [Command]: [Execute] acts on the singleton manager. *)
Class Command (F : Type) (C : Type) := {
  Execute : C -> ModelManager F -> ModelManager F
}.

Section Commands.
Context {F : Type} `{FloatOps F}.
Local Open Scope float_scope.

(** [if (auto* model = manager.GetModel()) { ...GetMutableVertices()... }]:
    the loop body [f] run over the vertex buffer of the model, if any. *)
Definition on_vertices (f : list (Vertex F) -> list (Vertex F))
    (mgr : ModelManager F) : ModelManager F :=
  match GetModel mgr with
  | Some model => mkModelManager (Some (set_vertices model (f (vertices_ model))))
  | None => mgr
  end.

#[export] Instance MoveCommand_Command : Command F (MoveCommand F) := {
  Execute cmd :=
    on_vertices
      (map (fun vertex =>
              mkVertex (x vertex + dx_ cmd) (y vertex + dy_ cmd)
                       (z vertex + dz_ cmd)))
}.

(** [RotateCommand::RotatePair]: the new values of the two references. *)
Definition RotatePair (coord1 coord2 angle : F) : F * F :=
  let p1 := coord1 * fcos angle - coord2 * fsin angle in
  let p2 := coord1 * fsin angle + coord2 * fcos angle in
  (p1, p2).

(** The body of the loop of [RotateVertices] on one vertex. *)
Definition rotate_vertex (ax ay az : F) (vertex : Vertex F) : Vertex F :=
  let vertex :=
    if negb (ax =? of_int 0)
    then let '(y', z') := RotatePair (y vertex) (z vertex) ax in
         mkVertex (x vertex) y' z'
    else vertex in
  let vertex :=
    if negb (ay =? of_int 0)
    then let '(z', x') := RotatePair (z vertex) (x vertex) ay in
         mkVertex x' (y vertex) z'
    else vertex in
  if negb (az =? of_int 0)
  then let '(x', y') := RotatePair (x vertex) (y vertex) az in
       mkVertex x' y' (z vertex)
  else vertex.

(** [RotateCommand::RotateVertices]. *)
Definition RotateVertices (cmd : RotateCommand F) (inverse : bool)
    (vertices : list (Vertex F)) : list (Vertex F) :=
  let sign := of_int (if inverse then (-1) else 1) in
  let ax := angle_x_ cmd * deg_to_rad * sign in
  let ay := angle_y_ cmd * deg_to_rad * sign in
  let az := angle_z_ cmd * deg_to_rad * sign in
  map (rotate_vertex ax ay az) vertices.

#[export] Instance RotateCommand_Command : Command F (RotateCommand F) := {
  Execute cmd := on_vertices (RotateVertices cmd false)
}.

#[export] Instance ScaleCommand_Command : Command F (ScaleCommand F) := {
  Execute cmd mgr :=
    if factor_ cmd <=? lit_0_0 then mgr
    else
      on_vertices
        (map (fun vertex =>
                mkVertex (x vertex * factor_ cmd) (y vertex * factor_ cmd)
                         (z vertex * factor_ cmd)))
        mgr
}.
End Commands.

(** [Vertex::operator==]: equality up to 1e-6 on every coordinate. *)
Definition Vertex_eqb {F} `{FloatOps F} (a b : Vertex F) : bool :=
  ((fabs (x a - x b) <? lit_1e_6) && (fabs (y a - y b) <? lit_1e_6) &&
   (fabs (z a - z b) <? lit_1e_6))%flt.

(** ** Exact arithmetic: the real numbers as an instance of [FloatOps]

    Rounding, overflow and NaN are absent from this instance; what is proved
    for it is what the code computes when its arithmetic is exact.  Its
    [lit_1e_6] is the decimal 10^-6 and its [deg_to_rad] is pi / 180; the
    constants of the code are the binary32 values nearest to them. *)

Definition Rltb (a b : R) : bool := if Rlt_dec a b then true else false.
Definition Rleb (a b : R) : bool := if Rle_dec a b then true else false.
Definition Reqb (a b : R) : bool := if Req_dec_T a b then true else false.

#[export] Instance R_FloatOps : FloatOps R := {
  lit_0_0 := 0%R;
  lit_0_5 := (1 / 2)%R;
  lit_1_0 := 1%R;
  lit_1e_6 := (1 / 1000000)%R;
  deg_to_rad := (PI / 180)%R;
  of_int := IZR;
  fadd := Rplus;
  fsub := Rminus;
  fmul := Rmult;
  fdiv := Rdiv;
  fsqrt := sqrt;
  fabs := Rabs;
  fcos := cos;
  fsin := sin;
  fltb := Rltb;
  fleb := Rleb;
  feqb := Reqb
}.

(** ** [float] as IEEE 754 binary32

    The arithmetic of the target: [float] is binary32 and every operation
    rounds on its own to the nearest value, ties to even, with signed
    zeros, infinities and NaN (no extended precision, no fused
    multiply-add).  A value is a zero, an infinity, NaN, or
    (-1)^s * m * 2^e. *)

Definition binary32 : Type := SpecFloat.spec_float.

Module Binary32.
Definition prec : Z := 24%Z.
Definition emax : Z := 128%Z.

(** The binary32 value nearest to m * 2^e. *)
Definition make (m e : Z) : binary32 :=
  SpecFloat.binary_normalize prec emax m e false.

Definition infinity (negative : bool) : binary32 := SpecFloat.S754_infinity negative.
Definition zero (negative : bool) : binary32 := SpecFloat.S754_zero negative.

Definition is_zero (f : binary32) : bool :=
  match f with
  | SpecFloat.S754_zero _ => true
  | _ => false
  end.

(** The real number a finite value stands for. *)
Definition value (f : binary32) : R :=
  match f with
  | SpecFloat.S754_finite negative m e =>
      ((if negative then -1 else 1) * IZR (Zpos m) * powerRZ 2 e)%R
  | _ => 0%R
  end.
End Binary32.

(** The operations of [FloatOps] in binary32.  [1e-6f] is 8796093 * 2^-43
    and [M_PI / 180.0f], computed in [double] and stored in a [float], is
    9370165 * 2^-29.  A comparison with NaN is false.  IEEE 754 does not fix
    the cosine and the sine: they are parameters, the library's [cos] and
    [sin], and what is stated in binary32 holds whatever they are. *)
Definition binary32_FloatOps (cosf sinf : binary32 -> binary32)
    : FloatOps binary32 := {|
  lit_0_0 := Binary32.zero false;
  lit_0_5 := Binary32.make 1 (-1);
  lit_1_0 := Binary32.make 1 0;
  lit_1e_6 := Binary32.make 8796093 (-43);
  deg_to_rad := Binary32.make 9370165 (-29);
  of_int := fun n => Binary32.make n 0;
  fadd := SpecFloat.SFadd Binary32.prec Binary32.emax;
  fsub := SpecFloat.SFsub Binary32.prec Binary32.emax;
  fmul := SpecFloat.SFmul Binary32.prec Binary32.emax;
  fdiv := SpecFloat.SFdiv Binary32.prec Binary32.emax;
  fsqrt := SpecFloat.SFsqrt Binary32.prec Binary32.emax;
  fabs := SpecFloat.SFabs;
  fcos := cosf;
  fsin := sinf;
  fltb := SpecFloat.SFltb;
  fleb := SpecFloat.SFleb;
  feqb := SpecFloat.SFeqb
|}.

(** ** Exact arithmetic with the constant of the guard left open

    [R_FloatOps] is [exact_FloatOps (1 / 1000000)]; the [1e-6f] of the code
    is [float_1e_6]. *)
Definition exact_FloatOps (threshold : R) : FloatOps R := {|
  lit_0_0 := 0%R;
  lit_0_5 := (1 / 2)%R;
  lit_1_0 := 1%R;
  lit_1e_6 := threshold;
  deg_to_rad := (PI / 180)%R;
  of_int := IZR;
  fadd := Rplus;
  fsub := Rminus;
  fmul := Rmult;
  fdiv := Rdiv;
  fsqrt := sqrt;
  fabs := Rabs;
  fcos := cos;
  fsin := sin;
  fltb := Rltb;
  fleb := Rleb;
  feqb := Reqb
|}.

(** 8796093 * 2^-43. *)
Definition float_1e_6 : R := (8796093 / 8796093022208)%R.

(** ** A reference conversion for decimal notation

    The value of a decimal literal, kept exact: sign, digits, power of ten. *)

Record decimal := mkDecimal { dec_neg : bool; dec_digits : N; dec_exp10 : Z }.

Module Decimal.
Import Text Libc.

Definition scan_sign (s : string) : bool * string :=
  match s with
  | String "-" r => (true, r)
  | String "+" r => (false, r)
  | _ => (false, s)
  end.

(** The exponent part [e[+-]digits], if there is a complete one at the
    head of [s]; otherwise nothing is consumed. *)
Definition scan_exponent (s : string) : Z * string :=
  match s with
  | String c r =>
      if (N_of_ascii c =? 101) || (N_of_ascii c =? 69) then
        let '(eneg, r1) := scan_sign r in
        let '(ev, en, r2) := scan_digits 0 0 r1 in
        match en with
        | O => (0%Z, s)
        | S _ => ((if eneg then - Z.of_N ev else Z.of_N ev)%Z, r2)
        end
      else (0%Z, s)
  | EmptyString => (0%Z, s)
  end.

(** The fraction part [.digits], if [s] starts with a point: the digits go
    on extending the mantissa [ip]. *)
Definition scan_fraction (ip : N) (s : string) : N * nat * string :=
  match s with
  | String "." r => scan_digits ip 0 r
  | _ => (ip, O, s)
  end.

(** [[+-]digits[.digits][e[+-]digits]] with at least one digit in the
    mantissa: the longest such prefix of [s]. *)
Definition strtof (s : string) : option (decimal * string) :=
  let '(neg, s1) := scan_sign s in
  let '(ip, n1, s2) := scan_digits 0 0 s1 in
  let '(mant, n2, s3) := scan_fraction ip s2 in
  match (n1 + n2)%nat with
  | O => None
  | S _ =>
      let '(e, s4) := scan_exponent s3 in
      Some (mkDecimal neg mant (e - Z.of_nat n2), s4)
  end.
End Decimal.

(** ** The specification's reading of a vertex record *)

Section VertexRecord.
Context {F : Type}.
Variable strtof : string -> option (F * string).

(** A floating-point token: the conversion consumes all of it. *)
Definition float_token (t : string) : bool :=
  match strtof t with
  | Some (_, EmptyString) => true
  | _ => false
  end.

(** What follows the [v] decomposes into exactly three floating-point
    tokens separated by white space. *)
Definition three_float_tokens (line : string) : bool :=
  match Text.words (Text.substr_from 1 line) with
  | [a; b; c] => float_token a && float_token b && float_token c
  | _ => false
  end.

(** The line yields a vertex: [ParseVertex] returns, one more vertex in
    the buffer. *)
Definition yields_vertex (line : string) (m : Model F) : bool :=
  match ParseVertex strtof line m with
  | (Returned _, m') => size (vertices_ m') =? size (vertices_ m) + 1
  | (Thrown _, _) => false
  end.

(** The values of the first [k] tokens, when there are that many and each
    of them is a floating-point token. *)
Fixpoint leading_floats (k : nat) (tokens : list string) : option (list F) :=
  match k with
  | O => Some []
  | S k' =>
      match tokens with
      | t :: rest =>
          match strtof t with
          | Some (v, EmptyString) => option_map (cons v) (leading_floats k' rest)
          | _ => None
          end
      | [] => None
      end
  end.

(** White space ends a number: appending a white-space character and
    anything after it to the subject changes neither the outcome of the
    conversion nor its value, the addition is left unread. *)
Definition space_terminates : Prop :=
  forall (t : string) (c : ascii) (r : string),
    Text.isspace c = true ->
    strtof (t ++ String c r) =
    match strtof t with
    | Some (v, rest) => Some (v, rest ++ String c r)
    | None => None
    end.
End VertexRecord.

(** ** The specification's reading of the edges *)

(** The pairs of consecutive indices of a polygon, the pair (last, first)
    included. *)
Definition consecutive_pairs (l : list N) : list (N * N) :=
  combine l (tl l ++ firstn 1 l).

(** An unordered pair, stored as (min, max). *)
Definition unordered (a b : N) : N * N := (N.min a b, N.max a b).

(** What the body of the loop of [GetEdges] does with one pair of
    consecutive indices. *)
Definition add_edge (unique_edges : list (N * N)) (pr : N * N) : list (N * N) :=
  let '(start, end_) := pr in
  if start =? end_ then unique_edges
  else StdSet.insert StdSet.pair_ltb
         (if start <? end_ then (start, end_) else (end_, start)) unique_edges.

(** The content of a [std::set] is strictly increasing. *)
Definition increasing {A : Type} (ltb : A -> A -> bool) (s : list A) : Prop :=
  StronglySorted (fun a b => ltb a b = true) s.

(** ** The specification's reading of the normalisation *)

Section NormalizeSpec.
Context {F : Type} `{FloatOps F}.
Local Open Scope float_scope.

Definition axis_min (cs : list F) : F :=
  match cs with
  | [] => lit_0_0
  | c :: rest => fold_left std_min rest c
  end.
Definition axis_max (cs : list F) : F :=
  match cs with
  | [] => lit_0_0
  | c :: rest => fold_left std_max rest c
  end.

(** The axis-aligned bounding box of the vertices: its two extreme
    corners. *)
Definition bounding_box (vs : list (Vertex F)) : Vertex F * Vertex F :=
  (mkVertex (axis_min (map x vs)) (axis_min (map y vs)) (axis_min (map z vs)),
   mkVertex (axis_max (map x vs)) (axis_max (map y vs)) (axis_max (map z vs))).

Definition box_midpoint (b : Vertex F * Vertex F) : Vertex F :=
  let '(lo, hi) := b in
  mkVertex ((x lo + x hi) * lit_0_5) ((y lo + y hi) * lit_0_5)
           ((z lo + z hi) * lit_0_5).

Definition box_half_diagonal (b : Vertex F * Vertex F) : F :=
  let '(lo, hi) := b in
  let dx := x hi - x lo in
  let dy := y hi - y lo in
  let dz := z hi - z lo in
  fsqrt (dx * dx + dy * dy + dz * dz) * lit_0_5.

(** The radius, replaced by 1.0 when it is near zero. *)
Definition radius_or_one (r : F) : F :=
  if r <? lit_1e_6 then lit_1_0 else r.

(** (v - center) * (1 / radius), coordinate by coordinate. *)
Definition recentre_rescale (center : Vertex F) (radius : F) (v : Vertex F)
    : Vertex F :=
  mkVertex ((x v - x center) * (lit_1_0 / radius))
           ((y v - y center) * (lit_1_0 / radius))
           ((z v - z center) * (lit_1_0 / radius)).
End NormalizeSpec.

(** ** The specification's reading of the rotation *)

Section RotateSpec.
Context {F : Type} `{FloatOps F}.
Local Open Scope float_scope.

(** Degrees to radians, as [Execute] converts them ([inverse] is false). *)
Definition to_radians (angle : F) : F := angle * deg_to_rad * of_int 1.

Definition rotate_about_X (t : F) (v : Vertex F) : Vertex F :=
  mkVertex (x v)
           (y v * fcos t - z v * fsin t)
           (y v * fsin t + z v * fcos t).
Definition rotate_about_Y (t : F) (v : Vertex F) : Vertex F :=
  mkVertex (z v * fsin t + x v * fcos t)
           (y v)
           (z v * fcos t - x v * fsin t).
Definition rotate_about_Z (t : F) (v : Vertex F) : Vertex F :=
  mkVertex (x v * fcos t - y v * fsin t)
           (x v * fsin t + y v * fcos t)
           (z v).

(** One axis: every vertex is rotated, or, when the angle is zero, the
    buffer is not touched. *)
Definition axis_pass (rot : F -> Vertex F -> Vertex F) (t : F)
    (vs : list (Vertex F)) : list (Vertex F) :=
  if t =? of_int 0 then vs else map (rot t) vs.

(** X, then Y, then Z. *)
Definition rotate_XYZ (angle_x angle_y angle_z : F) (vs : list (Vertex F))
    : list (Vertex F) :=
  axis_pass rotate_about_Z (to_radians angle_z)
    (axis_pass rotate_about_Y (to_radians angle_y)
       (axis_pass rotate_about_X (to_radians angle_x) vs)).
End RotateSpec.

(** ** Frame of a transform *)

(** [mgr'] differs from [mgr] in the vertex buffer of the held model at
    most. *)
Definition only_vertices_changed {F} (mgr mgr' : ModelManager F) : Prop :=
  match current_model_ mgr, current_model_ mgr' with
  | None, None => True
  | Some m, Some m' =>
      polygons_ m' = polygons_ m /\
      last_error_ m' = last_error_ m /\
      last_error_str_ m' = last_error_str_ m /\
      path_file_ m' = path_file_ m
  | _, _ => False
  end.

(** ** Sample files of the test suite *)

Definition LF : string := String (ascii_of_N 10) "".

(** [CreateValidObjFile], [CreateInvalidObjFile], [CreateEmptyObjFile] and
    [CreateObjFileWithComments] of the model tests. *)
Definition test_files : filesystem := fun path =>
  if String.eqb path "valid_test.obj" then
    Some ("v 1.0 2.0 3.0" ++ LF ++ "v 4.0 5.0 6.0" ++ LF ++
          "v 7.0 8.0 9.0" ++ LF ++ "f 1 2 3" ++ LF)
  else if String.eqb path "invalid_test.obj" then
    Some ("v 1.0 2.0" ++ LF ++ "v abc def ghi" ++ LF ++ "f 1 2 3 4" ++ LF ++
          "f a b c" ++ LF ++ "f -1 2 3" ++ LF ++ "f 1 2 3 4 5" ++ LF)
  else if String.eqb path "empty_test.obj" then Some ""
  else if String.eqb path "comments_test.obj" then
    Some ("# comment" ++ LF ++ "v 1.0 2.0 3.0" ++ LF ++ "# comment" ++ LF ++
          "f 1 1 1" ++ LF)
  else None.

(** ** The reading loop, line by line *)

Section LineEffect.
Context {F : Type}.

(** The three things a line can do: append a vertex, append a polygon that
    is valid against the vertices read so far, or leave both buffers
    alone. *)
Inductive line_effect : bool * Model F -> bool * Model F -> Prop :=
| effect_vertex (has_valid_data : bool) (m m' : Model F) (v : Vertex F) :
    vertices_ m' = (vertices_ m ++ [v])%list ->
    polygons_ m' = polygons_ m ->
    line_effect (has_valid_data, m) (true, m')
| effect_polygon (has_valid_data : bool) (m m' : Model F) (p : Polygon) :
    vertices_ m' = vertices_ m ->
    polygons_ m' = (polygons_ m ++ [p])%list ->
    Polygon_IsValid p (size (vertices_ m)) = true ->
    line_effect (has_valid_data, m) (true, m')
| effect_none (has_valid_data : bool) (m m' : Model F) :
    vertices_ m' = vertices_ m ->
    polygons_ m' = polygons_ m ->
    line_effect (has_valid_data, m) (has_valid_data, m').

(** The invariant of the reading loop. *)
Definition load_invariant (st : bool * Model F) : Prop :=
  let '(has_valid_data, m) := st in
  forallb (fun poly => Polygon_IsValid poly (size (vertices_ m))) (polygons_ m)
    = true /\
  (has_valid_data = true -> vertices_ m <> []) /\
  (has_valid_data = false -> vertices_ m = [] /\ polygons_ m = []).

(** The model as [LoadFromFile] has it when the reading loop starts. *)
Definition cleared (m0 : Model F) (path : string) : Model F :=
  set_path_file (set_polygons (set_vertices (ClearErrors m0) []) []) path.

End LineEffect.

(** ** Face tokens *)

(** A token is rejected when [std::stoul] throws on it or converts it to
    zero or to more than the number of vertices read so far. *)
Definition rejected_index (vertex_count : N) (token : string) : bool :=
  match Libc.stoul (Text.before_slash token) with
  | Libc.stoul_value idx => (idx =? 0) || (vertex_count <? idx)
  | _ => true
  end.

(** The 0-based index an accepted token stands for. *)
Definition index_of_token (token : string) : N :=
  match Libc.stoul (Text.before_slash token) with
  | Libc.stoul_value idx => idx - 1
  | _ => 0
  end.

(** Three vertices and no polygon yet: the state in which the face line of
    interest is read. *)
Definition three_vertices : Model decimal :=
  mkModel "mesh.obj"
    [mkVertex (mkDecimal false 0 0) (mkDecimal false 0 0) (mkDecimal false 0 0);
     mkVertex (mkDecimal false 1 0) (mkDecimal false 0 0) (mkDecimal false 0 0);
     mkVertex (mkDecimal false 0 0) (mkDecimal false 1 0) (mkDecimal false 0 0)]
    [] kSuccess "".

(** ** Two small meshes over the real numbers *)

(** Two vertices two units apart on the X axis. *)
Definition two_points : Model R :=
  mkModel "two.obj" [mkVertex 0 0 0; mkVertex 2 0 0]%R [] kSuccess "".

(** Twice the same vertex. *)
Definition one_point_twice : Model R :=
  mkModel "one.obj" [mkVertex 5 7 9; mkVertex 5 7 9]%R [] kSuccess "".

(** ** Small meshes in binary32 *)

Definition mesh32 (name : string) (vs : list (Vertex binary32)) : Model binary32 :=
  mkModel name vs [] kSuccess "".


(** (0, 0, 0) and (0.000002, 0, 0): half the diagonal is the [1e-6f] of the
    guard. *)
Definition threshold_segment32 : Model binary32 :=
  mesh32 "threshold.obj"
    [mkVertex (Binary32.zero false) (Binary32.zero false) (Binary32.zero false);
     mkVertex (Binary32.make 8796093 (-42)) (Binary32.zero false)
              (Binary32.zero false)].

(** Twice the vertex (5, 7, 9). *)
Definition one_point_twice32 : Model binary32 :=
  mesh32 "one.obj"
    [mkVertex (Binary32.make 5 0) (Binary32.make 7 0) (Binary32.make 9 0);
     mkVertex (Binary32.make 5 0) (Binary32.make 7 0) (Binary32.make 9 0)].

(** Two opposite corners of a cube of side 5e-7f = 8796093 * 2^-44. *)
Definition tiny_cube32 : Model binary32 :=
  mesh32 "tiny.obj"
    [mkVertex (Binary32.zero false) (Binary32.zero false) (Binary32.zero false);
     mkVertex (Binary32.make 8796093 (-44)) (Binary32.make 8796093 (-44))
              (Binary32.make 8796093 (-44))].

(** Two opposite corners of a cube of side 2. *)
Definition cube32 : Model binary32 :=
  mesh32 "cube.obj"
    [mkVertex (Binary32.zero false) (Binary32.zero false) (Binary32.zero false);
     mkVertex (Binary32.make 2 0) (Binary32.make 2 0) (Binary32.make 2 0)].

(** Two opposite corners of a cube of side 1e20f = 11368684 * 2^43. *)
Definition huge_cube32 : Model binary32 :=
  mesh32 "huge.obj"
    [mkVertex (Binary32.zero false) (Binary32.zero false) (Binary32.zero false);
     mkVertex (Binary32.make 11368684 43) (Binary32.make 11368684 43)
              (Binary32.make 11368684 43)].

(** Twice the vertex (2^127, 0, 0). *)
Definition far_point_twice32 : Model binary32 :=
  mesh32 "far.obj"
    [mkVertex (Binary32.make 1 127) (Binary32.zero false) (Binary32.zero false);
     mkVertex (Binary32.make 1 127) (Binary32.zero false) (Binary32.zero false)].

(** The octahedron (1, 0, 0), (-1, 0, 0), (0, 1, 0), (0, -1, 0), (0, 0, 1),
    (0, 0, -1). *)
Definition octahedron32 : Model binary32 :=
  mesh32 "octahedron.obj"
    [mkVertex (Binary32.make 1 0) (Binary32.zero false) (Binary32.zero false);
     mkVertex (Binary32.make (-1) 0) (Binary32.zero false) (Binary32.zero false);
     mkVertex (Binary32.zero false) (Binary32.make 1 0) (Binary32.zero false);
     mkVertex (Binary32.zero false) (Binary32.make (-1) 0) (Binary32.zero false);
     mkVertex (Binary32.zero false) (Binary32.zero false) (Binary32.make 1 0);
     mkVertex (Binary32.zero false) (Binary32.zero false) (Binary32.make (-1) 0)].

(** The single vertex (1, 2, 3); the single vertex (100, 0, 0); the single
    vertex (2^30, 1, 0). *)
Definition one_two_three32 : Model binary32 :=
  mesh32 "a.obj"
    [mkVertex (Binary32.make 1 0) (Binary32.make 2 0) (Binary32.make 3 0)].
Definition hundred32 : Model binary32 :=
  mesh32 "a.obj"
    [mkVertex (Binary32.make 100 0) (Binary32.zero false) (Binary32.zero false)].
Definition two_to_30_32 : Model binary32 :=
  mesh32 "a.obj"
    [mkVertex (Binary32.make 1 30) (Binary32.make 1 0) (Binary32.zero false)].


(** The single vertex (1, 2, 3) over the real numbers. *)
Definition one_two_three : Model R :=
  mkModel "a.obj" [mkVertex 1 2 3]%R [] kSuccess "".


(** ** Lines, as the reading loop sorts them *)

Section LineKinds.
Context {F : Type}.
Variable strtof : string -> option (F * string).

(** The vertex a line appends to the buffer, if it appends one. *)
Definition vertex_of_line (line0 : string) : list (Vertex F) :=
  let line := Text.ltrim line0 in
  if Text.starts_with line "v " then
    match Libc.sscanf_v_fff strtof (Text.c_str line) with
    | Libc.Scan3 a b c => [mkVertex a b c]
    | _ => []
    end
  else [].
End LineKinds.

(** A line the loop passes over: blank, a comment, or a record that is
    neither a vertex nor a face. *)
Definition ignorable (line0 : string) : bool :=
  match Text.ltrim line0 with
  | EmptyString => true
  | String "#" _ => true
  | String _ _ as line =>
      negb (Text.starts_with line "v ") && negb (Text.starts_with line "f ")
  end.

(** Two states of the loop with the same flag and the same buffers; the
    error members and the path may differ. *)
Definition same_mesh {F} (st st' : bool * Model F) : Prop :=
  fst st = fst st' /\
  vertices_ (snd st) = vertices_ (snd st') /\
  polygons_ (snd st) = polygons_ (snd st').

(** The error members after a load that returned true: untouched since
    [ClearErrors], or those of a line-local failure at some line of the
    file. *)
Definition clean_or_line_error {F} (line_count : N) (m : Model F) : Prop :=
  (last_error_ m = kSuccess /\ last_error_str_ m = "") \/
  (last_error_ m = kInvalidData /\
   exists (line_num : N) (what : string),
     1 <= line_num <= line_count /\
     last_error_str_ m = "Error at line " ++ Text.to_string line_num ++ ": " ++ what /\
     (what = "Invalid vertex format" \/
      exists token, what = "Invalid face index: " ++ token)).

(** ** The controller

    From here on the embedding leaves the model: [controller.hpp] (class
    [Controller]), then the sample inputs of the properties, the handlers
    of the sliders and of the load button of [mainwindow.cpp], and
    [setModelData] and [drawLines] of [glwidget.cpp].  Of the window and
    the widget only the members these functions read or write are kept;
    the text fields, the settings file and the repaint requests are left
    out. *)

(** A [size_t] returned as [int] (32 bits, two's complement). *)
Definition int_of_size_t (n : N) : Z :=
  let r := (Z.of_N n mod 2 ^ 32)%Z in
  if (r <? 2 ^ 31)%Z then r else (r - 2 ^ 32)%Z.

Section Controller.
Context {F : Type} `{FloatOps F}.
Variable strtof : string -> option (F * string).

(** [Controller::LoadModelFromFile]. *)
Definition LoadModelFromFile (fs : filesystem) (mgr : ModelManager F)
    (path : string) : bool * ModelManager F :=
  LoadModel strtof fs mgr path.

(** [Controller::GetVerticesCount]. *)
Definition GetVerticesCount (mgr : ModelManager F) : Z :=
  match GetModel mgr with
  | Some model => int_of_size_t (GetVertexCount model)
  | None => 0%Z
  end.

(** [Controller::GetEdgesCount]. *)
Definition GetEdgesCount (mgr : ModelManager F) : Z :=
  match GetModel mgr with
  | Some model => int_of_size_t (GetEdgeCount model)
  | None => 0%Z
  end.

(** [Controller::TranslateModel], [RotateModel] and [ScaleModel]: the
    [double] arguments initialise the [float] members of the command; the
    one type [F] stands for both. *)
Definition TranslateModel (dx dy dz : F) (mgr : ModelManager F) : ModelManager F :=
  Execute (mkMoveCommand dx dy dz) mgr.
Definition RotateModel (angle_x angle_y angle_z : F) (mgr : ModelManager F)
    : ModelManager F :=
  Execute (mkRotateCommand angle_x angle_y angle_z) mgr.
Definition ScaleModel (factor : F) (mgr : ModelManager F) : ModelManager F :=
  Execute (mkScaleCommand factor) mgr.
End Controller.

(** ** More sample files *)

(** A file whose second line is a malformed vertex record, and the same
    mesh written with blank lines, comments, indentation and records of
    other kinds. *)
Definition more_files : filesystem := fun path =>
  if String.eqb path "partly_bad.obj" then
    Some ("v 1 2 3" ++ LF ++ "v 4 five 6" ++ LF)
  else if String.eqb path "plain.obj" then
    Some ("v 0 0 0" ++ LF ++ "v 1 0 0" ++ LF ++ "v 0 1 0" ++ LF ++ "f 1 2 3" ++ LF)
  else if String.eqb path "annotated.obj" then
    Some ("# a triangle" ++ LF ++ "o mesh" ++ LF ++ "v 0 0 0" ++ LF ++ LF ++
          "  v 1 0 0" ++ LF ++ "vn 0 0 1" ++ LF ++ "v 0 1 0" ++ LF ++
          "s off" ++ LF ++ "f 1 2 3" ++ LF)
  else None.

(** The lines that count: those not passed over, without their leading
    white space. *)
Definition records (content : string) : list string :=
  map Text.ltrim (filter (fun line => negb (ignorable line)) (Text.getlines content)).

(** The real number a decimal literal denotes, and with it the numeric
    conversion of the C library in exact arithmetic. *)
Definition decimal_value (d : decimal) : R :=
  ((if dec_neg d then -1 else 1) * IZR (Z.of_N (dec_digits d))
   * powerRZ 10 (dec_exp10 d))%R.

Definition R_strtof (s : string) : option (R * string) :=
  match Decimal.strtof s with
  | Some (d, rest) => Some (decimal_value d, rest)
  | None => None
  end.

(** ** Distances and scalings of points *)

(** The square of the distance between two points. *)
Definition squared_distance (a b : Vertex R) : R :=
  ((x a - x b) * (x a - x b) + (y a - y b) * (y a - y b)
   + (z a - z b) * (z a - z b))%R.

Definition origin : Vertex R := mkVertex 0%R 0%R 0%R.

(** A vertex with every coordinate multiplied by [k]. *)
Definition scaled (k : R) (v : Vertex R) : Vertex R :=
  mkVertex (x v * k)%R (y v * k)%R (z v * k)%R.

(** ** The main window

    The members of [MainWindow] that the slider handlers keep: the value
    each slider stood at when its handler last ran.  [double] is read as
    the real numbers; [controller_] is the outcome of the test
    [if (controller_)].  The text fields and the repaint request leave no
    trace in the model. *)

Record MainWindow := mkMainWindow {
  res_sdvigX_ : R; res_sdvigY_ : R; res_sdvigZ_ : R;
  res_virtX_ : R; res_virtY_ : R; res_virtZ_ : R;
  res_scale_ : R;
  controller_ : bool
}.

(** The window as its constructor leaves it. *)
Definition new_MainWindow (controller : bool) : MainWindow :=
  mkMainWindow 0 0 0 0 0 0 1 controller.

(** A [double] converted to [int]: the fractional part is discarded (the
    range of [int] is not modelled). *)
Definition int_of_double (r : R) : Z :=
  if Rle_dec 0 r then Int_part r else (- Int_part (- r))%Z.

(** [MainWindow::onTranslateXSliderChanged] and its two siblings. *)
Definition onTranslateXSliderChanged (value : Z)
    (st : MainWindow * ModelManager R) : MainWindow * ModelManager R :=
  let '(w, mgr) := st in
  let val := (IZR value / 10)%R in
  let temp := val in
  let val := (val - res_sdvigX_ w)%R in
  let w := mkMainWindow temp (res_sdvigY_ w) (res_sdvigZ_ w) (res_virtX_ w)
             (res_virtY_ w) (res_virtZ_ w) (res_scale_ w) (controller_ w) in
  if controller_ w then (w, TranslateModel val 0%R 0%R mgr) else (w, mgr).

Definition onTranslateYSliderChanged (value : Z)
    (st : MainWindow * ModelManager R) : MainWindow * ModelManager R :=
  let '(w, mgr) := st in
  let val := (IZR value / 10)%R in
  let temp := val in
  let val := (val - res_sdvigY_ w)%R in
  let w := mkMainWindow (res_sdvigX_ w) temp (res_sdvigZ_ w) (res_virtX_ w)
             (res_virtY_ w) (res_virtZ_ w) (res_scale_ w) (controller_ w) in
  if controller_ w then (w, TranslateModel 0%R val 0%R mgr) else (w, mgr).

Definition onTranslateZSliderChanged (value : Z)
    (st : MainWindow * ModelManager R) : MainWindow * ModelManager R :=
  let '(w, mgr) := st in
  let val := (IZR value / 10)%R in
  let temp := val in
  let val := (val - res_sdvigZ_ w)%R in
  let w := mkMainWindow (res_sdvigX_ w) (res_sdvigY_ w) temp (res_virtX_ w)
             (res_virtY_ w) (res_virtZ_ w) (res_scale_ w) (controller_ w) in
  if controller_ w then (w, TranslateModel 0%R 0%R val mgr) else (w, mgr).

(** [MainWindow::onRotateXSliderChanged]: [value -= res_virtX_] is computed
    in [double] and stored back into the [int]. *)
Definition onRotateXSliderChanged (value : Z)
    (st : MainWindow * ModelManager R) : MainWindow * ModelManager R :=
  let '(w, mgr) := st in
  let temp := IZR value in
  let value := int_of_double (IZR value - res_virtX_ w) in
  let w := mkMainWindow (res_sdvigX_ w) (res_sdvigY_ w) (res_sdvigZ_ w) temp
             (res_virtY_ w) (res_virtZ_ w) (res_scale_ w) (controller_ w) in
  if controller_ w then (w, RotateModel (IZR value) 0%R 0%R mgr) else (w, mgr).

(** [MainWindow::onScaleSliderChanged]. *)
Definition onScaleSliderChanged (value : Z)
    (st : MainWindow * ModelManager R) : MainWindow * ModelManager R :=
  let '(w, mgr) := st in
  let val := (IZR value / 100)%R in
  let factor := 1%R in
  let factor :=
    if negb (Reqb (res_scale_ w) 0) then (val / res_scale_ w)%R else factor in
  let w := mkMainWindow (res_sdvigX_ w) (res_sdvigY_ w) (res_sdvigZ_ w)
             (res_virtX_ w) (res_virtY_ w) (res_virtZ_ w) val (controller_ w) in
  if controller_ w then (w, ScaleModel factor mgr) else (w, mgr).

(** The three translation sliders, moved in any order. *)
Inductive translate_slider := translateXSlider | translateYSlider | translateZSlider.

Definition valueChanged (e : translate_slider * Z)
    (st : MainWindow * ModelManager R) : MainWindow * ModelManager R :=
  match fst e with
  | translateXSlider => onTranslateXSliderChanged (snd e) st
  | translateYSlider => onTranslateYSliderChanged (snd e) st
  | translateZSlider => onTranslateZSliderChanged (snd e) st
  end.

(** The handlers run one after the other, in the order of the signals. *)
Definition handle {E S : Type} (handler : E -> S -> S) (events : list E) (st : S) : S :=
  fold_left (fun st e => handler e st) events st.

(** The value a slider was last set to, in the unit of its text field. *)
Definition last_setting (unit : R) (values : list Z) (before : R) : R :=
  match rev values with
  | [] => before
  | value :: _ => (IZR value / unit)%R
  end.

Definition settings_of (s : translate_slider) (events : list (translate_slider * Z))
    : list Z :=
  map snd (filter (fun e => match fst e, s with
                            | translateXSlider, translateXSlider => true
                            | translateYSlider, translateYSlider => true
                            | translateZSlider, translateZSlider => true
                            | _, _ => false
                            end) events).

(** [MainWindow::onRotateYSliderChanged] and [onRotateZSliderChanged]. *)
Definition onRotateYSliderChanged (value : Z)
    (st : MainWindow * ModelManager R) : MainWindow * ModelManager R :=
  let '(w, mgr) := st in
  let temp := IZR value in
  let value := int_of_double (IZR value - res_virtY_ w) in
  let w := mkMainWindow (res_sdvigX_ w) (res_sdvigY_ w) (res_sdvigZ_ w)
             (res_virtX_ w) temp (res_virtZ_ w) (res_scale_ w) (controller_ w) in
  if controller_ w then (w, RotateModel 0%R (IZR value) 0%R mgr) else (w, mgr).

Definition onRotateZSliderChanged (value : Z)
    (st : MainWindow * ModelManager R) : MainWindow * ModelManager R :=
  let '(w, mgr) := st in
  let temp := IZR value in
  let value := int_of_double (IZR value - res_virtZ_ w) in
  let w := mkMainWindow (res_sdvigX_ w) (res_sdvigY_ w) (res_sdvigZ_ w)
             (res_virtX_ w) (res_virtY_ w) temp (res_scale_ w) (controller_ w) in
  if controller_ w then (w, RotateModel 0%R 0%R (IZR value) mgr) else (w, mgr).

(** ** Objects behind pointers

    [ModelManager] owns its [Model] through a raw pointer, and the OpenGL
    widget keeps a pointer to the vertex buffer of that model.  The objects
    ever allocated are numbered in the order of their allocation, and a
    pointer is the number of the object it was obtained from: storage that
    [new] reuses does not revive a pointer to a deleted object. *)

Definition pointer := nat.

Module Objects.
Section Store.
Context {F : Type}.

Record store := mkStore {
  object : pointer -> option (Model F);   (* [None]: not allocated, or deleted *)
  allocated : nat                         (* how many objects [new] has made *)
}.

Definition empty : store := mkStore (fun _ => None) 0.

(** [new Model()]. *)
Definition new (h : store) : store * pointer :=
  (mkStore (fun q => if Nat.eqb q (allocated h) then Some new_Model else object h q)
           (S (allocated h)),
   allocated h).

(** [delete p]; deleting the null pointer does nothing. *)
Definition delete (h : store) (p : option pointer) : store :=
  match p with
  | None => h
  | Some p => mkStore (fun q => if Nat.eqb q p then None else object h q) (allocated h)
  end.

(** The object [*p] after a member function has changed it into [m]. *)
Definition assign (h : store) (p : pointer) (m : Model F) : store :=
  mkStore (fun q => if Nat.eqb q p then Some m else object h q) (allocated h).

(** No object beyond those allocated. *)
Definition well_formed (h : store) : Prop :=
  forall q, (allocated h <= q)%nat -> object h q = None.
End Store.
Arguments store : clear implicits.
End Objects.

(** ** The OpenGL widget *)

Module GLWidget.
(** The two data members [setModelData] sets: a pointer to the vertex
    buffer of a model, and a copy of its edges. *)
Record t := mk {
  vertices_ : option pointer;            (* nullptr is None *)
  edges_ : list (N * N)
}.
End GLWidget.

(** [GLWidget::setModelData]. *)
Definition setModelData (vertices : option pointer) (edges : list (N * N))
    (w : GLWidget.t) : GLWidget.t :=
  GLWidget.mk vertices edges.

(** The calls [drawLines] makes to OpenGL. *)
Inductive gl_call (F : Type) :=
| glEnable_GL_LINE_STIPPLE
| glDisable_GL_LINE_STIPPLE
| glLineStipple (factor : Z) (pattern : N)
| glLineWidth (width : F)
| glColor3f (red green blue : F)
| glBegin_GL_LINES
| glVertex3f (x y z : F)
| glEnd.
Arguments glEnable_GL_LINE_STIPPLE {F}.
Arguments glDisable_GL_LINE_STIPPLE {F}.
Arguments glLineStipple {F} _ _.
Arguments glLineWidth {F} _.
Arguments glColor3f {F} _ _ _.
Arguments glBegin_GL_LINES {F}.
Arguments glVertex3f {F} _ _ _.
Arguments glEnd {F}.

(** The values [drawLines] reads from the settings. *)
Record line_settings (F : Type) := mkLineSettings {
  dotted_facets_ : bool;
  facets_size_ : F;
  facets_red_ : F;
  facets_green_ : F;
  facets_blue_ : F
}.
Arguments dotted_facets_ {F} _.
Arguments facets_size_ {F} _.
Arguments facets_red_ {F} _.
Arguments facets_green_ {F} _.
Arguments facets_blue_ {F} _.

Section DrawLines.
Context {F : Type}.

(** What [drawLines] does before it looks at the data. *)
Definition line_style (settings : line_settings F) : list (gl_call F) :=
  ((if dotted_facets_ settings
    then [glEnable_GL_LINE_STIPPLE; glLineStipple 2 255]
    else [glDisable_GL_LINE_STIPPLE])
   ++ [glLineWidth (facets_size_ settings);
       glColor3f (facets_red_ settings) (facets_green_ settings)
         (facets_blue_ settings)])%list.

(** [operator[]] of the vertex buffer: undefined ([None]) out of range. *)
Definition subscript (vertices : list (Vertex F)) (i : N) : option (Vertex F) :=
  nth_error vertices (N.to_nat i).

(** The loop over the edges: [None] when it reads outside the buffer. *)
Fixpoint draw_edges (vertices : list (Vertex F)) (edges : list (N * N))
    : option (list (gl_call F)) :=
  match edges with
  | [] => Some []
  | edge :: rest =>
      if (size vertices <=? fst edge) || (size vertices <=? snd edge)
      then draw_edges vertices rest
      else
        match subscript vertices (fst edge), subscript vertices (snd edge),
              draw_edges vertices rest with
        | Some v1, Some v2, Some calls =>
            Some (glVertex3f (x v1) (y v1) (z v1)
                    :: glVertex3f (x v2) (y v2) (z v2) :: calls)
        | _, _, _ => None
        end
  end.

(** [GLWidget::drawLines]: the calls it makes, [None] when it reads a
    deleted object or outside the buffer. *)
Definition drawLines (settings : line_settings F) (h : Objects.store F)
    (w : GLWidget.t) : option (list (gl_call F)) :=
  match GLWidget.vertices_ w with
  | None => Some (line_style settings)
  | Some p =>
      match GLWidget.edges_ w with
      | [] => Some (line_style settings)
      | _ :: _ =>
          match Objects.object h p with
          | None => None
          | Some model =>
              match vertices_ model with
              | [] => Some (line_style settings)
              | _ :: _ =>
                  match draw_edges (vertices_ model) (GLWidget.edges_ w) with
                  | Some calls =>
                      Some (line_style settings
                              ++ glBegin_GL_LINES :: calls ++ [glEnd])%list
                  | None => None
                  end
              end
          end
      end
  end.

(** The two calls that draw one edge. *)
Definition segment (vertices : list (Vertex F)) (d : Vertex F) (edge : N * N)
    : list (gl_call F) :=
  let v1 := nth (N.to_nat (fst edge)) vertices d in
  let v2 := nth (N.to_nat (snd edge)) vertices d in
  [glVertex3f (x v1) (y v1) (z v1); glVertex3f (x v2) (y v2) (z v2)].
End DrawLines.

(** ** The program: the singleton manager, its model, and the widget *)

Module Process.
Record t (F : Type) := mk {
  heap : Objects.store F;
  current_model_ : option pointer;      (* of [ModelManager::GetInstance()] *)
  glWidget : GLWidget.t
}.
Arguments mk {F} _ _ _.
Arguments heap {F} _.
Arguments current_model_ {F} _.
Arguments glWidget {F} _.
End Process.

Section Process.
Context {F : Type} `{FloatOps F}.
Variable strtof : string -> option (F * string).

(** The manager as the rest of this file has it: the model it points to. *)
Definition manager_of (s : Process.t F) : ModelManager F :=
  mkModelManager
    match Process.current_model_ s with
    | Some p => Objects.object (Process.heap s) p
    | None => None
    end.

(** [ModelManager::LoadModel], with its [delete] and its [new]. *)
Definition LoadModel_new (fs : filesystem) (s : Process.t F) (path : string)
    : bool * Process.t F :=
  let h := Objects.delete (Process.heap s) (Process.current_model_ s) in
  let '(h, p) := Objects.new h in
  let '(flag, m) := LoadFromFile strtof fs new_Model path in
  let m := if flag then NormalizeModel m else m in
  (flag, Process.mk (Objects.assign h p m) (Some p) (Process.glWidget s)).

(** [MainWindow::onLoadButtonClicked], [filePath] being what the file
    dialog returned. *)
Definition onLoadButtonClicked (fs : filesystem) (filePath : string)
    (s : Process.t F) : Process.t F :=
  match filePath with
  | EmptyString => s
  | String _ _ =>
      let '(ok, s) := LoadModel_new fs s filePath in
      if ok then
        match Process.current_model_ s with
        | Some p =>
            match Objects.object (Process.heap s) p with
            | Some model =>
                Process.mk (Process.heap s) (Process.current_model_ s)
                  (setModelData (Some p) (GetEdges model) (Process.glWidget s))
            | None => s
            end
        | None => s
        end
      else s
  end.

(** A transform command run on the model the manager points to: the object
    is changed in place. *)
Definition Execute_in_place {C : Type} `{Command F C} (cmd : C) (s : Process.t F)
    : Process.t F :=
  match Process.current_model_ s, current_model_ (Execute cmd (manager_of s)) with
  | Some p, Some model =>
      Process.mk (Objects.assign (Process.heap s) p model)
        (Process.current_model_ s) (Process.glWidget s)
  | _, _ => s
  end.

(** The widget shows the model of the manager: the manager points to a
    live model, and the widget, once it has been given data, holds a pointer
    to that model and its edges. *)
Definition shows_current_model (s : Process.t F) : Prop :=
  Objects.well_formed (Process.heap s) /\
  match Process.current_model_ s with
  | None => GLWidget.vertices_ (Process.glWidget s) = None
  | Some p =>
      exists model,
        Objects.object (Process.heap s) p = Some model /\
        (GLWidget.vertices_ (Process.glWidget s) = None \/
         GLWidget.vertices_ (Process.glWidget s) = Some p /\
         GLWidget.edges_ (Process.glWidget s) = GetEdges model)
  end.

(** The widget holds a pointer to a deleted object. *)
Definition dangling (s : Process.t F) : Prop :=
  exists p, GLWidget.vertices_ (Process.glWidget s) = Some p /\
            (p < Objects.allocated (Process.heap s))%nat /\
            Objects.object (Process.heap s) p = None.

(** The program when the window opens. *)
Definition initial : Process.t F :=
  Process.mk Objects.empty None (GLWidget.mk None []).
End Process.

(** A triangle, and solid lines of width 1. *)
Definition triangle : Model decimal :=
  set_polygons three_vertices [mkPolygon [0; 1; 2]].

Definition solid_lines : line_settings decimal :=
  mkLineSettings false (mkDecimal false 1 0) (mkDecimal false 0 0)
    (mkDecimal false 0 0) (mkDecimal false 0 0).

(** The program after the triangle has been loaded and handed to the
    widget. *)
Definition showing_triangle : Process.t decimal :=
  Process.mk (Objects.assign (fst (Objects.new Objects.empty)) 0%nat triangle)
    (Some 0%nat) (GLWidget.mk (Some 0%nat) (GetEdges triangle)).

(** The same over the real numbers, for the handlers that need the
    arithmetic. *)
Definition triangle_R : Model R :=
  mkModel "triangle.obj"
    [mkVertex 0 0 0; mkVertex 1 0 0; mkVertex 0 1 0]%R
    [mkPolygon [0; 1; 2]] kSuccess "".

Definition showing_triangle_R : Process.t R :=
  Process.mk (Objects.assign (fst (Objects.new Objects.empty)) 0%nat triangle_R)
    (Some 0%nat) (GLWidget.mk (Some 0%nat) (GetEdges triangle_R)).

(** Unfolds the operations of the real instance. *)
Ltac to_R :=
  cbn [fadd fsub fmul fdiv fsqrt fabs fcos fsin fltb fleb feqb of_int
       lit_0_0 lit_0_5 lit_1_0 lit_1e_6 deg_to_rad R_FloatOps] in *.

(** * Properties *)

(** ** Validity of a polygon *)

Lemma size_app_one {A : Type} (l : list A) (a : A) : size (l ++ [a]) = size l + 1.
Proof. unfold size. rewrite length_app. simpl. lia. Qed.

Lemma Polygon_IsValid_loop_mono (n n' : N) (idxs u : list N) :
  n <= n' ->
  Polygon_IsValid_loop n idxs u <> None ->
  Polygon_IsValid_loop n' idxs u = Polygon_IsValid_loop n idxs u.
Proof.
  intros Hle. revert u.
  induction idxs as [|idx rest IH]; intros u Hsome; simpl in *; [reflexivity|].
  destruct (n <=? idx) eqn:E; [congruence|].
  apply N.leb_gt in E.
  assert (E' : (n' <=? idx) = false \/ (n' <=? idx) = true)
    by (destruct (n' <=? idx); auto).
  destruct E' as [E'|E'].
  - rewrite E'. apply IH. exact Hsome.
  - (* the larger bound cannot reject what the smaller one accepts *)
    apply N.leb_le in E'. lia.
Qed.

(** A polygon valid against [n] vertices stays valid when vertices are
    added. *)
Lemma Polygon_IsValid_mono (p : Polygon) (n n' : N) :
  n <= n' -> Polygon_IsValid p n = true -> Polygon_IsValid p n' = true.
Proof.
  unfold Polygon_IsValid. intros Hle.
  destruct (size (vertex_indices p) <? 3); [discriminate|].
  destruct (Polygon_IsValid_loop n (vertex_indices p) []) eqn:E; [|discriminate].
  rewrite (@Polygon_IsValid_loop_mono n n' _ _ Hle) by congruence.
  rewrite E. trivial.
Qed.

(** A valid polygon needs at least one vertex to refer to. *)
Lemma Polygon_IsValid_pos (p : Polygon) (n : N) :
  Polygon_IsValid p n = true -> 0 < n.
Proof.
  unfold Polygon_IsValid.
  destruct (vertex_indices p) as [|idx rest]; [discriminate|].
  destruct (size (idx :: rest) <? 3); [discriminate|].
  simpl. destruct (n <=? idx) eqn:E; [discriminate|].
  apply N.leb_gt in E. lia.
Qed.

(** ** What one line does to the buffers *)

Section LoadInvariant.
Context {F : Type}.
Variable strtof : string -> option (F * string).

Lemma ParseVertex_cases (line : string) (m : Model F) :
  (exists v, ParseVertex strtof line m
             = (Returned true, set_vertices m (vertices_ m ++ [v]))) \/
  ParseVertex strtof line m = (Thrown "Invalid vertex format", m).
Proof.
  unfold ParseVertex.
  destruct (Libc.sscanf_v_fff strtof (Text.c_str line)); auto.
  left. eexists. reflexivity.
Qed.

Lemma ParsePolygon_cases (line : string) (m : Model F) :
  (exists p, Polygon_IsValid p (size (vertices_ m)) = true /\
             ParsePolygon line m
             = (Returned true, set_polygons m (polygons_ m ++ [p]))) \/
  ParsePolygon line m = (Returned false, m) \/
  (exists what, ParsePolygon line m = (Thrown what, m)).
Proof.
  unfold ParsePolygon, bind, get. simpl.
  destruct (read_indices _ _ _) as [idxs|what].
  - destruct (Polygon_IsValid (mkPolygon idxs) (size (vertices_ m))) eqn:E.
    + left. exists (mkPolygon idxs). split; [exact E|reflexivity].
    + right. left. reflexivity.
  - right. right. exists what. reflexivity.
Qed.

Lemma load_line_effect (line_num : N) (line : string) (st : bool * Model F) :
  line_effect st (load_line strtof line_num line st).
Proof.
  destruct st as [hvd m]. unfold load_line.
  assert (Hskip : line_effect (hvd, m) (hvd, m)) by (now apply effect_none).
  destruct (Text.ltrim line) as [|c l] eqn:El; [exact Hskip|].
  set (attempt := if Text.starts_with (String c l) "v " then _ else _).
  assert (Hatt : line_effect (hvd, m)
            match attempt m with
            | (Returned true, m') => (true, m')
            | (Returned false, m') => (hvd, m')
            | (Thrown what, m') =>
                (hvd, SetError m' kInvalidData
                        ("Error at line " ++ Text.to_string line_num ++ ": " ++ what))
            end).
  { subst attempt.
    destruct (Text.starts_with (String c l) "v ").
    - destruct (ParseVertex_cases (String c l) m) as [[v ->] | ->].
      + eapply effect_vertex; reflexivity.
      + now apply effect_none.
    - destruct (Text.starts_with (String c l) "f ").
      + destruct (ParsePolygon_cases (String c l) m)
          as [[p [Hp ->]] | [-> | [what ->]]].
        * eapply effect_polygon; [reflexivity|reflexivity|exact Hp].
        * exact Hskip.
        * now apply effect_none.
      + exact Hskip. }
  destruct c as [[] [] [] [] [] [] [] []]; try exact Hatt; exact Hskip.
Qed.

Lemma line_effect_invariant (st st' : bool * Model F) :
  line_effect st st' -> load_invariant st -> load_invariant st'.
Proof.
  intros Heff. destruct Heff as [hvd m m' v Hv Hp | hvd m m' p Hv Hp Hvalid
                                | hvd m m' Hv Hp];
    unfold load_invariant; intros [Hall [Hne Hempty]]; rewrite Hv, Hp.
  - split; [|split].
    + rewrite forallb_forall in *. intros poly Hin.
      apply Polygon_IsValid_mono with (n := size (vertices_ m)).
      * rewrite size_app_one. lia.
      * now apply Hall.
    + intros _. now destruct (vertices_ m).
    + discriminate.
  - split; [|split].
    + rewrite forallb_app, Hall. simpl. now rewrite Hvalid.
    + intros _ Hnil. apply Polygon_IsValid_pos in Hvalid.
      rewrite Hnil in Hvalid. unfold size in Hvalid. simpl in Hvalid. lia.
    + discriminate.
  - auto.
Qed.

Lemma load_lines_invariant (lines : list string) (line_num : N)
    (st : bool * Model F) :
  load_invariant st -> load_invariant (load_lines strtof lines line_num st).
Proof.
  revert line_num st.
  induction lines as [|line rest IH]; intros line_num st Hinv; simpl; [exact Hinv|].
  apply IH. eapply line_effect_invariant; [apply load_line_effect|exact Hinv].
Qed.

Lemma cleared_invariant (m0 : Model F) (path : string) :
  load_invariant (false, cleared m0 path).
Proof. simpl. repeat split; discriminate. Qed.

Lemma invariant_IsValid (m : Model F) :
  load_invariant (true, m) -> IsValid m = true.
Proof.
  intros [Hall [Hne _]]. unfold IsValid.
  destruct (vertices_ m) eqn:E; [now elim Hne|exact Hall].
Qed.
End LoadInvariant.

(** ** Loading *)

Lemma LoadFromFile_unfold {F : Type} (strtof : string -> option (F * string))
    (fs : filesystem) (m0 : Model F) (path : string) :
  LoadFromFile strtof fs m0 path =
  match fs path with
  | None =>
      (false,
       set_path_file
         (SetError (cleared m0 path) kFileOpenError ("Failed to open file: " ++ path))
         ("Failed to open file: " ++ path))
  | Some content =>
      let st := load_lines strtof (Text.getlines content) 0 (false, cleared m0 path) in
      if negb (fst st)
      then (false, SetError (snd st) kNoValidData "No valid data found in file")
      else if negb (IsValid (snd st))
      then (false, SetError (snd st) kInvalidData "Loaded data is invalid")
      else (true, snd st)
  end.
Proof.
  unfold LoadFromFile, cleared. destruct (fs path); [|reflexivity].
  simpl. now destruct (load_lines _ _ _ _).
Qed.

Lemma LoadFromFile_failure_empty {F : Type} (strtof : string -> option (F * string))
    (fs : filesystem) (m0 : Model F) (path : string) :
  fst (LoadFromFile strtof fs m0 path) = false ->
  vertices_ (snd (LoadFromFile strtof fs m0 path)) = [] /\
  polygons_ (snd (LoadFromFile strtof fs m0 path)) = [].
Proof.
  rewrite LoadFromFile_unfold.
  destruct (fs path) as [content|]; [|simpl; auto].
  pose proof (@load_lines_invariant F strtof (Text.getlines content) 0 _
                (cleared_invariant m0 path)) as Hinv.
  cbv zeta. destruct (load_lines _ _ _ _) as [hvd m].
  destruct hvd; simpl.
  - rewrite (invariant_IsValid Hinv). simpl. discriminate.
  - intros _. destruct Hinv as [_ [_ Hempty]].
    destruct (Hempty eq_refl) as [Hv Hp]. auto.
Qed.

(** C1. Whenever [LoadFromFile] returns false, whatever the error code, the
    vertex buffer and the polygon buffer of the model are empty afterwards,
    so [GetVertexCount() == 0]; the same holds of the model that the manager
    holds after a failed [LoadModel] or [LoadModelForTest]. *)
Theorem LoadFromFile_failure_leaves_buffers_empty :
  forall (F : Type) (strtof : string -> option (F * string))
         (fs : filesystem) (path : string),
    (forall m0 : Model F,
        fst (LoadFromFile strtof fs m0 path) = false ->
        vertices_ (snd (LoadFromFile strtof fs m0 path)) = [] /\
        polygons_ (snd (LoadFromFile strtof fs m0 path)) = [] /\
        GetVertexCount (snd (LoadFromFile strtof fs m0 path)) = 0) /\
    (forall (O : FloatOps F)
            (load : filesystem -> ModelManager F -> string -> bool * ModelManager F)
            (mgr : ModelManager F),
        load = LoadModel strtof \/ load = LoadModelForTest strtof ->
        fst (load fs mgr path) = false ->
        exists m, GetModel (snd (load fs mgr path)) = Some m /\
                  vertices_ m = [] /\ polygons_ m = [] /\ GetVertexCount m = 0).
Proof.
  intros F strtof fs path. split.
  - intros m0 Hfail.
    destruct (LoadFromFile_failure_empty strtof fs m0 path Hfail) as [Hv Hp].
    unfold GetVertexCount. rewrite Hv, Hp. auto.
  - intros O load mgr Hload.
    pose proof (LoadFromFile_failure_empty strtof fs new_Model path) as Hempty.
    destruct Hload as [-> | ->]; unfold LoadModel, LoadModelForTest;
      destruct (LoadFromFile strtof fs new_Model path) as [flag m];
      simpl in *; intros ->; exists m;
      destruct (Hempty eq_refl) as [Hv Hp];
      unfold GetVertexCount; rewrite Hv, Hp; auto.
Qed.

Lemma LoadFromFile_failure_leaves_buffers_empty_witness :
  fst (LoadFromFile Decimal.strtof test_files new_Model "invalid_test.obj") = false /\
  vertices_ (snd (LoadFromFile Decimal.strtof test_files new_Model "invalid_test.obj")) = [] /\
  polygons_ (snd (LoadFromFile Decimal.strtof test_files new_Model "invalid_test.obj")) = [] /\
  GetVertexCount (snd (LoadFromFile Decimal.strtof test_files new_Model "invalid_test.obj")) = 0.
Proof.
  split; [reflexivity|].
  apply (proj1 (@LoadFromFile_failure_leaves_buffers_empty decimal
                  Decimal.strtof test_files "invalid_test.obj")).
  reflexivity.
Defined.

(** C6. A load that reaches the final [IsValid] check passes it.  Line by
    line: a polygon is inserted only if it is valid against the vertices
    read so far, which then are not empty, and the number of vertices never
    decreases.  Hence, once the file is open and at least one vertex or
    polygon was accepted, [IsValid] holds and [LoadFromFile] returns true;
    a failed load never ends with the code [kInvalidData] of the branch that
    follows the check. *)
Theorem LoadFromFile_final_check_passes :
  forall (F : Type) (strtof : string -> option (F * string)),
    (forall (line_num : N) (line : string) (has_valid_data : bool) (m : Model F),
        let m' := snd (load_line strtof line_num line (has_valid_data, m)) in
        size (vertices_ m) <= size (vertices_ m') /\
        (polygons_ m' = polygons_ m \/
         exists p, polygons_ m' = (polygons_ m ++ [p])%list /\
                   Polygon_IsValid p (size (vertices_ m)) = true /\
                   vertices_ m <> [])) /\
    (forall (fs : filesystem) (m0 : Model F) (path content : string),
        fs path = Some content ->
        let st := load_lines strtof (Text.getlines content) 0
                    (false, cleared m0 path) in
        fst st = true ->
        IsValid (snd st) = true /\
        LoadFromFile strtof fs m0 path = (true, snd st)) /\
    (forall (fs : filesystem) (m0 : Model F) (path : string),
        fst (LoadFromFile strtof fs m0 path) = false ->
        last_error_ (snd (LoadFromFile strtof fs m0 path)) = kFileOpenError \/
        last_error_ (snd (LoadFromFile strtof fs m0 path)) = kNoValidData).
Proof.
  intros F strtof. split; [|split].
  - intros line_num line hvd m.
    pose proof (load_line_effect strtof line_num line (hvd, m)) as Heff.
    cbv zeta. destruct (load_line _ _ _ _) as [hvd' m']. simpl.
    inversion Heff as [? ? ? v Hv Hp | ? ? ? p Hv Hp Hvalid | ? ? ? Hv Hp]; subst.
    + rewrite Hv, size_app_one. split; [lia|now left].
    + rewrite Hv. split; [lia|]. right. exists p. repeat split; trivial.
      intros Hnil. apply Polygon_IsValid_pos in Hvalid.
      rewrite Hnil in Hvalid. unfold size in Hvalid. simpl in Hvalid. lia.
    + rewrite Hv. split; [lia|now left].
  - intros fs m0 path content Hopen st Hvalid_data.
    pose proof (@load_lines_invariant F strtof (Text.getlines content) 0 _
                  (cleared_invariant m0 path)) as Hinv.
    fold st in Hinv. rewrite LoadFromFile_unfold, Hopen. fold st.
    destruct st as [hvd m]. simpl in *. subst hvd.
    rewrite (invariant_IsValid Hinv). auto.
  - intros fs m0 path. rewrite LoadFromFile_unfold.
    destruct (fs path) as [content|]; [|simpl; auto].
    pose proof (@load_lines_invariant F strtof (Text.getlines content) 0 _
                  (cleared_invariant m0 path)) as Hinv.
    cbv zeta. destruct (load_lines _ _ _ _) as [hvd m].
    destruct hvd; simpl.
    + rewrite (invariant_IsValid Hinv). simpl. discriminate.
    + auto.
Qed.

Lemma LoadFromFile_final_check_passes_witness :
  LoadFromFile Decimal.strtof test_files new_Model "comments_test.obj"
  = (true,
     mkModel "comments_test.obj"
       [mkVertex (mkDecimal false 10 (-1)) (mkDecimal false 20 (-1))
                 (mkDecimal false 30 (-1))]
       [] kSuccess "").
Proof.
  refine (proj2 (proj1 (proj2 (@LoadFromFile_final_check_passes decimal Decimal.strtof))
                   test_files new_Model "comments_test.obj" _ eq_refl eq_refl)).
Defined.

(** The loads of the model tests ([LoadValidFile], [LoadInvalidFile],
    [LoadEmptyFile], [LoadNonexistentFile], [ErrorHandling]). *)
Example test_LoadValidFile :
  let '(flag, m) := LoadFromFile Decimal.strtof test_files new_Model "valid_test.obj" in
  flag = true /\ GetVertexCount m = 3 /\
  GetPolygons m = [mkPolygon [0; 1; 2]] /\ GetLastError m = kSuccess.
Proof. vm_compute. repeat split. Qed.

Example test_LoadInvalidFile :
  LoadFromFile Decimal.strtof test_files new_Model "invalid_test.obj"
  = (false,
     mkModel "invalid_test.obj" [] [] kNoValidData "No valid data found in file").
Proof. vm_compute. reflexivity. Qed.

Example test_LoadEmptyFile :
  LoadFromFile Decimal.strtof test_files new_Model "empty_test.obj"
  = (false,
     mkModel "empty_test.obj" [] [] kNoValidData "No valid data found in file").
Proof. vm_compute. reflexivity. Qed.

Example test_LoadNonexistentFile :
  LoadFromFile Decimal.strtof test_files new_Model "nonexistent_file.obj"
  = (false,
     mkModel "Failed to open file: nonexistent_file.obj" [] [] kFileOpenError
       "Failed to open file: nonexistent_file.obj").
Proof. vm_compute. reflexivity. Qed.

(** ** Face records *)

Lemma read_indices_accepts (vertex_count : N) (tokens : list string) (p : list N) :
  forallb (fun t => negb (rejected_index vertex_count t)) tokens = true ->
  read_indices vertex_count tokens p
  = Returned (p ++ map index_of_token tokens)%list.
Proof.
  revert p. induction tokens as [|t rest IH]; intros p Hall; simpl.
  - now rewrite app_nil_r.
  - simpl in Hall. apply andb_true_iff in Hall. destruct Hall as [Ht Hrest].
    unfold rejected_index in Ht. unfold index_of_token at 1.
    destruct (Libc.stoul (Text.before_slash t)); try discriminate.
    apply negb_true_iff in Ht. rewrite Ht.
    rewrite IH by exact Hrest. now rewrite <- app_assoc.
Qed.

Lemma read_indices_rejects (vertex_count : N) (tokens : list string) (p : list N) :
  existsb (rejected_index vertex_count) tokens = true ->
  exists token, In token tokens /\
    rejected_index vertex_count token = true /\
    read_indices vertex_count tokens p
    = Thrown ("Invalid face index: " ++ Text.before_slash token).
Proof.
  revert p. induction tokens as [|t rest IH]; intros p Hex; simpl in *;
    [discriminate|].
  destruct (rejected_index vertex_count t) eqn:Et.
  - exists t. split; [now left|]. split; [exact Et|].
    unfold rejected_index in Et.
    destruct (Libc.stoul (Text.before_slash t)); try reflexivity.
    now rewrite Et.
  - simpl in Hex. destruct (IH (p ++ [index_of_token t])%list Hex)
      as [token [Hin [Hrej Hthrown]]].
    exists token. split; [now right|]. split; [exact Hrej|].
    unfold rejected_index in Et. unfold index_of_token in Hthrown.
    destruct (Libc.stoul (Text.before_slash t)); try discriminate.
    now rewrite Et.
Qed.

(** What holds of [ParsePolygon] for every line: one rejected token makes
    the whole line throw "Invalid face index: ..." and leaves the model as
    it was; otherwise the polygon built holds, in order, the value of
    every token less one. *)
Lemma ParsePolygon_indices {F : Type} (line : string) (m : Model F) :
  let tokens := Text.words (Text.substr_from 2 line) in
  let n := size (vertices_ m) in
  (existsb (rejected_index n) tokens = true ->
   exists token, In token tokens /\ rejected_index n token = true /\
     ParsePolygon line m
     = (Thrown ("Invalid face index: " ++ Text.before_slash token), m)) /\
  (existsb (rejected_index n) tokens = false ->
   let p := mkPolygon (map index_of_token tokens) in
   ParsePolygon line m
   = if Polygon_IsValid p n
     then (Returned true, set_polygons m (polygons_ m ++ [p]))
     else (Returned false, m)).
Proof.
  cbv zeta. unfold ParsePolygon, bind, get.
  set (tokens := Text.words (Text.substr_from 2 line)).
  set (n := size (vertices_ m)).
  split; intros Hex.
  - destruct (read_indices_rejects _ _ [] Hex) as [token [Hin [Hrej ->]]].
    exists token. auto.
  - rewrite read_indices_accepts.
    + cbn [app]. now destruct (Polygon_IsValid _ _).
    + apply forallb_forall. intros t Hin.
      apply negb_true_iff.
      destruct (rejected_index n t) eqn:Et; [|reflexivity].
      assert (Hyes : existsb (rejected_index n) tokens = true)
        by (apply existsb_exists; eauto).
      rewrite Hyes in Hex. discriminate.
Qed.

(** Zero, and every value above the current vertex count, is rejected. *)
Lemma rejected_index_zero_or_above (vertex_count : N) (token : string) (idx : N) :
  Libc.stoul (Text.before_slash token) = Libc.stoul_value idx ->
  idx = 0 \/ vertex_count < idx ->
  rejected_index vertex_count token = true.
Proof.
  intros Hs Hbad. unfold rejected_index. rewrite Hs.
  apply orb_true_iff. destruct Hbad as [-> | Hgt]; [now left|right].
  now apply N.ltb_lt.
Qed.

Lemma stoul_minus (digits rest : string) (mag : N) (cnt : nat) :
  Libc.scan_digits 0 0 digits = (mag, S cnt, rest) ->
  mag <= Libc.ULONG_MAX ->
  Libc.stoul (String "-" digits) = Libc.stoul_value ((2 ^ 64 - mag) mod 2 ^ 64).
Proof.
  intros Hd Hle. unfold Libc.stoul.
  change (Text.ltrim (String "-" digits)) with (String "-" digits).
  cbv iota beta. rewrite Hd.
  apply N.ltb_ge in Hle. now rewrite Hle.
Qed.

(** The negative tokens that are rejected: those of a magnitude up to
    2^64 - 1 - (number of vertices), -1 among them. *)
Lemma rejected_index_negative (vertex_count mag : N) (token digits rest : string)
    (cnt : nat) :
  Text.before_slash token = String "-" digits ->
  Libc.scan_digits 0 0 digits = (mag, S cnt, rest) ->
  0 < mag -> mag + vertex_count < 2 ^ 64 ->
  rejected_index vertex_count token = true.
Proof.
  intros Ht Hd Hpos Hsmall. unfold rejected_index. rewrite Ht.
  assert (H64 : 2 ^ 64 = 18446744073709551616) by reflexivity.
  rewrite (stoul_minus _ Hd) by (unfold Libc.ULONG_MAX; lia).
  rewrite N.mod_small by lia.
  apply orb_true_iff. right. apply N.ltb_lt. lia.
Qed.

(** C4, on the code: a face token that is a negative number is not always
    rejected.  [std::stoul] negates the magnitude in [unsigned long], so
    -18446744073709551615 converts to 1, passes the range test and becomes
    the 0-based index 0: the line yields the polygon (0, 1, 2) and no error
    is recorded, while the ordinary negative token of the test suite, -1, is
    rejected. *)
Theorem ParsePolygon_wrapped_negative_index :
  Libc.stoul "-18446744073709551615" = Libc.stoul_value 1 /\
  ParsePolygon "f -18446744073709551615 2 3" three_vertices
  = (Returned true,
     set_polygons three_vertices [mkPolygon [0; 1; 2]]) /\
  load_line Decimal.strtof 4 "f -18446744073709551615 2 3" (false, three_vertices)
  = (true, set_polygons three_vertices [mkPolygon [0; 1; 2]]) /\
  ParsePolygon "f -1 2 3" three_vertices
  = (Thrown "Invalid face index: -1", three_vertices).
Proof. repeat split; vm_compute; reflexivity. Qed.

(** ** Vertex records *)

Lemma words_nil_ltrim (s : string) : Text.words s = [] -> Text.ltrim s = "".
Proof.
  induction s as [|c s IH]; simpl; [reflexivity|].
  destruct (Text.isspace c); [exact IH|].
  destruct s as [|c' s']; [discriminate|].
  destruct (Text.isspace c'); [discriminate|].
  destruct (Text.words (String c' s')); discriminate.
Qed.

(** The first token of a string and what follows it. *)
Lemma words_cons_ltrim (s t : string) (ts : list string) :
  Text.words s = t :: ts ->
  exists c0 t0 s', t = String c0 t0 /\ Text.ltrim s = t ++ s' /\
    Text.words s' = ts /\
    (s' = "" \/ exists c r, s' = String c r /\ Text.isspace c = true).
Proof.
  revert t ts. induction s as [|c s IH]; intros t ts; simpl; [discriminate|].
  destruct (Text.isspace c) eqn:Ec; [apply IH|].
  destruct s as [|c' s'].
  - intros [= <- <-]. exists c, "", "". simpl. auto.
  - destruct (Text.isspace c') eqn:Ec'.
    + intros [= <- <-]. exists c, "", (String c' s'). simpl.
      repeat split; trivial. right. eauto.
    + destruct (Text.words (String c' s')) as [|w ws] eqn:Ew.
      * apply words_nil_ltrim in Ew. simpl in Ew. rewrite Ec' in Ew. discriminate.
      * intros [= <- <-].
        destruct (IH w ws eq_refl) as [c0 [t0 [s'' [Hw [Hl [Hws Hs'']]]]]].
        simpl in Hl. rewrite Ec' in Hl.
        exists c, w, s''. simpl. rewrite Hl. auto.
Qed.

Section ScanTokens.
Context {F : Type}.
Variable strtof : string -> option (F * string).
Hypothesis strtof_space : space_terminates strtof.

Lemma scan_f_no_token (s : string) :
  Text.words s = [] -> Libc.scan_f strtof s = inl true.
Proof. intros Hw. unfold Libc.scan_f. now rewrite (words_nil_ltrim _ Hw). Qed.

Lemma scan_f_token (s t : string) (ts : list string) :
  Text.words s = t :: ts ->
  exists s', Text.words s' = ts /\
    Libc.scan_f strtof s =
    match strtof t with
    | Some (v, rest) => inr (v, rest ++ s')
    | None => inl false
    end.
Proof.
  intros Hw.
  destruct (words_cons_ltrim _ Hw) as [c0 [t0 [s' [-> [Hl [Hws Hs']]]]]].
  exists s'. split; [exact Hws|].
  unfold Libc.scan_f. rewrite Hl. simpl.
  change (String c0 (t0 ++ s')) with (String c0 t0 ++ s').
  destruct Hs' as [-> | [c [r [-> Hc]]]].
  - assert (Hnil : forall u : string, u ++ "" = u)
      by (induction u; simpl; congruence).
    rewrite Hnil. destruct (strtof (String c0 t0)) as [[v rest]|]; [|reflexivity].
    now rewrite Hnil.
  - rewrite (strtof_space (String c0 t0) c r Hc).
    now destruct (strtof (String c0 t0)) as [[v rest]|].
Qed.

(** A floating-point token at the head of the input is converted whole. *)
Lemma scan_f_float_token (s t : string) (ts : list string) (v : F) :
  Text.words s = t :: ts -> strtof t = Some (v, "") ->
  exists s', Text.words s' = ts /\ Libc.scan_f strtof s = inr (v, s').
Proof.
  intros Hw Ht. destruct (scan_f_token _ Hw) as [s' [Hws Hscan]].
  rewrite Ht in Hscan. exists s'. auto.
Qed.

(** No token, or a token without numeric prefix, at the head of the input:
    the directive fails. *)
Lemma scan_f_fails (s : string) :
  (Text.words s = [] \/
   exists t ts, Text.words s = t :: ts /\ strtof t = None) ->
  exists eof, Libc.scan_f strtof s = inl eof.
Proof.
  intros [Hw | [t [ts [Hw Ht]]]].
  - exists true. now apply scan_f_no_token.
  - destruct (scan_f_token _ Hw) as [s' [_ Hscan]].
    rewrite Ht in Hscan. eauto.
Qed.
End ScanTokens.

Lemma starts_with_v (line : string) :
  Text.starts_with line "v " = true ->
  exists rest, line = String "v" (String " " rest).
Proof.
  unfold Text.starts_with. intros H.
  destruct line as [|c1 line]; [discriminate|].
  cbn [String.prefix] in H.
  destruct (ascii_dec "v" c1) as [<-|]; [|discriminate].
  destruct line as [|c2 rest]; cbn [String.prefix] in H; [discriminate|].
  destruct (ascii_dec " " c2) as [<-|]; [|discriminate].
  eauto.
Qed.

Section VertexRecordLemmas.
Context {F : Type}.
Variable strtof : string -> option (F * string).
Hypothesis strtof_space : space_terminates strtof.

Lemma leading_floats_S (k : nat) (tokens : list string) (l : list F) :
  leading_floats strtof (S k) tokens = Some l ->
  exists t rest v l', tokens = t :: rest /\ strtof t = Some (v, "") /\
    leading_floats strtof k rest = Some l' /\ l = v :: l'.
Proof.
  simpl. destruct tokens as [|t rest]; [discriminate|].
  destruct (strtof t) as [[v [|c u]]|] eqn:Et; try discriminate.
  destruct (leading_floats strtof k rest) as [l'|] eqn:El; simpl; [|discriminate].
  intros [= <-]. exists t, rest, v, l'. auto.
Qed.

(** Three floating-point tokens at the head of the input: three
    conversions, whatever follows. *)
Lemma sscanf_three_floats (s0 : string) (a b c : F) :
  leading_floats strtof 3 (Text.words s0) = Some [a; b; c] ->
  Libc.sscanf_v_fff strtof (String "v" s0) = Libc.Scan3 a b c.
Proof.
  intros H3.
  destruct (leading_floats_S _ _ H3) as [ta [r1 [va [l1 [Hw1 [Ha [H2 E1]]]]]]].
  destruct (leading_floats_S _ _ H2) as [tb [r2 [vb [l2 [Hw2 [Hb [H1 E2]]]]]]].
  destruct (leading_floats_S _ _ H1) as [tc [r3 [vc [l3 [Hw3 [Hc [H0 E3]]]]]]].
  simpl in H0. assert (l3 = []) by congruence. subst l3 l2 l1.
  injection E1 as -> -> ->.
  destruct (scan_f_float_token strtof_space _ Hw1 Ha) as [s1 [Hs1 Hscan1]].
  rewrite Hw2 in Hs1.
  destruct (scan_f_float_token strtof_space _ Hs1 Hb) as [s2 [Hs2 Hscan2]].
  rewrite Hw3 in Hs2.
  destruct (scan_f_float_token strtof_space _ Hs2 Hc) as [s3 [Hs3 Hscan3]].
  unfold Libc.sscanf_v_fff. now rewrite Hscan1, Hscan2, Hscan3.
Qed.

(** Fewer than three conversions when, after [k < 3] floating-point tokens,
    the input ends or goes on with a token that has no numeric prefix. *)
Lemma sscanf_fewer_floats (s0 : string) (k : nat) :
  (k < 3)%nat ->
  leading_floats strtof k (Text.words s0) <> None ->
  (nth_error (Text.words s0) k = None \/
   exists t, nth_error (Text.words s0) k = Some t /\ strtof t = None) ->
  Libc.scan_count (Libc.sscanf_v_fff strtof (String "v" s0)) <> 3%Z.
Proof.
  assert (Hbad : forall s,
             (nth_error (Text.words s) 0 = None \/
              exists t, nth_error (Text.words s) 0 = Some t /\ strtof t = None) ->
             exists eof, Libc.scan_f strtof s = inl eof).
  { intros s Hs. apply scan_f_fails; [exact strtof_space|].
    destruct (Text.words s) as [|t ts]; [now left|right].
    destruct Hs as [Hs | [t' [[= <-] Ht']]]; [discriminate|eauto]. }
  assert (Hgood : forall s k' l,
             leading_floats strtof (S k') (Text.words s) = Some l ->
             exists v s' l', Libc.scan_f strtof s = inr (v, s') /\
               Text.words s = hd "" (Text.words s) :: Text.words s' /\
               leading_floats strtof k' (Text.words s') = Some l').
  { intros s k' l Hl.
    destruct (leading_floats_S _ _ Hl) as [t [r [v [l' [Hw [Ht [Hk' _]]]]]]].
    destruct (scan_f_float_token strtof_space _ Hw Ht) as [s' [Hs' Hscan]].
    exists v, s', l'. rewrite Hw, Hs'. auto. }
  intros Hk Hlead Hnext. unfold Libc.sscanf_v_fff.
  destruct (leading_floats strtof k (Text.words s0)) as [l|] eqn:El; [|congruence].
  destruct k as [|[|[|k]]]; [| | |lia].
  - destruct (Hbad s0 Hnext) as [eof ->]. now destruct eof.
  - destruct (Hgood _ _ _ El) as [v [s1 [l' [-> [Hw _]]]]].
    rewrite Hw in Hnext. simpl in Hnext.
    destruct (Hbad s1 Hnext) as [eof ->]. discriminate.
  - destruct (Hgood _ _ _ El) as [v [s1 [l' [-> [Hw El']]]]].
    destruct (Hgood _ _ _ El') as [v2 [s2 [l'' [-> [Hw2 _]]]]].
    rewrite Hw, Hw2 in Hnext. simpl in Hnext.
    destruct (Hbad s2 Hnext) as [eof ->]. discriminate.
Qed.
End VertexRecordLemmas.

(** ** The reference conversion stops at white space *)

Lemma isspace_not_numeric (c : ascii) :
  Text.isspace c = true ->
  Text.isdigit c = false /\
  Decimal.scan_sign (String c "") = (false, String c "") /\
  (forall ip, Decimal.scan_fraction ip (String c "") = (ip, O, String c "")) /\
  Decimal.scan_exponent (String c "") = (0%Z, String c "").
Proof.
  destruct c as [[] [] [] [] [] [] [] []]; vm_compute; intros H;
    try discriminate H; repeat split.
Qed.

Lemma scan_digits_app (s : string) (acc : N) (cnt : nat) (c : ascii) (r : string) :
  Text.isdigit c = false ->
  Libc.scan_digits acc cnt (s ++ String c r) =
  let '(a, n, s') := Libc.scan_digits acc cnt s in (a, n, s' ++ String c r).
Proof.
  intros Hc. revert acc cnt.
  induction s as [|a s IH]; intros acc cnt; simpl.
  - now rewrite Hc.
  - destruct (Text.isdigit a); [apply IH|reflexivity].
Qed.

Lemma scan_sign_app (s : string) (c : ascii) (r : string) :
  Text.isspace c = true ->
  Decimal.scan_sign (s ++ String c r) =
  let '(neg, s') := Decimal.scan_sign s in (neg, s' ++ String c r).
Proof.
  intros Hc. destruct s as [|a s]; simpl.
  - destruct c as [[] [] [] [] [] [] [] []]; try discriminate Hc; reflexivity.
  - destruct a as [[] [] [] [] [] [] [] []]; reflexivity.
Qed.

Lemma scan_fraction_app (s : string) (ip : N) (c : ascii) (r : string) :
  Text.isspace c = true ->
  Decimal.scan_fraction ip (s ++ String c r) =
  let '(a, n, s') := Decimal.scan_fraction ip s in (a, n, s' ++ String c r).
Proof.
  intros Hc. destruct (isspace_not_numeric c Hc) as [Hd _].
  destruct s as [|a s]; simpl.
  - destruct c as [[] [] [] [] [] [] [] []]; try discriminate Hc; reflexivity.
  - destruct a as [[] [] [] [] [] [] [] []]; try reflexivity.
    apply scan_digits_app. exact Hd.
Qed.

Lemma scan_exponent_app (s : string) (c : ascii) (r : string) :
  Text.isspace c = true ->
  Decimal.scan_exponent (s ++ String c r) =
  let '(e, s') := Decimal.scan_exponent s in (e, s' ++ String c r).
Proof.
  intros Hc. destruct (isspace_not_numeric c Hc) as [Hd _].
  destruct s as [|a s].
  - simpl. destruct c as [[] [] [] [] [] [] [] []]; try discriminate Hc; reflexivity.
  - change (String a s ++ String c r) with (String a (s ++ String c r)).
    unfold Decimal.scan_exponent.
    destruct ((N_of_ascii a =? 101) || (N_of_ascii a =? 69)); [|reflexivity].
    rewrite (scan_sign_app s c r Hc).
    destruct (Decimal.scan_sign s) as [eneg r1].
    rewrite (scan_digits_app r1 0 0 c r Hd).
    destruct (Libc.scan_digits 0 0 r1) as [[ev en] r2].
    now destruct en.
Qed.

Lemma Decimal_strtof_space : space_terminates Decimal.strtof.
Proof.
  intros t c r Hc. destruct (isspace_not_numeric c Hc) as [Hd _].
  unfold Decimal.strtof.
  rewrite (scan_sign_app t c r Hc).
  destruct (Decimal.scan_sign t) as [neg s1].
  rewrite (scan_digits_app s1 0 0 c r Hd).
  destruct (Libc.scan_digits 0 0 s1) as [[ip n1] s2].
  rewrite (scan_fraction_app s2 ip c r Hc).
  destruct (Decimal.scan_fraction ip s2) as [[mant n2] s3].
  destruct (n1 + n2)%nat; [reflexivity|].
  rewrite (scan_exponent_app s3 c r Hc).
  now destruct (Decimal.scan_exponent s3) as [e s4].
Qed.

(** C2, as stated, fails: a vertex line with a fourth token yields a vertex,
    although what follows the [v] is not exactly three floating-point
    tokens. *)
Lemma vertex_record_fourth_token_accepted :
  Text.starts_with "v 1 2 3 4" "v " = true /\
  three_float_tokens Decimal.strtof "v 1 2 3 4" = false /\
  yields_vertex Decimal.strtof "v 1 2 3 4" new_Model = true /\
  ParseVertex Decimal.strtof "v 1 2 3 4" new_Model
  = (Returned true,
     set_vertices new_Model
       [mkVertex (mkDecimal false 1 0) (mkDecimal false 2 0) (mkDecimal false 3 0)]).
Proof. repeat split; vm_compute; reflexivity. Qed.

(** C2, amended.  For a line that begins with [v ] (and holds no NUL), with
    any numeric conversion that stops at white space: the line yields a
    vertex exactly when [sscanf] performs its three conversions; it does so
    whenever what follows the [v] begins with three floating-point tokens
    separated by white space, whatever comes after them, and the vertex has
    their values; when fewer than three such tokens are followed by the end
    of the line or by a token without numeric prefix, the line is a
    line-local failure: [ParseVertex] throws "Invalid vertex format", the
    buffers are untouched and the loop records [kInvalidData] with the line
    number. *)
Theorem ParseVertex_vertex_record :
  forall (F : Type) (strtof : string -> option (F * string)),
    space_terminates strtof ->
    forall (line : string) (m : Model F),
      Text.starts_with line "v " = true ->
      Text.c_str line = line ->
      let tokens := Text.words (Text.substr_from 1 line) in
      (yields_vertex strtof line m = true <->
       Libc.scan_count (Libc.sscanf_v_fff strtof line) = 3%Z) /\
      (forall a b c : F,
          leading_floats strtof 3 tokens = Some [a; b; c] ->
          ParseVertex strtof line m
          = (Returned true, set_vertices m (vertices_ m ++ [mkVertex a b c]))) /\
      (forall k : nat,
          (k < 3)%nat ->
          leading_floats strtof k tokens <> None ->
          (nth_error tokens k = None \/
           exists t, nth_error tokens k = Some t /\ strtof t = None) ->
          ParseVertex strtof line m = (Thrown "Invalid vertex format", m) /\
          forall (line_num : N) (has_valid_data : bool),
            load_line strtof line_num line (has_valid_data, m)
            = (has_valid_data,
               SetError m kInvalidData
                 ("Error at line " ++ Text.to_string line_num
                    ++ ": Invalid vertex format"))).
Proof.
  intros F strtof Hspace line m Hv Hc tokens.
  destruct (starts_with_v _ Hv) as [rest Hline].
  assert (Htok : tokens = Text.words (String " " rest))
    by (unfold tokens; rewrite Hline; reflexivity).
  split; [|split].
  - unfold yields_vertex, ParseVertex. rewrite Hc.
    destruct (Libc.sscanf_v_fff strtof line); simpl;
      try (split; discriminate).
    rewrite size_app_one, N.eqb_refl. split; reflexivity.
  - intros a b c H3. rewrite Htok in H3.
    unfold ParseVertex. rewrite Hc, Hline.
    now rewrite (sscanf_three_floats Hspace _ H3).
  - intros k Hk Hlead Hnext. rewrite Htok in Hlead, Hnext.
    pose proof (sscanf_fewer_floats Hspace _ Hk Hlead Hnext) as Hcount.
    assert (Hthrow : ParseVertex strtof line m = (Thrown "Invalid vertex format", m)).
    { unfold ParseVertex. rewrite Hc, Hline.
      destruct (Libc.sscanf_v_fff strtof (String "v" (String " " rest)));
        try reflexivity.
      now elim Hcount. }
    split; [exact Hthrow|].
    intros line_num hvd. unfold load_line.
    replace (Text.ltrim line) with line by (rewrite Hline; reflexivity).
    rewrite Hv, Hthrow. rewrite Hline. reflexivity.
Qed.

Lemma ParseVertex_vertex_record_witness :
  ParseVertex Decimal.strtof "v 1.0 2.0 3.0 4.0" new_Model
  = (Returned true,
     set_vertices new_Model
       [mkVertex (mkDecimal false 10 (-1)) (mkDecimal false 20 (-1))
                 (mkDecimal false 30 (-1))]) /\
  ParseVertex Decimal.strtof "v 1.0 2.0" new_Model
  = (Thrown "Invalid vertex format", new_Model) /\
  ParseVertex Decimal.strtof "v abc def ghi" new_Model
  = (Thrown "Invalid vertex format", new_Model).
Proof.
  split; [|split].
  - exact (proj1 (proj2 (@ParseVertex_vertex_record decimal Decimal.strtof
                           Decimal_strtof_space "v 1.0 2.0 3.0 4.0" new_Model
                           eq_refl eq_refl))
             _ _ _ eq_refl).
  - refine (proj1 (proj2 (proj2 (@ParseVertex_vertex_record decimal Decimal.strtof
                                   Decimal_strtof_space "v 1.0 2.0" new_Model
                                   eq_refl eq_refl))
                     2%nat _ _ _)).
    + lia.
    + discriminate.
    + left. reflexivity.
  - refine (proj1 (proj2 (proj2 (@ParseVertex_vertex_record decimal Decimal.strtof
                                   Decimal_strtof_space "v abc def ghi" new_Model
                                   eq_refl eq_refl))
                     0%nat _ _ _)).
    + lia.
    + discriminate.
    + right. exists "abc". split; reflexivity.
Defined.

(** ** Sets as increasing lists *)

Section InsertLemmas.
Context {A : Type}.
Variable ltb : A -> A -> bool.
Hypothesis ltb_irrefl : forall a, ltb a a = false.
Hypothesis ltb_trans : forall a b c, ltb a b = true -> ltb b c = true -> ltb a c = true.
Hypothesis ltb_total : forall a b, ltb a b = false -> ltb b a = false -> a = b.

Lemma insert_In (x e : A) (s : list A) :
  In e (StdSet.insert ltb x s) <-> e = x \/ In e s.
Proof.
  induction s as [|y s IH]; simpl.
  - intuition congruence.
  - destruct (ltb x y) eqn:Exy; simpl.
    + intuition congruence.
    + destruct (ltb y x) eqn:Eyx; simpl.
      * rewrite IH. intuition congruence.
      * pose proof (ltb_total Exy Eyx). subst y. intuition congruence.
Qed.

Lemma insert_increasing (x : A) (s : list A) :
  increasing ltb s -> increasing ltb (StdSet.insert ltb x s).
Proof.
  unfold increasing. induction s as [|y s IH]; intros Hs; simpl.
  - repeat constructor.
  - inversion Hs as [|? ? Hs' Hall]; subst.
    destruct (ltb x y) eqn:Exy.
    + constructor; [exact Hs|]. constructor; [exact Exy|].
      rewrite Forall_forall in *. intros e He. eapply ltb_trans; eauto.
    + destruct (ltb y x) eqn:Eyx; [|exact Hs].
      constructor; [now apply IH|].
      rewrite Forall_forall in *. intros e He.
      apply insert_In in He. destruct He as [-> | He]; auto.
Qed.

Lemma increasing_NoDup (s : list A) : increasing ltb s -> NoDup s.
Proof.
  unfold increasing. induction 1 as [|y s Hs IH Hall]; constructor; [|exact IH].
  intros Hin. rewrite Forall_forall in Hall.
  specialize (Hall _ Hin). rewrite ltb_irrefl in Hall. discriminate.
Qed.
End InsertLemmas.

Lemma pair_ltb_spec (a b : N * N) :
  StdSet.pair_ltb a b = true <->
  fst a < fst b \/ (fst a = fst b /\ snd a < snd b).
Proof.
  unfold StdSet.pair_ltb. destruct a as [a1 a2], b as [b1 b2]. simpl.
  rewrite orb_true_iff, andb_true_iff, negb_true_iff, !N.ltb_lt, N.ltb_ge. lia.
Qed.

Lemma pair_ltb_false (a b : N * N) :
  StdSet.pair_ltb a b = false <->
  ~ (fst a < fst b \/ (fst a = fst b /\ snd a < snd b)).
Proof. rewrite <- pair_ltb_spec. now destruct (StdSet.pair_ltb a b). Qed.

Lemma pair_ltb_irrefl (a : N * N) : StdSet.pair_ltb a a = false.
Proof. apply pair_ltb_false. destruct a. simpl. lia. Qed.

Lemma pair_ltb_trans (a b c : N * N) :
  StdSet.pair_ltb a b = true -> StdSet.pair_ltb b c = true ->
  StdSet.pair_ltb a c = true.
Proof.
  rewrite !pair_ltb_spec. destruct a, b, c. simpl. lia.
Qed.

Lemma pair_ltb_total (a b : N * N) :
  StdSet.pair_ltb a b = false -> StdSet.pair_ltb b a = false -> a = b.
Proof.
  rewrite !pair_ltb_false. destruct a as [a1 a2], b as [b1 b2]. simpl.
  intros H1 H2. f_equal; lia.
Qed.

(** ** Edges *)

Lemma consecutive_pairs_length (l : list N) :
  List.length (consecutive_pairs l) = List.length l.
Proof.
  unfold consecutive_pairs. rewrite length_combine, length_app, length_firstn.
  destruct l as [|a l]; [reflexivity|].
  cbn [tl List.length]. lia.
Qed.

(** The pair the loop of [GetEdges] reads at position [i]. *)
Lemma consecutive_pairs_nth (l : list N) (i : nat) :
  (i < List.length l)%nat ->
  nth i (consecutive_pairs l) (0, 0)
  = (nth i l 0, nth (Nat.modulo (i + 1) (List.length l)) l 0).
Proof.
  intros Hi. unfold consecutive_pairs.
  rewrite combine_nth.
  2:{ rewrite length_app, length_firstn. destruct l; simpl in *; lia. }
  f_equal.
  destruct l as [|a l]; [simpl in Hi; lia|].
  simpl tl. simpl firstn. simpl List.length in *.
  destruct (Nat.eq_dec i (List.length l)) as [->|Hne].
  - rewrite app_nth2 by lia. rewrite Nat.sub_diag.
    replace (List.length l + 1)%nat with (S (List.length l)) by lia.
    rewrite Nat.Div0.mod_same. reflexivity.
  - rewrite app_nth1 by lia.
    rewrite Nat.mod_small by lia.
    replace (i + 1)%nat with (S i) by lia. reflexivity.
Qed.

Lemma poly_edges_fold (l : list N) (acc : list (N * N)) :
  poly_edges l acc = fold_left add_edge (consecutive_pairs l) acc.
Proof.
  unfold poly_edges.
  rewrite <- (consecutive_pairs_length l).
  assert (Hgen : forall (ps : list (N * N)) (f : list (N * N) -> nat -> list (N * N)),
             (forall a i, (i < List.length ps)%nat ->
                          f a i = add_edge a (nth i ps (0, 0))) ->
             fold_left f (seq 0 (List.length ps)) acc = fold_left add_edge ps acc).
  { intros ps. induction ps as [|pr ps IH] using rev_ind; intros f Hf; [reflexivity|].
    rewrite length_app. simpl List.length.
    replace (List.length ps + 1)%nat with (S (List.length ps)) by lia.
    rewrite seq_S, !fold_left_app. simpl.
    rewrite Hf by (rewrite length_app; simpl; lia).
    rewrite app_nth2 by lia. rewrite Nat.sub_diag. simpl. f_equal.
    apply IH. intros a i Hi. rewrite Hf by (rewrite length_app; simpl; lia).
    now rewrite app_nth1 by lia. }
  apply Hgen. intros a i Hi.
  rewrite consecutive_pairs_nth by (rewrite <- consecutive_pairs_length; exact Hi).
  rewrite consecutive_pairs_length. reflexivity.
Qed.

Lemma add_edge_unordered (acc : list (N * N)) (a b : N) :
  a <> b ->
  add_edge acc (a, b) = StdSet.insert StdSet.pair_ltb (unordered a b) acc.
Proof.
  intros Hab. unfold add_edge, unordered.
  destruct (a =? b) eqn:E; [apply N.eqb_eq in E; contradiction|].
  destruct (a <? b) eqn:El.
  - apply N.ltb_lt in El. now rewrite N.min_l, N.max_r by lia.
  - apply N.ltb_ge in El. now rewrite N.min_r, N.max_l by lia.
Qed.

Lemma add_edge_In (acc : list (N * N)) (pr e : N * N) :
  In e (add_edge acc pr) <->
  In e acc \/ (fst pr <> snd pr /\ e = unordered (fst pr) (snd pr)).
Proof.
  destruct pr as [a b]. cbn [fst snd].
  destruct (N.eq_dec a b) as [->|Hab].
  - unfold add_edge. rewrite N.eqb_refl. intuition congruence.
  - rewrite (add_edge_unordered acc Hab).
    rewrite (insert_In _ pair_ltb_total). intuition congruence.
Qed.

Lemma add_edge_increasing (acc : list (N * N)) (pr : N * N) :
  increasing StdSet.pair_ltb acc -> increasing StdSet.pair_ltb (add_edge acc pr).
Proof.
  intros Hacc. destruct pr as [a b]. unfold add_edge.
  destruct (a =? b); [exact Hacc|].
  apply insert_increasing;
    [exact pair_ltb_trans | exact pair_ltb_total | exact Hacc].
Qed.

Lemma fold_add_edge_In (ps acc : list (N * N)) (e : N * N) :
  In e (fold_left add_edge ps acc) <->
  In e acc \/
  exists a b, In (a, b) ps /\ a <> b /\ e = unordered a b.
Proof.
  revert acc. induction ps as [|pr ps IH]; intros acc; cbn [fold_left].
  - split; [auto|]. intros [H | [a [b [[] _]]]]. exact H.
  - rewrite IH, add_edge_In. destruct pr as [a0 b0]. cbn [fst snd In]. split.
    + intros [[H | [Hab ->]] | [a' [b' [Hin H]]]]; eauto 8.
    + intros [H | [a' [b' [[[= -> ->] | Hin] [Hab ->]]]]]; eauto 8.
Qed.

Lemma fold_add_edge_increasing (ps acc : list (N * N)) :
  increasing StdSet.pair_ltb acc ->
  increasing StdSet.pair_ltb (fold_left add_edge ps acc).
Proof.
  revert acc. induction ps as [|pr ps IH]; intros acc Hacc; simpl; [exact Hacc|].
  apply IH. now apply add_edge_increasing.
Qed.

(** One polygon, as [GetEdges] treats it: the guard on polygons of fewer
    than two indices changes nothing. *)
Lemma GetEdges_polygon_step (l : list N) (acc : list (N * N)) :
  (if size l <? 2 then acc else poly_edges l acc)
  = fold_left add_edge (consecutive_pairs l) acc.
Proof.
  destruct (size l <? 2) eqn:E; [|apply poly_edges_fold].
  apply N.ltb_lt in E. unfold size in E.
  destruct l as [|a [|b l]]; simpl in *; try lia; [reflexivity|].
  now rewrite N.eqb_refl.
Qed.

Lemma GetEdges_fold {F : Type} (m : Model F) :
  GetEdges m
  = fold_left (fun acc poly =>
                 fold_left add_edge (consecutive_pairs (vertex_indices poly)) acc)
      (polygons_ m) [].
Proof.
  unfold GetEdges. generalize (@nil (N * N)).
  induction (polygons_ m) as [|poly polys IH]; intros acc; simpl; [reflexivity|].
  now rewrite GetEdges_polygon_step, IH.
Qed.

(** The vector [GetEdges] returns is in the order of the set. *)
Lemma GetEdges_increasing {F : Type} (m : Model F) :
  increasing StdSet.pair_ltb (GetEdges m).
Proof.
  rewrite GetEdges_fold.
  generalize (@nil (N * N))
    (SSorted_nil (fun a b : N * N => StdSet.pair_ltb a b = true)).
  induction (polygons_ m) as [|poly polys IH]; intros acc Hacc; simpl; [exact Hacc|].
  apply IH. now apply fold_add_edge_increasing.
Qed.

(** C7, as stated, fails: the polygon (0, 0, 1, 2), which the face line
    [f 1 1 2 3] yields, has the consecutive pair (0, 0); stored as
    (min, max) it is not among the edges. *)
Lemma GetEdges_skips_repeated_index :
  snd (load_line Decimal.strtof 4 "f 1 1 2 3" (true, three_vertices))
  = set_polygons three_vertices [mkPolygon [0; 0; 1; 2]] /\
  In (0, 0) (consecutive_pairs [0; 0; 1; 2]) /\
  GetEdges (set_polygons three_vertices [mkPolygon [0; 0; 1; 2]])
  = [(0, 1); (0, 2); (1, 2)] /\
  ~ In (unordered 0 0)
      (GetEdges (set_polygons three_vertices [mkPolygon [0; 0; 1; 2]])).
Proof.
  split; [reflexivity|]. split; [simpl; auto|]. split; [reflexivity|].
  vm_compute. intros [H | [H | [H | []]]]; discriminate H.
Qed.

(** C7, amended.  [GetEdges] returns exactly the pairs (min, max) of two
    distinct consecutive indices of a polygon of the mesh, the pair
    (last, first) included; a pair of equal indices is skipped.  No pair
    occurs twice, whatever the number of polygons it comes from.  A single
    triangle 0, 1, 2 has the three edges {0,1}, {1,2}, {0,2}; a single quad
    0, 1, 2, 3 has four edges, {0,3} among them. *)
Theorem GetEdges_distinct_consecutive_pairs :
  forall (F : Type) (m : Model F),
    (forall e : N * N,
        In e (GetEdges m) <->
        exists poly a b,
          In poly (polygons_ m) /\
          In (a, b) (consecutive_pairs (vertex_indices poly)) /\
          a <> b /\ e = unordered a b) /\
    NoDup (GetEdges m) /\
    (forall a b, In (a, b) (GetEdges m) -> a < b) /\
    (polygons_ m = [mkPolygon [0; 1; 2]] ->
     GetEdges m = [(0, 1); (0, 2); (1, 2)] /\ GetEdgeCount m = 3) /\
    (polygons_ m = [mkPolygon [0; 1; 2; 3]] ->
     GetEdges m = [(0, 1); (0, 3); (1, 2); (2, 3)] /\ GetEdgeCount m = 4).
Proof.
  intros F m.
  assert (Hin : forall e : N * N,
             In e (GetEdges m) <->
             exists poly a b,
               In poly (polygons_ m) /\
               In (a, b) (consecutive_pairs (vertex_indices poly)) /\
               a <> b /\ e = unordered a b).
  { intros e. rewrite GetEdges_fold.
    assert (Hgen : forall polys acc,
               In e (fold_left
                       (fun acc poly =>
                          fold_left add_edge
                            (consecutive_pairs (vertex_indices poly)) acc)
                       polys acc) <->
               In e acc \/
               exists poly a b,
                 In poly polys /\
                 In (a, b) (consecutive_pairs (vertex_indices poly)) /\
                 a <> b /\ e = unordered a b).
    { induction polys as [|poly polys IH]; intros acc; simpl.
      - split; [auto|]. intros [H | [poly [a [b [[] _]]]]]. exact H.
      - rewrite IH, fold_add_edge_In. split.
        + intros [[H | [a [b H]]] | [poly' [a [b [Hp H]]]]]; eauto 10.
        + intros [H | [poly' [a [b [[<- | Hp] H]]]]]; eauto 10. }
    rewrite Hgen. simpl. tauto. }
  split; [exact Hin|]. split; [|split; [|split]].
  - apply increasing_NoDup with (ltb := StdSet.pair_ltb); [exact pair_ltb_irrefl|].
    apply GetEdges_increasing.
  - intros a b Hab. apply Hin in Hab.
    destruct Hab as [poly [a' [b' [_ [_ [Hne Heq]]]]]].
    unfold unordered in Heq. injection Heq as -> ->. lia.
  - unfold GetEdgeCount, GetEdges. intros ->. split; reflexivity.
  - unfold GetEdgeCount, GetEdges. intros ->. split; reflexivity.
Qed.

Lemma GetEdges_distinct_consecutive_pairs_witness :
  GetEdges (set_polygons three_vertices [mkPolygon [0; 1; 2]])
  = [(0, 1); (0, 2); (1, 2)] /\
  GetEdgeCount (set_polygons three_vertices [mkPolygon [0; 1; 2]]) = 3.
Proof.
  exact (proj1 (proj2 (proj2 (proj2
           (@GetEdges_distinct_consecutive_pairs decimal
              (set_polygons three_vertices [mkPolygon [0; 1; 2]])))))
           eq_refl).
Defined.

(** ** Normalisation *)

Section NormalizeLemmas.
Context {F : Type} `{FloatOps F}.

Lemma std_min_same (a : F) : std_min a a = a.
Proof. unfold std_min. now destruct (fltb a a). Qed.

Lemma std_max_same (a : F) : std_max a a = a.
Proof. unfold std_max. now destruct (fltb a a). Qed.

(** The six running extrema are the six folds of [std::min] and [std::max]
    over the coordinates. *)
Lemma fold_extrema (vs : list (Vertex F)) (e : extrema) :
  fold_left extrema_step vs e =
  mkExtrema (fold_left std_min (map x vs) (min_x e))
            (fold_left std_min (map y vs) (min_y e))
            (fold_left std_min (map z vs) (min_z e))
            (fold_left std_max (map x vs) (max_x e))
            (fold_left std_max (map y vs) (max_y e))
            (fold_left std_max (map z vs) (max_z e)).
Proof.
  revert e. induction vs as [|v vs IH]; intros e; simpl.
  - now destruct e.
  - now rewrite IH.
Qed.

(** After the first loop the extrema are the corners of the bounding box. *)
Lemma extrema_bounding_box (v0 : Vertex F) (vs : list (Vertex F)) :
  let e := fold_left extrema_step (v0 :: vs)
             (mkExtrema (x v0) (y v0) (z v0) (x v0) (y v0) (z v0)) in
  bounding_box (v0 :: vs) =
  (mkVertex (min_x e) (min_y e) (min_z e), mkVertex (max_x e) (max_y e) (max_z e)).
Proof.
  cbv zeta. rewrite fold_extrema. simpl.
  now rewrite !std_min_same, !std_max_same.
Qed.
End NormalizeLemmas.

Lemma NormalizeModel_nonempty {F : Type} `{FloatOps F} (m : Model F) :
  vertices_ m <> [] ->
  NormalizeModel m
  = set_vertices m
      (map (recentre_rescale
              (box_midpoint (bounding_box (vertices_ m)))
              (radius_or_one (box_half_diagonal (bounding_box (vertices_ m)))))
         (vertices_ m)).
Proof.
  intros Hne. unfold NormalizeModel.
  destruct (vertices_ m) as [|v0 vs] eqn:Evs; [now elim Hne|].
  rewrite (extrema_bounding_box v0 vs). cbv zeta.
  set (e := fold_left extrema_step (v0 :: vs) _).
  reflexivity.
Qed.

(** ** The transform commands *)

Lemma Rleb_true (a b : R) : Rleb a b = true <-> (a <= b)%R.
Proof. unfold Rleb. destruct (Rle_dec a b); intuition discriminate. Qed.

Lemma Rltb_true (a b : R) : Rltb a b = true <-> (a < b)%R.
Proof. unfold Rltb. destruct (Rlt_dec a b); intuition discriminate. Qed.

Lemma Rltb_false (a b : R) : Rltb a b = false <-> (b <= a)%R.
Proof.
  unfold Rltb. destruct (Rlt_dec a b); split; intros; try discriminate;
    try reflexivity; lra.
Qed.

Lemma Reqb_true (a b : R) : Reqb a b = true <-> a = b.
Proof. unfold Reqb. destruct (Req_dec_T a b); intuition discriminate. Qed.

Lemma Reqb_false (a b : R) : Reqb a b = false <-> a <> b.
Proof.
  unfold Reqb. destruct (Req_dec_T a b); split; intros; try discriminate;
    try reflexivity; try assumption; contradiction.
Qed.

(** In exact arithmetic equal vertices are equal for [operator==], the
    comparison up to 1e-6 that the tests use. *)
Lemma Vertex_eqb_same (v : Vertex R) : Vertex_eqb v v = true.
Proof.
  unfold Vertex_eqb. to_R.
  assert (H : forall a : R, Rltb (Rabs (a - a)) (1 / 1000000) = true).
  { intros a. apply Rltb_true. replace (a - a)%R with 0%R by ring.
    rewrite Rabs_R0. lra. }
  now rewrite !H.
Qed.

Section FrameLemmas.
Context {F : Type} `{FloatOps F}.

Lemma on_vertices_frame (f : list (Vertex F) -> list (Vertex F))
    (mgr : ModelManager F) :
  only_vertices_changed mgr (on_vertices f mgr).
Proof.
  unfold only_vertices_changed, on_vertices, GetModel.
  destruct (current_model_ mgr) as [m|] eqn:E; simpl.
  - auto.
  - now rewrite E.
Qed.

Lemma only_vertices_changed_refl (mgr : ModelManager F) :
  only_vertices_changed mgr mgr.
Proof.
  unfold only_vertices_changed. destruct (current_model_ mgr); auto.
Qed.

Lemma on_vertices_no_model (f : list (Vertex F) -> list (Vertex F))
    (mgr : ModelManager F) :
  current_model_ mgr = None -> on_vertices f mgr = mgr.
Proof. unfold on_vertices, GetModel. now intros ->. Qed.
End FrameLemmas.

(** C10. Executing a move, a rotation or a scaling changes nothing of the
    held model but its vertex buffer: the polygons, the last error code and
    message and the file path are as before, for every model and every
    parameter.  With no model held the manager is returned as it was:
    nothing changes and nothing is thrown. *)
Theorem Execute_only_changes_vertices :
  forall (F : Type) (O : FloatOps F) (mgr : ModelManager F),
    (forall cmd : MoveCommand F, only_vertices_changed mgr (Execute cmd mgr)) /\
    (forall cmd : RotateCommand F, only_vertices_changed mgr (Execute cmd mgr)) /\
    (forall cmd : ScaleCommand F, only_vertices_changed mgr (Execute cmd mgr)) /\
    (GetModel mgr = None ->
     (forall cmd : MoveCommand F, Execute cmd mgr = mgr) /\
     (forall cmd : RotateCommand F, Execute cmd mgr = mgr) /\
     (forall cmd : ScaleCommand F, Execute cmd mgr = mgr)).
Proof.
  intros F O mgr. repeat split; intros; simpl.
  - apply on_vertices_frame.
  - apply on_vertices_frame.
  - destruct (fleb (factor_ cmd) lit_0_0).
    + apply only_vertices_changed_refl.
    + apply on_vertices_frame.
  - now apply on_vertices_no_model.
  - now apply on_vertices_no_model.
  - destruct (fleb (factor_ cmd) lit_0_0); [reflexivity|].
    now apply on_vertices_no_model.
Qed.

Lemma Execute_only_changes_vertices_witness :
  Execute (mkMoveCommand 1%R 0%R 0%R) (mkModelManager None) = mkModelManager None /\
  Execute (mkRotateCommand 90%R 0%R 0%R) (mkModelManager None) = mkModelManager None /\
  Execute (mkScaleCommand 2%R) (mkModelManager None) = mkModelManager None.
Proof.
  destruct (proj2 (proj2 (proj2
             (@Execute_only_changes_vertices R R_FloatOps (mkModelManager None))))
             eq_refl) as [Hmove [Hrotate Hscale]].
  exact (conj (Hmove _) (conj (Hrotate _) (Hscale _))).
Defined.

(** ** Scaling *)

Local Open Scope R_scope.

Lemma map_scale_inverse (k : R) (vs : list (Vertex R)) :
  (0 < k)%R ->
  map (fun v : Vertex R => mkVertex (x v * (1 / k)) (y v * (1 / k)) (z v * (1 / k))%R)
    (map (fun v : Vertex R => mkVertex (x v * k) (y v * k) (z v * k)%R) vs) = vs.
Proof.
  intros Hk. rewrite map_map. rewrite <- (map_id vs) at 2.
  apply map_ext. intros [a b c]. simpl. f_equal; field; lra.
Qed.

(** C9. A scaling by a factor for which the test [factor <= 0.0f] holds
    leaves the manager, and so every vertex, exactly as it was; with any
    other factor, a positive one or NaN, it multiplies the three coordinates
    of every vertex by the factor: the products are the vertex buffer after
    the call.  This is so in every arithmetic.  In exact arithmetic the test
    is [factor <= 0], and a scaling by k > 0 followed by a scaling by 1/k
    gives back the original coordinates. *)
Theorem ScaleCommand_guard_and_inverse :
  (forall (F : Type) (O : FloatOps F) (factor : F) (mgr : ModelManager F),
      fleb factor lit_0_0 = true ->
      Execute (mkScaleCommand factor) mgr = mgr) /\
  (forall (F : Type) (O : FloatOps F) (factor : F) (m : Model F),
      fleb factor lit_0_0 = false ->
      Execute (mkScaleCommand factor) (mkModelManager (Some m))
      = mkModelManager
          (Some (set_vertices m
                   (map (fun v => mkVertex (fmul (x v) factor) (fmul (y v) factor)
                                           (fmul (z v) factor))
                      (vertices_ m)))) /\
      option_map (@vertices_ F)
        (GetModel (Execute (mkScaleCommand factor) (mkModelManager (Some m))))
      = Some (map (fun v => mkVertex (fmul (x v) factor) (fmul (y v) factor)
                                     (fmul (z v) factor))
                (vertices_ m))) /\
  (forall (factor : R) (mgr : ModelManager R),
      (factor <= 0)%R -> Execute (mkScaleCommand factor) mgr = mgr) /\
  (forall (factor : R) (m : Model R),
      (0 < factor)%R ->
      Execute (mkScaleCommand factor) (mkModelManager (Some m))
      = mkModelManager
          (Some (set_vertices m
                   (map (fun v => mkVertex (x v * factor) (y v * factor)
                                           (z v * factor))%R
                      (vertices_ m)))) /\
      option_map (@vertices_ R)
        (GetModel (Execute (mkScaleCommand factor) (mkModelManager (Some m))))
      = Some (map (fun v => mkVertex (x v * factor) (y v * factor)
                                     (z v * factor))%R
                (vertices_ m))) /\
  (forall (k : R) (mgr : ModelManager R),
      (0 < k)%R ->
      Execute (mkScaleCommand (1 / k)%R) (Execute (mkScaleCommand k) mgr) = mgr).
Proof.
  assert (Hpos : forall a : R, (0 < a)%R -> Rleb a 0 = false).
  { intros a Ha. destruct (Rleb a 0) eqn:E; [|reflexivity].
    apply Rleb_true in E. lra. }
  split; [|split; [|split; [|split]]].
  - intros F O factor mgr Hle. simpl. now rewrite Hle.
  - intros F O factor m Hgt. simpl. rewrite Hgt. split; reflexivity.
  - intros factor mgr Hle. simpl. to_R.
    apply Rleb_true in Hle. now rewrite Hle.
  - intros factor m Hgt. simpl. to_R. rewrite (Hpos _ Hgt). split; reflexivity.
  - intros k mgr Hk. simpl. to_R.
    assert (Hk' : (0 < 1 / k)%R) by (apply Rdiv_lt_0_compat; lra).
    rewrite (Hpos _ Hk), (Hpos _ Hk').
    destruct mgr as [[m|]]; [|reflexivity].
    unfold on_vertices, GetModel. simpl. to_R.
    destruct m as [p vs ps code msg]. unfold set_vertices. simpl.
    now rewrite (map_scale_inverse vs Hk).
Qed.

(** In exact arithmetic a scaling of (1, 2, 3) by 0 changes nothing, by 2 it
    gives (2, 4, 6), and by 2 and then by 1/2 it gives (1, 2, 3) back; in
    binary32 a scaling of (1, 2, 3) by 2 gives (2, 4, 6) and by -1 it changes
    nothing. *)
Lemma ScaleCommand_guard_and_inverse_witness :
  (Execute (mkScaleCommand 0) (mkModelManager (Some one_two_three))
   = mkModelManager (Some one_two_three) /\
   option_map (@vertices_ R)
     (GetModel (Execute (mkScaleCommand 2) (mkModelManager (Some one_two_three))))
   = Some [mkVertex 2 4 6] /\
   Execute (mkScaleCommand (1 / 2))
     (Execute (mkScaleCommand 2) (mkModelManager (Some one_two_three)))
   = mkModelManager (Some one_two_three)) /\
  (forall cosf sinf : binary32 -> binary32,
      let O := binary32_FloatOps cosf sinf in
      option_map (@vertices_ binary32)
        (GetModel (Execute (mkScaleCommand (Binary32.make 2 0))
                     (mkModelManager (Some one_two_three32))))
      = Some [mkVertex (Binary32.make 2 0) (Binary32.make 4 0) (Binary32.make 6 0)] /\
      Execute (mkScaleCommand (Binary32.make (-1) 0))
        (mkModelManager (Some one_two_three32))
      = mkModelManager (Some one_two_three32)).
Proof.
  pose proof ScaleCommand_guard_and_inverse
    as [Hguard [Hmul [Hguard_R [Hmul_R Hback]]]].
  split; [split; [|split]|].
  - apply Hguard_R. lra.
  - rewrite (proj2 (Hmul_R 2 one_two_three ltac:(lra))).
    unfold one_two_three. cbn [vertices_ map x y z].
    do 2 f_equal. apply f_equal3; ring.
  - apply Hback. lra.
  - intros cosf sinf O. split.
    + rewrite (proj2 (Hmul binary32 O (Binary32.make 2 0) one_two_three32 eq_refl)).
      vm_compute. reflexivity.
    + apply Hguard. reflexivity.
Defined.

(** C9, as stated, fails in binary32, whatever the cosine and the sine are:
    a scaling by k > 0 and then by 1/k need not give back the coordinates
    within the 1e-6 of [Vertex::operator==].  Scaling (100, 0, 0) by 7 gives
    (700, 0, 0); 1/7 is 9586981 * 2^-26, and scaling by it gives
    13107201 * 2^-17 = 100.0000076, which is 2^-17 = 7.6e-6 away from 100.
    Scaling (2^30, 1, 0) by 2^100 overflows to +infinity, which the scaling
    by 2^-100 leaves where it is. *)
Lemma ScaleCommand_round_trip_not_restored :
  (forall cosf sinf : binary32 -> binary32,
      let O := binary32_FloatOps cosf sinf in
      let k := Binary32.make 7 0 in
      fltb lit_0_0 k = true /\
      fdiv lit_1_0 k = Binary32.make 9586981 (-26) /\
      option_map (@vertices_ binary32)
        (GetModel (Execute (mkScaleCommand k) (mkModelManager (Some hundred32))))
      = Some [mkVertex (Binary32.make 700 0) (Binary32.zero false)
                       (Binary32.zero false)] /\
      option_map (@vertices_ binary32)
        (GetModel (Execute (mkScaleCommand (fdiv lit_1_0 k))
                     (Execute (mkScaleCommand k) (mkModelManager (Some hundred32)))))
      = Some [mkVertex (Binary32.make 13107201 (-17)) (Binary32.zero false)
                       (Binary32.zero false)] /\
      fsub (Binary32.make 13107201 (-17)) (Binary32.make 100 0)
      = Binary32.make 1 (-17) /\
      Vertex_eqb
        (mkVertex (Binary32.make 13107201 (-17)) (Binary32.zero false)
                  (Binary32.zero false))
        (mkVertex (Binary32.make 100 0) (Binary32.zero false) (Binary32.zero false))
      = false) /\
  (forall cosf sinf : binary32 -> binary32,
      let O := binary32_FloatOps cosf sinf in
      let k := Binary32.make 1 100 in
      fltb lit_0_0 k = true /\
      fdiv lit_1_0 k = Binary32.make 1 (-100) /\
      option_map (@vertices_ binary32)
        (GetModel (Execute (mkScaleCommand k) (mkModelManager (Some two_to_30_32))))
      = Some [mkVertex (Binary32.infinity false) (Binary32.make 1 100)
                       (Binary32.zero false)] /\
      option_map (@vertices_ binary32)
        (GetModel (Execute (mkScaleCommand (fdiv lit_1_0 k))
                     (Execute (mkScaleCommand k)
                        (mkModelManager (Some two_to_30_32)))))
      = Some [mkVertex (Binary32.infinity false) (Binary32.make 1 0)
                       (Binary32.zero false)] /\
      Vertex_eqb
        (mkVertex (Binary32.infinity false) (Binary32.make 1 0) (Binary32.zero false))
        (mkVertex (Binary32.make 1 30) (Binary32.make 1 0) (Binary32.zero false))
      = false).
Proof.
  split; intros cosf sinf O k; vm_compute; repeat split; reflexivity.
Qed.

(** ** Rotation *)

Section RotateLemmas.
Context {F : Type} `{FloatOps F}.

(** The body of the loop is the three axis steps, X first. *)
Lemma rotate_vertex_steps (ax ay az : F) (v : Vertex F) :
  rotate_vertex ax ay az v =
  let step rot t v := if feqb t (of_int 0) then v else rot t v in
  step rotate_about_Z az (step rotate_about_Y ay (step rotate_about_X ax v)).
Proof.
  unfold rotate_vertex, RotatePair, rotate_about_X, rotate_about_Y, rotate_about_Z.
  cbv zeta.
  destruct (feqb ax (of_int 0)), (feqb ay (of_int 0)), (feqb az (of_int 0));
    reflexivity.
Qed.

(** Rotating vertex by vertex is rotating the whole buffer axis by axis. *)
Lemma RotateVertices_passes (cmd : RotateCommand F) (vs : list (Vertex F)) :
  RotateVertices cmd false vs
  = rotate_XYZ (angle_x_ cmd) (angle_y_ cmd) (angle_z_ cmd) vs.
Proof.
  unfold RotateVertices, rotate_XYZ. cbv zeta iota.
  change (fmul (fmul (angle_x_ cmd) deg_to_rad) (of_int 1))
    with (to_radians (angle_x_ cmd)).
  change (fmul (fmul (angle_y_ cmd) deg_to_rad) (of_int 1))
    with (to_radians (angle_y_ cmd)).
  change (fmul (fmul (angle_z_ cmd) deg_to_rad) (of_int 1))
    with (to_radians (angle_z_ cmd)).
  generalize (to_radians (angle_x_ cmd)) (to_radians (angle_y_ cmd))
             (to_radians (angle_z_ cmd)).
  intros ax ay az.
  rewrite (map_ext _ _ (rotate_vertex_steps ax ay az)).
  unfold axis_pass. cbv zeta.
  destruct (feqb ax (of_int 0)), (feqb ay (of_int 0)), (feqb az (of_int 0));
    rewrite ?map_map, ?map_id; reflexivity.
Qed.

End RotateLemmas.

Lemma to_radians_R (angle : R) : to_radians angle = angle * PI / 180.
Proof. unfold to_radians. to_R. field. Qed.


Lemma to_radians_90 : to_radians 90 = PI / 2.
Proof. rewrite to_radians_R. field. Qed.









(** ** The bounding box in exact arithmetic *)

Lemma std_min_R (a b : R) : std_min a b = Rmin a b.
Proof.
  unfold std_min, Rmin. to_R. destruct (Rle_dec a b) as [Hle|Hgt].
  - assert (E : Rltb b a = false) by (apply Rltb_false; exact Hle).
    now rewrite E.
  - assert (E : Rltb b a = true) by (apply Rltb_true; lra).
    now rewrite E.
Qed.

Lemma std_max_R (a b : R) : std_max a b = Rmax a b.
Proof.
  unfold std_max, Rmax. to_R. destruct (Rle_dec a b) as [Hle|Hgt].
  - destruct (Rltb a b) eqn:E; [reflexivity|].
    apply Rltb_false in E. lra.
  - assert (E : Rltb a b = false) by (apply Rltb_false; lra).
    now rewrite E.
Qed.

Lemma fold_min_bounds (cs : list R) (a : R) :
  fold_left std_min cs a <= a /\
  (forall c, In c cs -> fold_left std_min cs a <= c) /\
  (fold_left std_min cs a = a \/ In (fold_left std_min cs a) cs).
Proof.
  revert a. induction cs as [|c cs IH]; intros a; simpl.
  - split; [lra|]. split; [intros c []|now left].
  - destruct (IH (std_min a c)) as [Hinit [Hall Hatt]].
    rewrite std_min_R in *.
    pose proof (Rmin_l a c). pose proof (Rmin_r a c).
    split; [lra|]. split.
    + intros c' [<- | Hin]; [lra|now apply Hall].
    + destruct Hatt as [-> | Hin]; [|now right; right].
      unfold Rmin. destruct (Rle_dec a c); auto.
Qed.

Lemma fold_max_bounds (cs : list R) (a : R) :
  a <= fold_left std_max cs a /\
  (forall c, In c cs -> c <= fold_left std_max cs a) /\
  (fold_left std_max cs a = a \/ In (fold_left std_max cs a) cs).
Proof.
  revert a. induction cs as [|c cs IH]; intros a; simpl.
  - split; [lra|]. split; [intros c []|now left].
  - destruct (IH (std_max a c)) as [Hinit [Hall Hatt]].
    rewrite std_max_R in *.
    pose proof (Rmax_l a c). pose proof (Rmax_r a c).
    split; [lra|]. split.
    + intros c' [<- | Hin]; [lra|now apply Hall].
    + destruct Hatt as [-> | Hin]; [|now right; right].
      unfold Rmax. destruct (Rle_dec a c); auto.
Qed.

(** In exact arithmetic [axis_min] and [axis_max] are the least and the
    greatest coordinate. *)
Lemma axis_min_spec (cs : list R) (c : R) :
  In c cs -> axis_min cs <= c /\ In (axis_min cs) cs.
Proof.
  destruct cs as [|c0 cs]; [intros []|]. intros Hin. unfold axis_min.
  destruct (fold_min_bounds cs c0) as [Hinit [Hall Hatt]]. split.
  - destruct Hin as [<- | Hin]; [exact Hinit|now apply Hall].
  - destruct Hatt as [-> | Hatt]; [now left|now right].
Qed.

Lemma axis_max_spec (cs : list R) (c : R) :
  In c cs -> c <= axis_max cs /\ In (axis_max cs) cs.
Proof.
  destruct cs as [|c0 cs]; [intros []|]. intros Hin. unfold axis_max.
  destruct (fold_max_bounds cs c0) as [Hinit [Hall Hatt]]. split.
  - destruct Hin as [<- | Hin]; [exact Hinit|now apply Hall].
  - destruct Hatt as [-> | Hatt]; [now left|now right].
Qed.

(** An increasing map of the coordinates maps the extrema. *)
Lemma axis_min_map (f : R -> R) (cs : list R) :
  (forall a b, a <= b -> f a <= f b) -> cs <> [] ->
  axis_min (map f cs) = f (axis_min cs).
Proof.
  intros Hf Hne. destruct cs as [|c0 cs]; [now elim Hne|]. unfold axis_min. simpl.
  clear Hne. revert c0. induction cs as [|c cs IH]; intros c0; simpl; [reflexivity|].
  rewrite <- IH. f_equal. rewrite !std_min_R. unfold Rmin.
  destruct (Rle_dec c0 c) as [Hle|Hgt], (Rle_dec (f c0) (f c)) as [Hle'|Hgt'];
    try reflexivity.
  - elim Hgt'. now apply Hf.
  - assert (f c <= f c0) by (apply Hf; lra). lra.
Qed.

Lemma axis_max_map (f : R -> R) (cs : list R) :
  (forall a b, a <= b -> f a <= f b) -> cs <> [] ->
  axis_max (map f cs) = f (axis_max cs).
Proof.
  intros Hf Hne. destruct cs as [|c0 cs]; [now elim Hne|]. unfold axis_max. simpl.
  clear Hne. revert c0. induction cs as [|c cs IH]; intros c0; simpl; [reflexivity|].
  rewrite <- IH. f_equal. rewrite !std_max_R. unfold Rmax.
  destruct (Rle_dec c0 c) as [Hle|Hgt], (Rle_dec (f c0) (f c)) as [Hle'|Hgt'];
    try reflexivity.
  - elim Hgt'. now apply Hf.
  - assert (f c <= f c0) by (apply Hf; lra). lra.
Qed.

(** ** Normalisation in exact arithmetic *)

Lemma recentre_rescale_R (c : Vertex R) (r : R) (v : Vertex R) :
  recentre_rescale c r v
  = mkVertex ((x v - x c) * (1 / r)) ((y v - y c) * (1 / r)) ((z v - z c) * (1 / r)).
Proof. reflexivity. Qed.

(** The bounding box of the recentred and rescaled vertices is the
    recentred and rescaled bounding box. *)
Lemma bounding_box_recentre_rescale (c : Vertex R) (r : R) (vs : list (Vertex R)) :
  0 < r -> vs <> [] ->
  bounding_box (map (recentre_rescale c r) vs)
  = (recentre_rescale c r (fst (bounding_box vs)),
     recentre_rescale c r (snd (bounding_box vs))).
Proof.
  intros Hr Hne.
  assert (Hs : 0 <= 1 / r) by (apply Rlt_le, Rdiv_lt_0_compat; lra).
  assert (Hmono : forall k a b : R, a <= b -> (a - k) * (1 / r) <= (b - k) * (1 / r))
    by (intros; nra).
  assert (Hmap : forall p : Vertex R -> R, map p vs <> [])
    by (intros p E; apply map_eq_nil in E; contradiction).
  unfold bounding_box. cbn [fst snd]. rewrite !recentre_rescale_R. cbn [x y z].
  rewrite !map_map.
  rewrite <- (axis_min_map (fun t => (t - x c) * (1 / r)) (Hmono (x c)) (Hmap x)).
  rewrite <- (axis_min_map (fun t => (t - y c) * (1 / r)) (Hmono (y c)) (Hmap y)).
  rewrite <- (axis_min_map (fun t => (t - z c) * (1 / r)) (Hmono (z c)) (Hmap z)).
  rewrite <- (axis_max_map (fun t => (t - x c) * (1 / r)) (Hmono (x c)) (Hmap x)).
  rewrite <- (axis_max_map (fun t => (t - y c) * (1 / r)) (Hmono (y c)) (Hmap y)).
  rewrite <- (axis_max_map (fun t => (t - z c) * (1 / r)) (Hmono (z c)) (Hmap z)).
  rewrite !map_map. reflexivity.
Qed.

(** Every vertex lies in the bounding box. *)
Lemma bounding_box_contains (vs : list (Vertex R)) (v : Vertex R) :
  In v vs ->
  let '(lo, hi) := bounding_box vs in
  x lo <= x v <= x hi /\ y lo <= y v <= y hi /\ z lo <= z v <= z hi.
Proof.
  intros Hin. unfold bounding_box. cbn [x y z].
  pose proof (proj1 (axis_min_spec _ _ (in_map x _ _ Hin))).
  pose proof (proj1 (axis_min_spec _ _ (in_map y _ _ Hin))).
  pose proof (proj1 (axis_min_spec _ _ (in_map z _ _ Hin))).
  pose proof (proj1 (axis_max_spec _ _ (in_map x _ _ Hin))).
  pose proof (proj1 (axis_max_spec _ _ (in_map y _ _ Hin))).
  pose proof (proj1 (axis_max_spec _ _ (in_map z _ _ Hin))).
  lra.
Qed.

(** The bounding box of coinciding vertices is a point. *)
Lemma bounding_box_point (vs : list (Vertex R)) (v0 : Vertex R) :
  vs <> [] -> (forall v, In v vs -> v = v0) ->
  bounding_box vs = (v0, v0).
Proof.
  intros Hne Hall.
  assert (Hcoord : forall p : Vertex R -> R,
             axis_min (map p vs) = p v0 /\ axis_max (map p vs) = p v0).
  { intros p. destruct vs as [|v vs]; [now elim Hne|].
    assert (Hin : In (p v) (map p (v :: vs))) by (now left).
    destruct (axis_min_spec _ _ Hin) as [_ Hmin].
    destruct (axis_max_spec _ _ Hin) as [_ Hmax].
    apply in_map_iff in Hmin. destruct Hmin as [v1 [E1 Hv1]].
    apply in_map_iff in Hmax. destruct Hmax as [v2 [E2 Hv2]].
    rewrite <- E1, <- E2, (Hall _ Hv1), (Hall _ Hv2). auto. }
  unfold bounding_box.
  rewrite (proj1 (Hcoord x)), (proj1 (Hcoord y)), (proj1 (Hcoord z)).
  rewrite (proj2 (Hcoord x)), (proj2 (Hcoord y)), (proj2 (Hcoord z)).
  now destruct v0.
Qed.



Lemma radius_or_one_R (r : R) :
  radius_or_one r = if Rlt_dec r (1 / 1000000) then 1 else r.
Proof. unfold radius_or_one. to_R. unfold Rltb. now destruct (Rlt_dec _ _). Qed.

Lemma radius_or_one_pos (r : R) : 0 < radius_or_one r.
Proof. rewrite radius_or_one_R. destruct (Rlt_dec r (1 / 1000000)); lra. Qed.

Lemma box_half_diagonal_R (lo hi : Vertex R) :
  box_half_diagonal (lo, hi)
  = sqrt ((x hi - x lo) * (x hi - x lo) + (y hi - y lo) * (y hi - y lo)
          + (z hi - z lo) * (z hi - z lo)) * (1 / 2).
Proof. reflexivity. Qed.

(** The constant of the guard in binary32 is [float_1e_6], and this is the
    binary32 value nearest to 10^-6: it is within half a unit in the last
    place, 2^-44, of it. *)
Lemma float_1e_6_value (cosf sinf : binary32 -> binary32) :
  Binary32.value (@lit_1e_6 binary32 (binary32_FloatOps cosf sinf)) = float_1e_6.
Proof.
  change (@lit_1e_6 binary32 (binary32_FloatOps cosf sinf))
    with (SpecFloat.S754_finite false 8796093 (-43)).
  unfold Binary32.value, float_1e_6.
  change (powerRZ 2 (-43)) with (/ 2 ^ 43).
  replace (2 ^ 43) with 8796093022208 by (simpl; lra).
  field.
Qed.

Lemma float_1e_6_nearest :
  Rabs (float_1e_6 - 1 / 1000000) <= / 2 * / 8796093022208.
Proof.
  unfold float_1e_6. apply Rabs_le. lra.
Qed.

Lemma radius_or_one_exact (eps r : R) :
  @radius_or_one R (exact_FloatOps eps) r = if Rlt_dec r eps then 1 else r.
Proof.
  unfold radius_or_one. cbn [fltb lit_1e_6 lit_1_0 exact_FloatOps].
  unfold Rltb. now destruct (Rlt_dec r eps).
Qed.

(** The divisor of [NormalizeModel] is never a zero in binary32: a zero is
    below 1e-6f and 1.0f takes its place. *)
Lemma radius_or_one_binary32 (cosf sinf : binary32 -> binary32) (r : binary32) :
  Binary32.is_zero (@radius_or_one binary32 (binary32_FloatOps cosf sinf) r) = false.
Proof.
  unfold radius_or_one. cbn [fltb lit_1e_6 lit_1_0 binary32_FloatOps].
  destruct r as [s|s| |s m e]; try reflexivity.
  - now destruct s.
  - destruct (SpecFloat.SFltb _ _); reflexivity.
Qed.

(** [NormalizeModel] in exact arithmetic, whatever positive constant the
    guard compares with. *)
Lemma NormalizeModel_exact_unit_box (eps : R) (m : Model R) :
  0 < eps -> vertices_ m <> [] ->
  let box := bounding_box (vertices_ m) in
  let normalized := vertices_ (@NormalizeModel R (exact_FloatOps eps) m) in
  @radius_or_one R (exact_FloatOps eps) (box_half_diagonal box) <> 0 /\
  (eps <= box_half_diagonal box ->
   box_midpoint (bounding_box normalized) = mkVertex 0 0 0 /\
   box_half_diagonal (bounding_box normalized) = 1 /\
   forall v, In v normalized -> x v * x v + y v * y v + z v * z v <= 1) /\
  (box_half_diagonal box < eps ->
   normalized
   = map (fun v => mkVertex (x v - x (box_midpoint box)) (y v - y (box_midpoint box))
                            (z v - z (box_midpoint box)))
       (vertices_ m)) /\
  (forall v0 : Vertex R,
      (forall v, In v (vertices_ m) -> v = v0) ->
      @radius_or_one R (exact_FloatOps eps) (box_half_diagonal box) = 1 /\
      forall v, In v normalized -> v = mkVertex 0 0 0).
Proof.
  intros Heps Hne box normalized.
  assert (Hnorm : normalized
                  = map (recentre_rescale (box_midpoint box)
                           (if Rlt_dec (box_half_diagonal box) eps
                            then 1 else box_half_diagonal box))
                      (vertices_ m)).
  { unfold normalized.
    rewrite (@NormalizeModel_nonempty R (exact_FloatOps eps) m Hne).
    cbn [vertices_ set_vertices]. rewrite radius_or_one_exact. reflexivity. }
  rewrite radius_or_one_exact.
  split; [|split; [|split]].
  - destruct (Rlt_dec (box_half_diagonal box) eps); lra.
  - intros Hbig.
    destruct (Rlt_dec (box_half_diagonal box) eps) as [Hlt|_]; [lra|].
    assert (Hpos : 0 < box_half_diagonal box) by lra.
    rewrite Hnorm.
    rewrite (bounding_box_recentre_rescale (box_midpoint box) Hpos Hne).
    fold box.
    assert (Hin : forall v, In v (vertices_ m) ->
               x (fst box) <= x v <= x (snd box) /\
               y (fst box) <= y v <= y (snd box) /\
               z (fst box) <= z v <= z (snd box)).
    { intros v Hv. pose proof (bounding_box_contains _ _ Hv) as Hc.
      fold box in Hc. now destruct box. }
    destruct box as [lo hi]. cbn [fst snd] in *.
    rewrite box_half_diagonal_R in Hpos.
    set (Q := (x hi - x lo) * (x hi - x lo) + (y hi - y lo) * (y hi - y lo)
              + (z hi - z lo) * (z hi - z lo)) in *.
    assert (HQ : 0 <= Q).
    { pose proof (Rle_0_sqr (x hi - x lo)). pose proof (Rle_0_sqr (y hi - y lo)).
      pose proof (Rle_0_sqr (z hi - z lo)). unfold Rsqr in *. unfold Q. lra. }
    assert (Hq : 0 < sqrt Q) by lra.
    assert (Hqq : sqrt Q * sqrt Q = Q) by (now apply sqrt_sqrt).
    rewrite !recentre_rescale_R.
    unfold box_midpoint. cbn [x y z]. to_R.
    rewrite (box_half_diagonal_R lo hi). fold Q.
    remember (sqrt Q) as q eqn:Hqdef.
    set (s := 1 / (q * (1 / 2))).
    assert (Hs : 0 <= s) by (apply Rlt_le, Rdiv_lt_0_compat; lra).
    split; [|split].
    + f_equal; unfold s; field; lra.
    + rewrite box_half_diagonal_R. cbn [x y z].
      match goal with
      | |- sqrt ?e * _ = _ =>
          replace e with (Q * (s * s)) by (unfold Q, s; field; lra)
      end.
      rewrite sqrt_mult_alt by exact HQ.
      rewrite sqrt_square by exact Hs.
      rewrite <- Hqdef. unfold s. field. lra.
    + intros v' Hv'. apply in_map_iff in Hv'. destruct Hv' as [v [<- Hv]].
      destruct (Hin v Hv) as [Hx [Hy Hz]].
      rewrite recentre_rescale_R. cbn [x y z]. fold s.
      assert (Hss : s * s * (Q / 4) = 1) by (unfold s; rewrite <- Hqq; field; lra).
      assert (Hs0 : 0 <= s * s) by nra.
      assert (Hsum : (x v - (x lo + x hi) * (1 / 2)) * (x v - (x lo + x hi) * (1 / 2))
                     + (y v - (y lo + y hi) * (1 / 2)) * (y v - (y lo + y hi) * (1 / 2))
                     + (z v - (z lo + z hi) * (1 / 2)) * (z v - (z lo + z hi) * (1 / 2))
                     <= Q / 4) by (unfold Q; nra).
      nra.
  - intros Hsmall.
    destruct (Rlt_dec (box_half_diagonal box) eps) as [_|Hge]; [|lra].
    rewrite Hnorm. apply map_ext. intros v.
    rewrite recentre_rescale_R. apply f_equal3; field.
  - intros v0 Hall.
    assert (Hbox : box = (v0, v0)) by (now apply bounding_box_point).
    assert (Hhd : box_half_diagonal box = 0).
    { rewrite Hbox, box_half_diagonal_R.
      replace ((x v0 - x v0) * (x v0 - x v0) + (y v0 - y v0) * (y v0 - y v0)
               + (z v0 - z v0) * (z v0 - z v0)) with 0 by ring.
      rewrite sqrt_0. ring. }
    rewrite Hhd in *.
    destruct (Rlt_dec 0 eps) as [_|Hge]; [|lra].
    split; [reflexivity|].
    intros v' Hv'. rewrite Hnorm, Hbox in Hv'.
    apply in_map_iff in Hv'. destruct Hv' as [v [<- Hv]].
    rewrite (Hall v Hv), recentre_rescale_R.
    unfold box_midpoint. cbn [x y z]. to_R. f_equal; field.
Qed.

(** C3, restated.  In binary32, whatever the vertices, the divisor of
    [NormalizeModel] is not a zero: it never divides by zero.  The segment
    from (0, 0, 0) to (0.000002, 0, 0), half of whose diagonal is the 1e-6f
    of the guard, is rescaled to (-1, 0, 0), (1, 0, 0); half the diagonal
    of the normalised [cube32] is 1 - 2^-24, within 1e-6f of 1; and the
    vertex (5, 7, 9) taken twice ends at the origin.  In exact arithmetic,
    whatever positive constant the guard compares with (the code's is
    [float_1e_6]), and for every non-empty mesh: the divisor is not zero;
    when half the diagonal of the bounding box is not below the constant,
    the bounding box of the normalised vertices is centred at the origin,
    half its diagonal is 1, and every normalised vertex is within distance 1
    of the origin; when it is below the constant the vertices are recentred
    and not rescaled; when all the vertices coincide the divisor is 1 and
    every vertex ends at the origin. *)
Theorem NormalizeModel_unit_sphere :
  (forall (cosf sinf : binary32 -> binary32) (m : Model binary32),
      let O := binary32_FloatOps cosf sinf in
      Binary32.is_zero
        (radius_or_one (box_half_diagonal (bounding_box (vertices_ m)))) = false) /\
  (forall cosf sinf : binary32 -> binary32,
      let O := binary32_FloatOps cosf sinf in
      box_half_diagonal (bounding_box (vertices_ threshold_segment32)) = lit_1e_6 /\
      vertices_ (NormalizeModel threshold_segment32)
      = [mkVertex (Binary32.make (-1) 0) (Binary32.zero false) (Binary32.zero false);
         mkVertex (Binary32.make 1 0) (Binary32.zero false) (Binary32.zero false)] /\
      box_half_diagonal (bounding_box (vertices_ (NormalizeModel cube32)))
      = Binary32.make 16777215 (-24) /\
      fltb (fabs (fsub (Binary32.make 16777215 (-24)) lit_1_0)) lit_1e_6 = true /\
      vertices_ (NormalizeModel one_point_twice32)
      = [mkVertex (Binary32.zero false) (Binary32.zero false) (Binary32.zero false);
         mkVertex (Binary32.zero false) (Binary32.zero false) (Binary32.zero false)]) /\
  (forall eps : R,
      0 < eps ->
      let O := exact_FloatOps eps in
      forall m : Model R,
        vertices_ m <> [] ->
        let box := bounding_box (vertices_ m) in
        let normalized := vertices_ (NormalizeModel m) in
        radius_or_one (box_half_diagonal box) <> 0 /\
        (eps <= box_half_diagonal box ->
         box_midpoint (bounding_box normalized) = mkVertex 0 0 0 /\
         box_half_diagonal (bounding_box normalized) = 1 /\
         forall v, In v normalized -> x v * x v + y v * y v + z v * z v <= 1) /\
        (box_half_diagonal box < eps ->
         normalized
         = map (fun v => mkVertex (x v - x (box_midpoint box))
                                  (y v - y (box_midpoint box))
                                  (z v - z (box_midpoint box)))
             (vertices_ m)) /\
        (forall v0 : Vertex R,
            (forall v, In v (vertices_ m) -> v = v0) ->
            radius_or_one (box_half_diagonal box) = 1 /\
            forall v, In v normalized -> v = mkVertex 0 0 0)).
Proof.
  split; [|split].
  - intros cosf sinf m O. apply radius_or_one_binary32.
  - intros cosf sinf O. vm_compute. repeat split; reflexivity.
  - intros eps Heps O m Hne. exact (NormalizeModel_exact_unit_box m Heps Hne).
Qed.

(** The bounding box of two vertices on the X axis. *)
Lemma segment_bounding_box (a b : R) :
  a <= b ->
  bounding_box [mkVertex a 0 0; mkVertex b 0 0] = (mkVertex a 0 0, mkVertex b 0 0) /\
  box_half_diagonal (bounding_box [mkVertex a 0 0; mkVertex b 0 0]) = (b - a) / 2.
Proof.
  intros Hab.
  assert (Hbox : bounding_box [mkVertex a 0 0; mkVertex b 0 0]
                 = (mkVertex a 0 0, mkVertex b 0 0)).
  { unfold bounding_box, axis_min, axis_max. cbn [map x y z fold_left].
    rewrite !std_min_R, !std_max_R.
    now rewrite (Rmin_left a b), (Rmin_left 0 0), (Rmax_right a b), (Rmax_right 0 0)
      by lra. }
  split; [exact Hbox|].
  rewrite Hbox, box_half_diagonal_R. cbn [x y z].
  replace ((b - a) * (b - a) + (0 - 0) * (0 - 0) + (0 - 0) * (0 - 0))
    with ((b - a) * (b - a)) by ring.
  rewrite sqrt_square by lra. lra.
Qed.

Lemma two_points_half_diagonal :
  box_half_diagonal (bounding_box (vertices_ two_points)) = 1.
Proof.
  unfold two_points. cbn [vertices_].
  rewrite (proj2 (@segment_bounding_box 0 2 ltac:(lra))). lra.
Qed.



(** C3, as stated, fails in binary32, whatever the cosine and the sine are.
    The box of [tiny_cube32] is not degenerate, it is a cube of side 5e-7f,
    but half its diagonal, 15235280 * 2^-45 = 4.33e-7, is below the 1e-6f of
    the guard: the vertices are recentred and not rescaled, and half the
    diagonal stays what it was, not 1.  The box of [huge_cube32] is a cube
    of side 1e20f: the squares of its sides overflow, half the diagonal is
    +infinity, the scale factor 1/infinity is 0 and both vertices end at
    the origin.  The box of [octahedron32] is the cube from (-1, -1, -1) to
    (1, 1, 1): the six vertices end at distance 9686330 * 2^-24 = 0.577
    from the origin, which is their centroid, so the sphere about them has
    that radius, not 1; what is 1 is half the diagonal of the box.  In
    [far_point_twice32] all the vertices coincide, the sum 2^127 + 2^127 of
    the midpoint overflows, and the vertices end at x = -infinity, not at
    the origin. *)
Lemma NormalizeModel_not_unit_sphere :
  (forall cosf sinf : binary32 -> binary32,
      let O := binary32_FloatOps cosf sinf in
      bounding_box (vertices_ tiny_cube32)
      = (mkVertex (Binary32.zero false) (Binary32.zero false) (Binary32.zero false),
         mkVertex (Binary32.make 8796093 (-44)) (Binary32.make 8796093 (-44))
                  (Binary32.make 8796093 (-44))) /\
      box_half_diagonal (bounding_box (vertices_ tiny_cube32))
      = Binary32.make 15235280 (-45) /\
      vertices_ (NormalizeModel tiny_cube32)
      = [mkVertex (Binary32.make (-8796093) (-45)) (Binary32.make (-8796093) (-45))
                  (Binary32.make (-8796093) (-45));
         mkVertex (Binary32.make 8796093 (-45)) (Binary32.make 8796093 (-45))
                  (Binary32.make 8796093 (-45))] /\
      box_half_diagonal (bounding_box (vertices_ (NormalizeModel tiny_cube32)))
      = Binary32.make 15235280 (-45)) /\
  (forall cosf sinf : binary32 -> binary32,
      let O := binary32_FloatOps cosf sinf in
      box_half_diagonal (bounding_box (vertices_ huge_cube32))
      = Binary32.infinity false /\
      vertices_ (NormalizeModel huge_cube32)
      = [mkVertex (Binary32.zero true) (Binary32.zero true) (Binary32.zero true);
         mkVertex (Binary32.zero false) (Binary32.zero false) (Binary32.zero false)]) /\
  (forall cosf sinf : binary32 -> binary32,
      let O := binary32_FloatOps cosf sinf in
      bounding_box (vertices_ octahedron32)
      = (mkVertex (Binary32.make (-1) 0) (Binary32.make (-1) 0) (Binary32.make (-1) 0),
         mkVertex (Binary32.make 1 0) (Binary32.make 1 0) (Binary32.make 1 0)) /\
      vertices_ (NormalizeModel octahedron32)
      = [mkVertex (Binary32.make 9686330 (-24)) (Binary32.zero false)
                  (Binary32.zero false);
         mkVertex (Binary32.make (-9686330) (-24)) (Binary32.zero false)
                  (Binary32.zero false);
         mkVertex (Binary32.zero false) (Binary32.make 9686330 (-24))
                  (Binary32.zero false);
         mkVertex (Binary32.zero false) (Binary32.make (-9686330) (-24))
                  (Binary32.zero false);
         mkVertex (Binary32.zero false) (Binary32.zero false)
                  (Binary32.make 9686330 (-24));
         mkVertex (Binary32.zero false) (Binary32.zero false)
                  (Binary32.make (-9686330) (-24))] /\
      box_half_diagonal (bounding_box (vertices_ (NormalizeModel octahedron32)))
      = Binary32.make 16777215 (-24)) /\
  (forall cosf sinf : binary32 -> binary32,
      let O := binary32_FloatOps cosf sinf in
      vertices_ (NormalizeModel far_point_twice32)
      = [mkVertex (Binary32.infinity true) (Binary32.zero false) (Binary32.zero false);
         mkVertex (Binary32.infinity true) (Binary32.zero false)
                  (Binary32.zero false)]).
Proof.
  repeat split; vm_compute; reflexivity.
Qed.

(** In exact arithmetic with the constant of the code, [two_points] is
    normalised into the unit ball and [one_point_twice] to the origin; in
    binary32 the divisor for [one_point_twice32] is not a zero. *)
Lemma NormalizeModel_unit_sphere_witness :
  (box_midpoint
     (bounding_box (vertices_ (@NormalizeModel R (exact_FloatOps float_1e_6) two_points)))
   = mkVertex 0 0 0 /\
   box_half_diagonal
     (bounding_box (vertices_ (@NormalizeModel R (exact_FloatOps float_1e_6) two_points)))
   = 1 /\
   forall v,
     In v (vertices_ (@NormalizeModel R (exact_FloatOps float_1e_6) two_points)) ->
     x v * x v + y v * y v + z v * z v <= 1) /\
  (forall v,
      In v (vertices_ (@NormalizeModel R (exact_FloatOps float_1e_6) one_point_twice)) ->
      v = mkVertex 0 0 0) /\
  (forall cosf sinf : binary32 -> binary32,
      Binary32.is_zero
        (@radius_or_one binary32 (binary32_FloatOps cosf sinf)
           (@box_half_diagonal binary32 (binary32_FloatOps cosf sinf)
              (@bounding_box binary32 (binary32_FloatOps cosf sinf)
                 (vertices_ one_point_twice32)))) = false).
Proof.
  assert (Heps : 0 < float_1e_6) by (unfold float_1e_6; lra).
  pose proof (proj2 (proj2 NormalizeModel_unit_sphere) float_1e_6 Heps) as Hexact.
  cbv zeta in Hexact.
  split; [|split].
  - refine (proj1 (proj2 (Hexact two_points _)) _).
    + discriminate.
    + change (float_1e_6 <= box_half_diagonal (bounding_box (vertices_ two_points))).
      rewrite two_points_half_diagonal. unfold float_1e_6. lra.
  - refine (proj2 (proj2 (proj2 (proj2 (Hexact one_point_twice _)))
                     (mkVertex 5 7 9) _)).
    + discriminate.
    + intros v [<- | [<- | []]]; reflexivity.
  - intros cosf sinf.
    exact (proj1 NormalizeModel_unit_sphere cosf sinf one_point_twice32).
Defined.

Local Close Scope R_scope.

(** ** Validity of a polygon, spelled out *)

Lemma N_ltb_irrefl (a : N) : (a <? a) = false.
Proof. apply N.ltb_irrefl. Qed.

Lemma N_ltb_trans (a b c : N) : (a <? b) = true -> (b <? c) = true -> (a <? c) = true.
Proof. rewrite !N.ltb_lt. lia. Qed.

Lemma N_ltb_total (a b : N) : (a <? b) = false -> (b <? a) = false -> a = b.
Proof. rewrite !N.ltb_ge. lia. Qed.

(** The set of indices seen, when no index is out of range. *)
Lemma Polygon_IsValid_loop_spec (n : N) (idxs u : list N) :
  match Polygon_IsValid_loop n idxs u with
  | Some s =>
      (forall idx, In idx idxs -> idx < n) /\
      (forall e, In e s <-> In e idxs \/ In e u) /\
      (increasing N.ltb u -> increasing N.ltb s)
  | None => exists idx, In idx idxs /\ n <= idx
  end.
Proof.
  revert u. induction idxs as [|idx rest IH]; intros u; cbn [Polygon_IsValid_loop].
  - split; [intros ? []|]. split; [intros e; simpl; tauto|auto].
  - destruct (n <=? idx) eqn:E.
    + apply N.leb_le in E. exists idx. split; [now left|exact E].
    + apply N.leb_gt in E. specialize (IH (StdSet.insert N.ltb idx u)).
      destruct (Polygon_IsValid_loop n rest (StdSet.insert N.ltb idx u)) as [s|].
      * destruct IH as [Hr [Hin Hinc]]. split; [|split].
        -- intros i [<- | Hi]; auto.
        -- intros e. rewrite Hin, (@insert_In _ N.ltb N_ltb_total). simpl. intuition congruence.
        -- intros Hu. apply Hinc.
           apply insert_increasing; [exact N_ltb_trans|exact N_ltb_total|exact Hu].
      * destruct IH as [i [Hi Hle]]. exists i. split; [now right|exact Hle].
Qed.

(** A duplicate-free list has three elements or more exactly when three
    different elements occur in it. *)
Lemma three_distinct (s : list N) :
  NoDup s ->
  (3 <= size s <->
   exists a b c, In a s /\ In b s /\ In c s /\ a <> b /\ a <> c /\ b <> c).
Proof.
  intros Hs. unfold size. split.
  - destruct s as [|a [|b [|c s]]]; simpl; try lia. intros _.
    inversion Hs as [|? ? Ha Hs1]; subst. inversion Hs1 as [|? ? Hb Hs2]; subst.
    exists a, b, c. simpl in *. intuition congruence.
  - intros [a [b [c [Ha [Hb [Hc [Hab [Hac Hbc]]]]]]]].
    assert (Hl : (List.length [a; b; c] <= List.length s)%nat).
    { apply NoDup_incl_length.
      - repeat constructor; simpl; intuition congruence.
      - intros e [<- | [<- | [<- | []]]]; assumption. }
    simpl in Hl. lia.
Qed.

Lemma Polygon_IsValid_in_range (p : Polygon) (n idx : N) :
  Polygon_IsValid p n = true -> In idx (vertex_indices p) -> idx < n.
Proof.
  unfold Polygon_IsValid. intros Hv Hin.
  pose proof (Polygon_IsValid_loop_spec n (vertex_indices p) []) as Hl.
  destruct (size (vertex_indices p) <? 3); [discriminate|].
  destruct (Polygon_IsValid_loop n (vertex_indices p) []); [|discriminate].
  now apply Hl.
Qed.

Lemma Polygon_IsValid_spec (p : Polygon) (max_vertex_index : N) :
  Polygon_IsValid p max_vertex_index = true <->
  (forall idx, In idx (vertex_indices p) -> idx < max_vertex_index) /\
  exists a b c,
    In a (vertex_indices p) /\ In b (vertex_indices p) /\ In c (vertex_indices p) /\
    a <> b /\ a <> c /\ b <> c.
Proof.
  unfold Polygon_IsValid.
  pose proof (Polygon_IsValid_loop_spec max_vertex_index (vertex_indices p) []) as Hl.
  destruct (Polygon_IsValid_loop max_vertex_index (vertex_indices p) []) as [s|].
  - destruct Hl as [Hr [Hin Hinc]].
    assert (Hnd : NoDup s).
    { apply increasing_NoDup with (ltb := N.ltb); [exact N_ltb_irrefl|].
      apply Hinc. constructor. }
    assert (Hsame : forall e, In e s <-> In e (vertex_indices p)).
    { intros e. rewrite Hin. simpl. tauto. }
    assert (Hlen : 3 <= size s -> 3 <= size (vertex_indices p)).
    { unfold size. intros H3.
      assert ((List.length s <= List.length (vertex_indices p))%nat); [|lia].
      apply NoDup_incl_length; [exact Hnd|]. intros e He. now apply Hsame. }
    destruct (size (vertex_indices p) <? 3) eqn:E3.
    + apply N.ltb_lt in E3. split; [discriminate|].
      intros [_ H3]. exfalso.
      assert (3 <= size s); [|lia].
      apply (three_distinct Hnd).
      destruct H3 as [a [b [c H3]]]. exists a, b, c. rewrite !Hsame. exact H3.
    + rewrite N.leb_le, (three_distinct Hnd). split.
      * intros [a [b [c H3]]]. split; [exact Hr|]. exists a, b, c.
        rewrite <- !Hsame. exact H3.
      * intros [_ [a [b [c H3]]]]. exists a, b, c. rewrite !Hsame. exact H3.
  - destruct Hl as [idx [Hi Hle]].
    destruct (size (vertex_indices p) <? 3); (split; [discriminate|]);
      intros [Hr _]; specialize (Hr _ Hi); lia.
Qed.

(** X1.  [Polygon::IsValid] holds exactly when every index is below
    [max_vertex_index] and three different indices occur among them. *)
Theorem Polygon_IsValid_iff (p : Polygon) (max_vertex_index : N) :
  Polygon_IsValid p max_vertex_index = true <->
  (forall idx, In idx (vertex_indices p) -> idx < max_vertex_index) /\
  exists a b c,
    In a (vertex_indices p) /\ In b (vertex_indices p) /\ In c (vertex_indices p) /\
    a <> b /\ a <> c /\ b <> c.
Proof. apply Polygon_IsValid_spec. Qed.

(** ** More on the edges *)

Lemma GetEdges_member {F : Type} (m : Model F) (e : N * N) :
  In e (GetEdges m) <->
  exists poly a b,
    In poly (polygons_ m) /\
    In (a, b) (consecutive_pairs (vertex_indices poly)) /\
    a <> b /\ e = unordered a b.
Proof.
  rewrite GetEdges_fold.
  assert (Hgen : forall polys acc,
             In e (fold_left
                     (fun acc poly =>
                        fold_left add_edge
                          (consecutive_pairs (vertex_indices poly)) acc)
                     polys acc) <->
             In e acc \/
             exists poly a b,
               In poly polys /\
               In (a, b) (consecutive_pairs (vertex_indices poly)) /\
               a <> b /\ e = unordered a b).
  { induction polys as [|poly polys IH]; intros acc; simpl.
    - split; [auto|]. intros [H | [poly [a [b [[] _]]]]]. exact H.
    - rewrite IH, fold_add_edge_In. split.
      + intros [[H | [a [b H]]] | [poly' [a [b [Hp H]]]]]; eauto 10.
      + intros [H | [poly' [a [b [[<- | Hp] H]]]]]; eauto 10. }
  rewrite Hgen. simpl. tauto.
Qed.

Lemma consecutive_pairs_In (l : list N) (a b : N) :
  In (a, b) (consecutive_pairs l) -> In a l /\ In b l.
Proof.
  unfold consecutive_pairs. intros H. split.
  - eapply in_combine_l; exact H.
  - apply in_combine_r in H. apply in_app_or in H. destruct H as [H | H].
    + destruct l; [destruct H|]. now right.
    + destruct l; [destruct H|]. destruct H as [<- | []]. now left.
Qed.

(** Two strictly increasing lists with the same elements are the same
    list. *)
Lemma increasing_ext {A : Type} (ltb : A -> A -> bool) (s s' : list A) :
  (forall a, ltb a a = false) ->
  (forall a b c, ltb a b = true -> ltb b c = true -> ltb a c = true) ->
  increasing ltb s -> increasing ltb s' ->
  (forall e, In e s <-> In e s') -> s = s'.
Proof.
  intros Hirr Htr. unfold increasing. revert s'.
  induction s as [|x s IH]; intros [|y s'] Hs Hs' Hin.
  - reflexivity.
  - exfalso. apply (Hin y). now left.
  - exfalso. apply (Hin x). now left.
  - inversion Hs as [|? ? Hs1 Hx]; subst. inversion Hs' as [|? ? Hs1' Hy]; subst.
    rewrite Forall_forall in Hx, Hy.
    assert (Exy : x = y).
    { destruct (proj1 (Hin x) (or_introl eq_refl)) as [E | Hxs']; [now symmetry|].
      destruct (proj2 (Hin y) (or_introl eq_refl)) as [E | Hys]; [exact E|].
      specialize (Hx _ Hys). specialize (Hy _ Hxs').
      pose proof (Htr _ _ _ Hx Hy) as C. rewrite Hirr in C. discriminate. }
    subst y. f_equal. apply IH; [exact Hs1|exact Hs1'|].
    intros e. split; intros He.
    + destruct (proj1 (Hin e) (or_intror He)) as [E | H]; [|exact H].
      subst e. specialize (Hx _ He). rewrite Hirr in Hx. discriminate.
    + destruct (proj2 (Hin e) (or_intror He)) as [E | H]; [|exact H].
      subst e. specialize (Hy _ He). rewrite Hirr in Hy. discriminate.
Qed.

Lemma insert_length {A : Type} (ltb : A -> A -> bool) (x : A) (s : list A) :
  (List.length (StdSet.insert ltb x s) <= S (List.length s))%nat.
Proof.
  induction s as [|y s IH]; simpl; [lia|].
  destruct (ltb x y); simpl; [lia|]. destruct (ltb y x); simpl; lia.
Qed.

Lemma fold_add_edge_length (ps acc : list (N * N)) :
  (List.length (fold_left add_edge ps acc) <= List.length ps + List.length acc)%nat.
Proof.
  revert acc. induction ps as [|[a b] ps IH]; intros acc;
    cbn [fold_left List.length]; [lia|].
  specialize (IH (add_edge acc (a, b))).
  assert ((List.length (add_edge acc (a, b)) <= S (List.length acc))%nat); [|lia].
  unfold add_edge. destruct (a =? b); [lia|]. apply insert_length.
Qed.

(** The pairs of consecutive indices of the reversed list are those of the
    list, each one swapped. *)
Lemma consecutive_pairs_cons (a0 : N) (l : list N) :
  consecutive_pairs (a0 :: l) = combine (a0 :: l) (l ++ [a0]).
Proof. reflexivity. Qed.

Lemma combine_shift_In (l : list N) (c z a b : N) :
  In (a, b) (combine (c :: l) (l ++ [z])) <->
  (exists l1 l2, c :: l = l1 ++ a :: b :: l2)%list \/
  (b = z /\ exists l0, c :: l = l0 ++ [a])%list.
Proof.
  revert c. induction l as [|d l IH]; intros c.
  - simpl. split.
    + intros [[= <- <-] | []]. right. split; [reflexivity|]. now exists [].
    + intros [[l1 [l2 H]] | [-> [l0 H]]].
      * destruct l1 as [|? [|? ?]]; simpl in H; discriminate.
      * destruct l0 as [|? [|? ?]]; simpl in H; try discriminate.
        injection H as <-. now left.
  - change (combine (c :: d :: l) ((d :: l) ++ [z]))%list
      with ((c, d) :: combine (d :: l) (l ++ [z]))%list.
    cbn [In]. rewrite IH. split.
    + intros [[= <- <-] | [[l1 [l2 E]] | [-> [l0 E]]]].
      * left. now exists [], l.
      * left. exists (c :: l1), l2. simpl. now rewrite <- E.
      * right. split; [reflexivity|]. exists (c :: l0). simpl. now rewrite <- E.
    + intros [[l1 [l2 E]] | [-> [l0 E]]].
      * destruct l1 as [|h l1]; simpl in E.
        -- injection E as <- <- _. now left.
        -- injection E as _ E. right. left. now exists l1, l2.
      * right. right. split; [reflexivity|].
        destruct l0 as [|h l0]; simpl in E; [discriminate|].
        injection E as _ E. now exists l0.
Qed.

Lemma consecutive_pairs_In_iff (l : list N) (a b : N) :
  In (a, b) (consecutive_pairs l) <->
  (exists l1 l2, l = l1 ++ a :: b :: l2)%list \/
  ((exists l0, l = l0 ++ [a])%list /\ exists l0, l = b :: l0).
Proof.
  destruct l as [|c l].
  - simpl. split; [intros []|].
    intros [[l1 [l2 E]] | [_ [l0 E]]]; [destruct l1|]; discriminate.
  - change (consecutive_pairs (c :: l)) with (combine (c :: l) (l ++ [c]))%list.
    rewrite combine_shift_In. split.
    + intros [H | [-> H]]; [now left|]. right. split; [exact H|]. now exists l.
    + intros [H | [H [l0 [= -> _]]]]; [now left|]. right. now split.
Qed.

Lemma consecutive_pairs_rev_In (l : list N) (a b : N) :
  In (a, b) (consecutive_pairs l) -> In (b, a) (consecutive_pairs (rev l)).
Proof.
  rewrite !consecutive_pairs_In_iff.
  intros [[l1 [l2 ->]] | [[l0 E0] [l0' E0']]].
  - left. exists (rev l2), (rev l1).
    rewrite rev_app_distr. simpl. now rewrite <- !app_assoc.
  - right. split.
    + exists (rev l0'). rewrite E0'. reflexivity.
    + exists (rev l0). rewrite E0, rev_app_distr. reflexivity.
Qed.

Lemma consecutive_pairs_rev (l : list N) (a b : N) :
  In (a, b) (consecutive_pairs (rev l)) <-> In (b, a) (consecutive_pairs l).
Proof.
  split; intros H.
  - apply consecutive_pairs_rev_In in H. now rewrite rev_involutive in H.
  - now apply consecutive_pairs_rev_In.
Qed.

Lemma unordered_comm (a b : N) : unordered a b = unordered b a.
Proof. unfold unordered. now rewrite N.min_comm, N.max_comm. Qed.

(** The edges depend on the set of unordered pairs of consecutive indices
    only. *)
Lemma GetEdges_ext {F G : Type} (m : Model F) (m' : Model G) :
  (forall e, In e (GetEdges m) <-> In e (GetEdges m')) -> GetEdges m = GetEdges m'.
Proof.
  apply increasing_ext with (ltb := StdSet.pair_ltb);
    [exact pair_ltb_irrefl|exact pair_ltb_trans| |]; apply GetEdges_increasing.
Qed.

Lemma GetEdges_below {F : Type} (m : Model F) (a b : N) :
  IsValid m = true -> In (a, b) (GetEdges m) -> a < b /\ b < GetVertexCount m.
Proof.
  intros Hv Hin. unfold IsValid in Hv.
  destruct (vertices_ m) as [|v0 vs] eqn:Ev; [discriminate|].
  rewrite forallb_forall in Hv.
  apply GetEdges_member in Hin.
  destruct Hin as [poly [a' [b' [Hp [Hc [Hne Heq]]]]]].
  specialize (Hv _ Hp).
  apply consecutive_pairs_In in Hc. destruct Hc as [Ha Hb].
  apply (@Polygon_IsValid_in_range _ _ _ Hv) in Ha.
  apply (@Polygon_IsValid_in_range _ _ _ Hv) in Hb.
  unfold unordered in Heq. injection Heq as -> ->.
  unfold GetVertexCount. rewrite Ev. lia.
Qed.

(** X2.  Every edge of a valid model joins two different vertices of the
    buffer: both indices are below the number of vertices, the smaller one
    first. *)
Theorem GetEdges_in_range {F : Type} (m : Model F) :
  IsValid m = true ->
  forall a b, In (a, b) (GetEdges m) -> a < b /\ b < GetVertexCount m.
Proof. intros Hv a b. now apply GetEdges_below. Qed.

Lemma GetEdges_in_range_witness :
  IsValid (set_polygons three_vertices [mkPolygon [0; 1; 2]]) = true /\
  0 < 2 /\ 2 < GetVertexCount (set_polygons three_vertices [mkPolygon [0; 1; 2]]).
Proof.
  split; [reflexivity|].
  apply (@GetEdges_in_range _ (set_polygons three_vertices [mkPolygon [0; 1; 2]])
           eq_refl 0 2).
  right. left. reflexivity.
Defined.

(** X3.  The vector [GetEdges] returns is in strictly increasing
    lexicographic order, and holds at most one pair per index of a
    polygon. *)
Theorem GetEdges_sorted_and_bounded {F : Type} (m : Model F) :
  StronglySorted
    (fun e e' : N * N => fst e < fst e' \/ (fst e = fst e' /\ snd e < snd e'))
    (GetEdges m) /\
  GetEdgeCount m
  <= fold_right (fun poly n => size (vertex_indices poly) + n) 0 (polygons_ m).
Proof.
  split.
  - pose proof (GetEdges_increasing m) as H. unfold increasing in H.
    induction H as [|e s Hs IH Hall]; constructor; [exact IH|].
    rewrite Forall_forall in *. intros e' He'. apply pair_ltb_spec. now apply Hall.
  - unfold GetEdgeCount. rewrite GetEdges_fold.
    assert (Hgen : forall polys acc,
               size (fold_left
                       (fun acc poly =>
                          fold_left add_edge
                            (consecutive_pairs (vertex_indices poly)) acc)
                       polys acc)
               <= fold_right (fun poly n => size (vertex_indices poly) + n) 0 polys
                  + size acc).
    { induction polys as [|poly polys IH]; intros acc; cbn [fold_left fold_right].
      - lia.
      - specialize (IH (fold_left add_edge
                          (consecutive_pairs (vertex_indices poly)) acc)).
        pose proof (fold_add_edge_length
                      (consecutive_pairs (vertex_indices poly)) acc) as Hl.
        rewrite consecutive_pairs_length in Hl. unfold size in *. lia. }
    specialize (Hgen (polygons_ m) []). unfold size in *. simpl in Hgen. lia.
Qed.

(** X4.  Reversing the winding of any of the polygons and reordering the
    polygons leaves the vector of edges as it is. *)
Theorem GetEdges_winding_and_order {F G : Type} (m : Model F) (m' : Model G)
    (ps : list Polygon) :
  Forall2 (fun p p' => vertex_indices p' = vertex_indices p \/
                       vertex_indices p' = rev (vertex_indices p))
    (polygons_ m) ps ->
  Permutation ps (polygons_ m') ->
  GetEdges m' = GetEdges m.
Proof.
  intros Hrel Hperm. apply GetEdges_ext. intros e. rewrite !GetEdges_member.
  assert (Hpoly : forall p p',
             (vertex_indices p' = vertex_indices p \/
              vertex_indices p' = rev (vertex_indices p)) ->
             (exists a b, In (a, b) (consecutive_pairs (vertex_indices p)) /\
                          a <> b /\ e = unordered a b) <->
             (exists a b, In (a, b) (consecutive_pairs (vertex_indices p')) /\
                          a <> b /\ e = unordered a b)).
  { intros p p' [-> | ->]; [tauto|]. split; intros [a [b [Hin [Hne ->]]]].
    - exists b, a. rewrite consecutive_pairs_rev, unordered_comm. auto.
    - exists b, a. rewrite consecutive_pairs_rev in Hin.
      rewrite unordered_comm. auto. }
  assert (Hmid : (exists poly a b,
                     In poly ps /\
                     In (a, b) (consecutive_pairs (vertex_indices poly)) /\
                     a <> b /\ e = unordered a b) <->
                 (exists poly a b,
                     In poly (polygons_ m) /\
                     In (a, b) (consecutive_pairs (vertex_indices poly)) /\
                     a <> b /\ e = unordered a b)).
  { clear Hperm. induction Hrel as [|p p' l l' Hpp _ IH].
    - split; intros [poly [a [b [[] _]]]].
    - split.
      + intros [poly [a [b [[<- | Hp] H]]]].
        * destruct (proj2 (Hpoly _ _ Hpp) (ex_intro _ a (ex_intro _ b H)))
            as [a' [b' H']].
          exists p, a', b'. split; [now left|exact H'].
        * destruct (proj1 IH (ex_intro _ poly (ex_intro _ a (ex_intro _ b (conj Hp H)))))
            as [poly' [a' [b' [Hp' H']]]].
          exists poly', a', b'. split; [now right|exact H'].
      + intros [poly [a [b [[<- | Hp] H]]]].
        * destruct (proj1 (Hpoly _ _ Hpp) (ex_intro _ a (ex_intro _ b H)))
            as [a' [b' H']].
          exists p', a', b'. split; [now left|exact H'].
        * destruct (proj2 IH (ex_intro _ poly (ex_intro _ a (ex_intro _ b (conj Hp H)))))
            as [poly' [a' [b' [Hp' H']]]].
          exists poly', a', b'. split; [now right|exact H']. }
  rewrite <- Hmid. split; intros [poly [a [b [Hp H]]]]; exists poly, a, b;
    (split; [|exact H]).
  - eapply Permutation_in; [apply Permutation_sym; exact Hperm|exact Hp].
  - eapply Permutation_in; [exact Hperm|exact Hp].
Qed.

Lemma GetEdges_winding_and_order_witness :
  GetEdges (set_polygons three_vertices [mkPolygon [1; 0; 2]; mkPolygon [2; 1; 0]])
  = GetEdges (set_polygons three_vertices [mkPolygon [0; 1; 2]; mkPolygon [1; 0; 2]]).
Proof.
  apply (@GetEdges_winding_and_order _ _
           (set_polygons three_vertices [mkPolygon [0; 1; 2]; mkPolygon [1; 0; 2]])
           (set_polygons three_vertices [mkPolygon [1; 0; 2]; mkPolygon [2; 1; 0]])
           [mkPolygon [2; 1; 0]; mkPolygon [1; 0; 2]]).
  - constructor; [right; reflexivity|]. constructor; [left; reflexivity|]. constructor.
  - apply perm_swap.
Defined.

(** ** Transforms keep the mesh as it is *)

Lemma IsValid_set_vertices {F : Type} (m : Model F) (vs : list (Vertex F)) :
  List.length vs = List.length (vertices_ m) ->
  IsValid (set_vertices m vs) = IsValid m.
Proof.
  intros Hl. unfold IsValid, set_vertices, size. cbn [vertices_ polygons_].
  rewrite Hl. destruct vs, (vertices_ m); try discriminate; reflexivity.
Qed.

Lemma GetEdges_set_vertices {F : Type} (m : Model F) (vs : list (Vertex F)) :
  GetEdges (set_vertices m vs) = GetEdges m.
Proof. reflexivity. Qed.

Lemma on_vertices_same_mesh {F : Type} `{FloatOps F}
    (f : list (Vertex F) -> list (Vertex F)) (m : Model F) :
  List.length (f (vertices_ m)) = List.length (vertices_ m) ->
  exists m', on_vertices f (mkModelManager (Some m)) = mkModelManager (Some m') /\
    GetVertexCount m' = GetVertexCount m /\ GetEdges m' = GetEdges m /\
    IsValid m' = IsValid m.
Proof.
  intros Hl. exists (set_vertices m (f (vertices_ m))).
  split; [reflexivity|]. split; [|split].
  - unfold GetVertexCount, size. cbn [set_vertices vertices_]. now rewrite Hl.
  - reflexivity.
  - now apply IsValid_set_vertices.
Qed.

Lemma NormalizeModel_same_mesh {F : Type} `{FloatOps F} (m : Model F) :
  GetVertexCount (NormalizeModel m) = GetVertexCount m /\
  GetEdges (NormalizeModel m) = GetEdges m /\
  IsValid (NormalizeModel m) = IsValid m.
Proof.
  unfold NormalizeModel. destruct (vertices_ m) as [|v0 vs] eqn:Ev; [auto|].
  rewrite <- Ev. split; [|split].
  - unfold GetVertexCount, size. cbn [set_vertices vertices_]. now rewrite length_map.
  - reflexivity.
  - apply IsValid_set_vertices. apply length_map.
Qed.

Lemma Move_same_mesh {F : Type} `{FloatOps F} (cmd : MoveCommand F) (m : Model F) :
  exists m', Execute cmd (mkModelManager (Some m)) = mkModelManager (Some m') /\
    GetVertexCount m' = GetVertexCount m /\ GetEdges m' = GetEdges m /\
    IsValid m' = IsValid m.
Proof. apply on_vertices_same_mesh. apply length_map. Qed.

Lemma Rotate_same_mesh {F : Type} `{FloatOps F} (cmd : RotateCommand F) (m : Model F) :
  exists m', Execute cmd (mkModelManager (Some m)) = mkModelManager (Some m') /\
    GetVertexCount m' = GetVertexCount m /\ GetEdges m' = GetEdges m /\
    IsValid m' = IsValid m.
Proof. apply on_vertices_same_mesh. unfold RotateVertices. apply length_map. Qed.

Lemma Scale_same_mesh {F : Type} `{FloatOps F} (cmd : ScaleCommand F) (m : Model F) :
  exists m', Execute cmd (mkModelManager (Some m)) = mkModelManager (Some m') /\
    GetVertexCount m' = GetVertexCount m /\ GetEdges m' = GetEdges m /\
    IsValid m' = IsValid m.
Proof.
  cbn [Execute ScaleCommand_Command].
  destruct (fleb (factor_ cmd) lit_0_0).
  - exists m. auto.
  - apply on_vertices_same_mesh. apply length_map.
Qed.

(** X5.  No transform command and no normalisation changes the number of
    vertices, the edges, or the validity of the model. *)
Theorem transforms_keep_count_edges_validity :
  forall (F : Type) (O : FloatOps F) (m : Model F),
    let kept (m' : Model F) :=
      GetVertexCount m' = GetVertexCount m /\ GetEdges m' = GetEdges m /\
      IsValid m' = IsValid m in
    (forall cmd : MoveCommand F,
        exists m', Execute cmd (mkModelManager (Some m)) = mkModelManager (Some m') /\
                   kept m') /\
    (forall cmd : RotateCommand F,
        exists m', Execute cmd (mkModelManager (Some m)) = mkModelManager (Some m') /\
                   kept m') /\
    (forall cmd : ScaleCommand F,
        exists m', Execute cmd (mkModelManager (Some m)) = mkModelManager (Some m') /\
                   kept m') /\
    kept (NormalizeModel m).
Proof.
  intros F O m kept. unfold kept. split; [|split; [|split]].
  - intros cmd. apply Move_same_mesh.
  - intros cmd. apply Rotate_same_mesh.
  - intros cmd. apply Scale_same_mesh.
  - apply NormalizeModel_same_mesh.
Qed.

(** ** Face records, accepted or not *)

Lemma rejected_index_false (vertex_count : N) (token : string) :
  rejected_index vertex_count token = false ->
  index_of_token token < vertex_count.
Proof.
  unfold rejected_index, index_of_token.
  destruct (Libc.stoul (Text.before_slash token)) as [idx| |]; try discriminate.
  rewrite orb_false_iff, N.eqb_neq, N.ltb_ge. lia.
Qed.

Lemma existsb_false_iff {A : Type} (f : A -> bool) (l : list A) :
  existsb f l = false <-> forall a, In a l -> f a = false.
Proof.
  induction l as [|a l IH]; simpl.
  - split; [intros _ ? []|reflexivity].
  - rewrite orb_false_iff, IH. split.
    + intros [Ha Hl] b [<- | Hb]; auto.
    + intros H. split; [apply H; now left|]. intros b Hb. apply H. now right.
Qed.

(** X19.  A face record yields a polygon exactly when none of its tokens
    is rejected (each converts to an index between 1 and the number of
    vertices read so far) and three of the tokens stand for three
    different indices; the polygon then holds the index of every token, in
    order.  When no token is rejected but fewer than three different
    indices occur, the record is dropped without any error; in every case
    in which no polygon is appended the model is left as it was. *)
Theorem ParsePolygon_returns_true_iff :
  forall (F : Type) (line : string) (m : Model F),
    let tokens := Text.words (Text.substr_from 2 line) in
    let n := size (vertices_ m) in
    let accepted :=
      (forall t, In t tokens -> rejected_index n t = false) /\
      exists a b c,
        In a tokens /\ In b tokens /\ In c tokens /\
        index_of_token a <> index_of_token b /\
        index_of_token a <> index_of_token c /\
        index_of_token b <> index_of_token c in
    (fst (ParsePolygon line m) = Returned true <-> accepted) /\
    (accepted ->
     ParsePolygon line m
     = (Returned true,
        set_polygons m (polygons_ m ++ [mkPolygon (map index_of_token tokens)]))) /\
    ((forall t, In t tokens -> rejected_index n t = false) -> ~ accepted ->
     ParsePolygon line m = (Returned false, m)) /\
    (fst (ParsePolygon line m) <> Returned true -> snd (ParsePolygon line m) = m).
Proof.
  intros F line m tokens n accepted.
  destruct (ParsePolygon_indices line m) as [Hrej Hacc].
  fold tokens n in Hrej, Hacc. cbv zeta in Hacc.
  assert (Hvalid : (forall t, In t tokens -> rejected_index n t = false) ->
                   (Polygon_IsValid (mkPolygon (map index_of_token tokens)) n = true
                    <-> accepted)).
  { intros Hall. rewrite Polygon_IsValid_spec. cbn [vertex_indices]. unfold accepted.
    split.
    - intros [_ [a [b [c [Ha [Hb [Hc Hd]]]]]]]. split; [exact Hall|].
      apply in_map_iff in Ha, Hb, Hc.
      destruct Ha as [ta [<- Ha]], Hb as [tb [<- Hb]], Hc as [tc [<- Hc]].
      now exists ta, tb, tc.
    - intros [_ [ta [tb [tc [Ha [Hb [Hc Hd]]]]]]]. split.
      + intros idx Hidx. apply in_map_iff in Hidx. destruct Hidx as [t [<- Ht]].
        apply rejected_index_false. now apply Hall.
      + exists (index_of_token ta), (index_of_token tb), (index_of_token tc).
        repeat split; try apply in_map; tauto. }
  destruct (existsb (rejected_index n) tokens) eqn:Ex.
  - destruct (Hrej eq_refl) as [token [Hin [Hr E]]]. rewrite E. cbn [fst snd].
    assert (Hno : ~ accepted).
    { intros [Hall _]. rewrite (Hall _ Hin) in Hr. discriminate. }
    split; [split; [discriminate|tauto]|]. split; [tauto|]. split; [|reflexivity].
    intros Hall. rewrite (Hall _ Hin) in Hr. discriminate.
  - specialize (Hacc eq_refl). rewrite Hacc.
    pose proof (proj1 (existsb_false_iff _ _) Ex) as Hall.
    specialize (Hvalid Hall).
    destruct (Polygon_IsValid (mkPolygon (map index_of_token tokens)) n) eqn:Ev;
      cbn [fst snd].
    + assert (Ha : accepted) by (now apply Hvalid).
      split; [tauto|]. split; [reflexivity|]. split; [tauto|]. congruence.
    + assert (Hno : ~ accepted) by (intros Ha; apply Hvalid in Ha; discriminate).
      split; [split; [discriminate|tauto]|]. split; [tauto|].
      split; reflexivity.
Qed.

Lemma ParsePolygon_returns_true_iff_witness :
  ParsePolygon "f 1/1/1 2/2/2 3/3/3" three_vertices
  = (Returned true, set_polygons three_vertices [mkPolygon [0; 1; 2]]) /\
  ParsePolygon "f 1 1 2" three_vertices = (Returned false, three_vertices).
Proof.
  split.
  - apply (proj1 (proj2 (@ParsePolygon_returns_true_iff decimal "f 1/1/1 2/2/2 3/3/3"
                           three_vertices))).
    split.
    + intros t [<- | [<- | [<- | []]]]; reflexivity.
    + exists "1/1/1", "2/2/2", "3/3/3". cbn. repeat split; auto; discriminate.
  - apply (proj1 (proj2 (proj2 (@ParsePolygon_returns_true_iff decimal "f 1 1 2"
                                   three_vertices)))).
    + intros t [<- | [<- | [<- | []]]]; reflexivity.
    + intros [_ [a [b [c [Ha [Hb [Hc [Hab [Hac Hbc]]]]]]]]].
      cbn in Ha, Hb, Hc.
      destruct Ha as [<- | [<- | [<- | []]]]; destruct Hb as [<- | [<- | [<- | []]]];
        destruct Hc as [<- | [<- | [<- | []]]];
        first [now apply Hab | now apply Hac | now apply Hbc].
Defined.

(** ** The vertex buffer after a load *)

Section LoaderLemmas.
Context {F : Type}.
Variable strtof : string -> option (F * string).

Lemma load_line_vertices (line_num : N) (line : string) (st : bool * Model F) :
  vertices_ (snd (load_line strtof line_num line st))
  = (vertices_ (snd st) ++ vertex_of_line strtof line)%list.
Proof.
  destruct st as [hvd m]. unfold load_line, vertex_of_line. cbn [snd].
  destruct (Text.ltrim line) as [|c l] eqn:El.
  { cbn. now rewrite app_nil_r. }
  set (attempt := if Text.starts_with (String c l) "v " then _ else _).
  assert (Hatt : vertices_ (snd
            match attempt m with
            | (Returned true, m') => (true, m')
            | (Returned false, m') => (hvd, m')
            | (Thrown what, m') =>
                (hvd, SetError m' kInvalidData
                        ("Error at line " ++ Text.to_string line_num ++ ": " ++ what))
            end)
          = (vertices_ m ++
             (if Text.starts_with (String c l) "v "
              then match Libc.sscanf_v_fff strtof (Text.c_str (String c l)) with
                   | Libc.Scan3 a b c0 => [mkVertex a b c0]
                   | _ => []
                   end
              else []))%list).
  { subst attempt.
    destruct (Text.starts_with (String c l) "v ").
    - unfold ParseVertex.
      destruct (Libc.sscanf_v_fff strtof (Text.c_str (String c l)));
        cbn; now rewrite ?app_nil_r.
    - rewrite app_nil_r. destruct (Text.starts_with (String c l) "f ").
      + destruct (ParsePolygon_cases (String c l) m)
          as [[p [Hp ->]] | [-> | [what ->]]]; reflexivity.
      + reflexivity. }
  destruct c as [[] [] [] [] [] [] [] []]; exact Hatt.
Qed.

Lemma load_lines_vertices (lines : list string) (line_num : N) (st : bool * Model F) :
  vertices_ (snd (load_lines strtof lines line_num st))
  = (vertices_ (snd st) ++ flat_map (vertex_of_line strtof) lines)%list.
Proof.
  revert line_num st. induction lines as [|line rest IH]; intros line_num st;
    cbn [load_lines flat_map].
  - now rewrite app_nil_r.
  - now rewrite IH, load_line_vertices, <- app_assoc.
Qed.
End LoaderLemmas.

Lemma LoadFromFile_opened_vertices {F : Type} (strtof : string -> option (F * string))
    (fs : filesystem) (m0 : Model F) (path content : string) :
  fs path = Some content ->
  vertices_ (snd (LoadFromFile strtof fs m0 path))
  = flat_map (vertex_of_line strtof) (Text.getlines content).
Proof.
  intros Hfs.
  rewrite LoadFromFile_unfold, Hfs. cbv zeta.
  pose proof (load_lines_vertices strtof (Text.getlines content) 0
                (false, cleared m0 path)) as Hv.
  cbn [snd cleared set_path_file set_polygons set_vertices vertices_ app] in Hv.
  destruct (negb (fst _)); [exact Hv|].
  destruct (negb (IsValid _)); exact Hv.
Qed.

(** X6.  The vertex buffer after a load is made of the vertex records of the
    file on which [sscanf] converts three numbers, in the order of the
    file; no other line adds, removes or changes a vertex. *)
Theorem LoadFromFile_vertices :
  forall (F : Type) (strtof : string -> option (F * string))
         (fs : filesystem) (m0 : Model F) (path content : string),
    fs path = Some content ->
    GetVertices (snd (LoadFromFile strtof fs m0 path))
    = flat_map (vertex_of_line strtof) (Text.getlines content).
Proof. intros. now apply LoadFromFile_opened_vertices. Qed.

Lemma LoadFromFile_vertices_witness :
  GetVertices (snd (LoadFromFile Decimal.strtof test_files new_Model "invalid_test.obj"))
  = flat_map (vertex_of_line Decimal.strtof)
      (Text.getlines ("v 1.0 2.0" ++ LF ++ "v abc def ghi" ++ LF ++ "f 1 2 3 4" ++ LF ++
          "f a b c" ++ LF ++ "f -1 2 3" ++ LF ++ "f 1 2 3 4 5" ++ LF)).
Proof.
  apply (@LoadFromFile_vertices decimal Decimal.strtof test_files new_Model
           "invalid_test.obj"). reflexivity.
Defined.

(** ** The error members after a load *)

Lemma read_indices_thrown (vertex_count : N) (tokens : list string) (p : list N)
    (what : string) :
  read_indices vertex_count tokens p = Thrown what ->
  exists token, what = "Invalid face index: " ++ token.
Proof.
  revert p. induction tokens as [|t rest IH]; intros p; cbn [read_indices].
  - discriminate.
  - destruct (Libc.stoul (Text.before_slash t)) as [idx| |].
    + destruct ((idx =? 0) || (vertex_count <? idx)).
      * intros [= <-]. eexists; reflexivity.
      * apply IH.
    + intros [= <-]. eexists; reflexivity.
    + intros [= <-]. eexists; reflexivity.
Qed.

Lemma ParsePolygon_thrown {F : Type} (line what : string) (m m' : Model F) :
  ParsePolygon line m = (Thrown what, m') ->
  m' = m /\ exists token, what = "Invalid face index: " ++ token.
Proof.
  unfold ParsePolygon, bind, get. cbn.
  destruct (read_indices _ _ _) as [idxs|w] eqn:E.
  - destruct (Polygon_IsValid _ _); discriminate.
  - intros [= <- <-]. split; [reflexivity|]. eapply read_indices_thrown; exact E.
Qed.

Section ErrorLemmas.
Context {F : Type}.
Variable strtof : string -> option (F * string).

(** A line leaves the error members alone or records its own failure. *)
Lemma load_line_errors (line_num : N) (line : string) (st : bool * Model F) :
  let m' := snd (load_line strtof line_num line st) in
  (last_error_ m' = last_error_ (snd st) /\
   last_error_str_ m' = last_error_str_ (snd st)) \/
  (last_error_ m' = kInvalidData /\
   exists what,
     last_error_str_ m' = "Error at line " ++ Text.to_string line_num ++ ": " ++ what /\
     (what = "Invalid vertex format" \/
      exists token, what = "Invalid face index: " ++ token)).
Proof.
  destruct st as [hvd m]. unfold load_line. cbn [snd].
  destruct (Text.ltrim line) as [|c l] eqn:El; [now left|].
  set (attempt := if Text.starts_with (String c l) "v " then _ else _).
  assert (Hatt :
    let m' := snd
            match attempt m with
            | (Returned true, m') => (true, m')
            | (Returned false, m') => (hvd, m')
            | (Thrown what, m') =>
                (hvd, SetError m' kInvalidData
                        ("Error at line " ++ Text.to_string line_num ++ ": " ++ what))
            end in
    (last_error_ m' = last_error_ m /\ last_error_str_ m' = last_error_str_ m) \/
    (last_error_ m' = kInvalidData /\
     exists what,
       last_error_str_ m' = "Error at line " ++ Text.to_string line_num ++ ": " ++ what /\
       (what = "Invalid vertex format" \/
        exists token, what = "Invalid face index: " ++ token))).
  { subst attempt.
    destruct (Text.starts_with (String c l) "v ").
    - destruct (ParseVertex_cases strtof (String c l) m) as [[v ->] | ->].
      + now left.
      + right. split; [reflexivity|]. eexists. split; [reflexivity|]. now left.
    - destruct (Text.starts_with (String c l) "f ").
      + destruct (ParsePolygon (String c l) m) as [[[|]|what] m'] eqn:E.
        * destruct (ParsePolygon_cases (String c l) m)
            as [[p [Hp E']] | [E' | [w E']]]; rewrite E' in E; try discriminate.
          injection E as <-. now left.
        * destruct (ParsePolygon_cases (String c l) m)
            as [[p [Hp E']] | [E' | [w E']]]; rewrite E' in E; try discriminate.
          injection E as <-. now left.
        * apply ParsePolygon_thrown in E. destruct E as [-> Htok].
          right. split; [reflexivity|]. eexists. split; [reflexivity|]. now right.
      + now left. }
  destruct c as [[] [] [] [] [] [] [] []]; exact Hatt.
Qed.

Lemma load_lines_errors (lines : list string) (line_num : N) (st : bool * Model F) :
  clean_or_line_error line_num (snd st) ->
  clean_or_line_error (line_num + size lines)
    (snd (load_lines strtof lines line_num st)).
Proof.
  revert line_num st. induction lines as [|line rest IH]; intros line_num st Hst;
    cbn [load_lines].
  - unfold size. simpl. now rewrite N.add_0_r.
  - replace (line_num + size (line :: rest)) with (line_num + 1 + size rest)
      by (unfold size; simpl List.length; lia).
    apply IH.
    destruct (load_line_errors (line_num + 1) line st) as [[He Hs] | [He [what [Hs Hw]]]].
    + destruct Hst as [[H1 H2] | [H1 [n [w [Hn [H2 Hw]]]]]].
      * left. now rewrite He, Hs.
      * right. rewrite He, Hs. split; [exact H1|]. exists n, w.
        split; [lia|]. now split.
    + right. split; [exact He|]. exists (line_num + 1), what.
      split; [lia|]. now split.
Qed.
End ErrorLemmas.

(** X8.  A load that returns true has either left the error members clear, or
    holds the error of one of the lines it could not read: the code is
    [kInvalidData] and the text names a line of the file. *)
Theorem LoadFromFile_success_error_members :
  forall (F : Type) (strtof : string -> option (F * string))
         (fs : filesystem) (m0 : Model F) (path content : string),
    fs path = Some content ->
    fst (LoadFromFile strtof fs m0 path) = true ->
    clean_or_line_error (size (Text.getlines content))
      (snd (LoadFromFile strtof fs m0 path)).
Proof.
  intros F strtof fs m0 path content Hfs.
  rewrite LoadFromFile_unfold, Hfs. cbv zeta.
  pose proof (@load_lines_errors F strtof (Text.getlines content) 0
                (false, cleared m0 path)) as He.
  rewrite N.add_0_l in He.
  destruct (negb (fst _)); [discriminate|].
  destruct (negb (IsValid _)); [discriminate|].
  intros _. apply He. left. split; reflexivity.
Qed.

Lemma LoadFromFile_success_error_members_witness :
  fst (LoadFromFile Decimal.strtof more_files new_Model "partly_bad.obj") = true /\
  GetLastError (snd (LoadFromFile Decimal.strtof more_files new_Model "partly_bad.obj"))
  = kInvalidData /\
  clean_or_line_error 2
    (snd (LoadFromFile Decimal.strtof more_files new_Model "partly_bad.obj")).
Proof.
  split; [reflexivity|]. split; [reflexivity|].
  apply (@LoadFromFile_success_error_members decimal Decimal.strtof more_files
           new_Model "partly_bad.obj" ("v 1 2 3" ++ LF ++ "v 4 five 6" ++ LF));
    reflexivity.
Defined.

(** ** Lines that do not count *)

Lemma ltrim_idem (s : string) : Text.ltrim (Text.ltrim s) = Text.ltrim s.
Proof.
  induction s as [|c s IH]; [reflexivity|]. cbn [Text.ltrim].
  destruct (Text.isspace c) eqn:E; [exact IH|]. cbn [Text.ltrim]. now rewrite E.
Qed.

Lemma same_mesh_sym {F : Type} (st st' : bool * Model F) :
  same_mesh st st' -> same_mesh st' st.
Proof. unfold same_mesh. intuition congruence. Qed.

Lemma same_mesh_trans {F : Type} (st st' st'' : bool * Model F) :
  same_mesh st st' -> same_mesh st' st'' -> same_mesh st st''.
Proof. unfold same_mesh. intuition congruence. Qed.

Section RecordLemmas.
Context {F : Type}.
Variable strtof : string -> option (F * string).

Lemma load_line_ltrim (line_num : N) (line : string) (st : bool * Model F) :
  load_line strtof line_num (Text.ltrim line) st = load_line strtof line_num line st.
Proof. unfold load_line. now rewrite ltrim_idem. Qed.

Lemma load_line_ignorable (line_num : N) (line : string) (st : bool * Model F) :
  ignorable line = true -> load_line strtof line_num line st = st.
Proof.
  destruct st as [hvd m]. unfold load_line, ignorable.
  destruct (Text.ltrim line) as [|c l] eqn:El; [reflexivity|].
  set (attempt := if Text.starts_with (String c l) "v " then _ else _).
  assert (Hatt :
    negb (Text.starts_with (String c l) "v ") &&
    negb (Text.starts_with (String c l) "f ") = true ->
    match attempt m with
    | (Returned true, m') => (true, m')
    | (Returned false, m') => (hvd, m')
    | (Thrown what, m') =>
        (hvd, SetError m' kInvalidData
                ("Error at line " ++ Text.to_string line_num ++ ": " ++ what))
    end = (hvd, m)).
  { subst attempt.
    destruct (Text.starts_with (String c l) "v "); [discriminate|].
    destruct (Text.starts_with (String c l) "f "); [discriminate|]. reflexivity. }
  destruct c as [[] [] [] [] [] [] [] []]; first [exact Hatt | reflexivity].
Qed.

(** What a line does to the flag and the two buffers depends on the flag
    and the two buffers only. *)
Lemma load_line_same_mesh (line_num line_num' : N) (line : string)
    (st st' : bool * Model F) :
  same_mesh st st' ->
  same_mesh (load_line strtof line_num line st) (load_line strtof line_num' line st').
Proof.
  destruct st as [hvd m], st' as [hvd' m']. unfold same_mesh at 1. cbn [fst snd].
  intros [<- [Hv Hp]]. unfold load_line.
  destruct (Text.ltrim line) as [|c l] eqn:El.
  { unfold same_mesh. now cbn [fst snd]. }
  set (attempt := if Text.starts_with (String c l) "v " then _ else _).
  assert (Hatt :
    same_mesh
      match attempt m with
      | (Returned true, m1) => (true, m1)
      | (Returned false, m1) => (hvd, m1)
      | (Thrown what, m1) =>
          (hvd, SetError m1 kInvalidData
                  ("Error at line " ++ Text.to_string line_num ++ ": " ++ what))
      end
      match attempt m' with
      | (Returned true, m1) => (true, m1)
      | (Returned false, m1) => (hvd, m1)
      | (Thrown what, m1) =>
          (hvd, SetError m1 kInvalidData
                  ("Error at line " ++ Text.to_string line_num' ++ ": " ++ what))
      end).
  { subst attempt.
    destruct (Text.starts_with (String c l) "v ").
    - unfold ParseVertex.
      destruct (Libc.sscanf_v_fff strtof (Text.c_str (String c l)));
        unfold same_mesh; cbn; rewrite ?Hv, ?Hp; auto.
    - destruct (Text.starts_with (String c l) "f ").
      + unfold ParsePolygon, bind, get. cbn. rewrite Hv.
        destruct (read_indices _ _ _) as [idxs|w].
        * destruct (Polygon_IsValid _ _); unfold same_mesh; cbn; rewrite ?Hv, ?Hp; auto.
        * unfold same_mesh; cbn; auto.
      + unfold same_mesh; cbn; auto. }
  destruct c as [[] [] [] [] [] [] [] []]; exact Hatt.
Qed.

Lemma load_lines_same_mesh (lines : list string) (line_num line_num' : N)
    (st st' : bool * Model F) :
  same_mesh st st' ->
  same_mesh (load_lines strtof lines line_num st)
    (load_lines strtof
       (map Text.ltrim (filter (fun line => negb (ignorable line)) lines))
       line_num' st').
Proof.
  revert line_num line_num' st st'.
  induction lines as [|line rest IH]; intros line_num line_num' st st' Hst;
    cbn [load_lines filter map]; [exact Hst|].
  destruct (ignorable line) eqn:Ei; cbn [negb].
  - rewrite (load_line_ignorable _ _ _ Ei). now apply IH.
  - cbn [map load_lines]. apply IH. rewrite load_line_ltrim.
    now apply load_line_same_mesh.
Qed.
End RecordLemmas.

Lemma IsValid_same_buffers {F : Type} (m m' : Model F) :
  vertices_ m = vertices_ m' -> polygons_ m = polygons_ m' -> IsValid m = IsValid m'.
Proof. unfold IsValid. now intros -> ->. Qed.

(** X9.  Blank lines, comments, records that are neither vertices nor faces,
    and leading white space do not count: two files with the same vertex
    and face records, in the same order, load to the same flag, the same
    vertices and the same polygons, whatever the model held before. *)
Theorem LoadFromFile_same_records :
  forall (F : Type) (strtof : string -> option (F * string))
         (fs fs' : filesystem) (m0 m0' : Model F) (path path' content content' : string),
    fs path = Some content -> fs' path' = Some content' ->
    records content = records content' ->
    fst (LoadFromFile strtof fs m0 path) = fst (LoadFromFile strtof fs' m0' path') /\
    GetVertices (snd (LoadFromFile strtof fs m0 path))
    = GetVertices (snd (LoadFromFile strtof fs' m0' path')) /\
    GetPolygons (snd (LoadFromFile strtof fs m0 path))
    = GetPolygons (snd (LoadFromFile strtof fs' m0' path')).
Proof.
  intros F strtof fs fs' m0 m0' path path' content content' Hfs Hfs' Hrec.
  unfold GetVertices, GetPolygons.
  rewrite !LoadFromFile_unfold, Hfs, Hfs'. cbv zeta.
  assert (Hsame : same_mesh
            (load_lines strtof (Text.getlines content) 0 (false, cleared m0 path))
            (load_lines strtof (Text.getlines content') 0 (false, cleared m0' path'))).
  { eapply same_mesh_trans.
    - apply load_lines_same_mesh with (line_num' := 0) (st' := (false, cleared m0 path)).
      unfold same_mesh. auto.
    - apply same_mesh_sym. unfold records in Hrec. rewrite Hrec.
      apply load_lines_same_mesh. unfold same_mesh. cbn. auto. }
  destruct Hsame as [Hf [Hv Hp]]. rewrite <- Hf.
  rewrite <- (IsValid_same_buffers _ _ Hv Hp).
  destruct (negb (fst _)); [cbn; auto|].
  destruct (negb (IsValid _)); cbn; auto.
Qed.

Lemma LoadFromFile_same_records_witness :
  fst (LoadFromFile Decimal.strtof more_files new_Model "annotated.obj")
  = fst (LoadFromFile Decimal.strtof more_files new_Model "plain.obj") /\
  GetVertices (snd (LoadFromFile Decimal.strtof more_files new_Model "annotated.obj"))
  = GetVertices (snd (LoadFromFile Decimal.strtof more_files new_Model "plain.obj")) /\
  GetPolygons (snd (LoadFromFile Decimal.strtof more_files new_Model "annotated.obj"))
  = GetPolygons (snd (LoadFromFile Decimal.strtof more_files new_Model "plain.obj")).
Proof.
  apply (@LoadFromFile_same_records decimal Decimal.strtof more_files more_files
           new_Model new_Model "annotated.obj" "plain.obj"
           ("# a triangle" ++ LF ++ "o mesh" ++ LF ++ "v 0 0 0" ++ LF ++ LF ++
            "  v 1 0 0" ++ LF ++ "vn 0 0 1" ++ LF ++ "v 0 1 0" ++ LF ++
            "s off" ++ LF ++ "f 1 2 3" ++ LF)
           ("v 0 0 0" ++ LF ++ "v 1 0 0" ++ LF ++ "v 0 1 0" ++ LF ++ "f 1 2 3" ++ LF));
    reflexivity.
Defined.

(** ** When a load succeeds *)

Lemma LoadFromFile_success_valid {F : Type} (strtof : string -> option (F * string))
    (fs : filesystem) (m0 : Model F) (path : string) :
  fst (LoadFromFile strtof fs m0 path) = true ->
  IsValid (snd (LoadFromFile strtof fs m0 path)) = true.
Proof.
  rewrite LoadFromFile_unfold. destruct (fs path) as [content|]; [|discriminate].
  cbv zeta. destruct (negb (fst _)); [discriminate|].
  destruct (IsValid _) eqn:E; [intros _; exact E|discriminate].
Qed.

Lemma IsValid_nonempty {F : Type} (m : Model F) :
  IsValid m = true -> vertices_ m <> [].
Proof. unfold IsValid. destruct (vertices_ m); [discriminate|discriminate]. Qed.

Lemma size_zero {A : Type} (l : list A) : (size l =? 0) = true <-> l = [].
Proof.
  unfold size. rewrite N.eqb_eq. destruct l; simpl; [tauto|].
  split; [lia|discriminate].
Qed.

(** The flag is true exactly when the vertex buffer is not empty. *)
Lemma LoadFromFile_flag_count {F : Type} (strtof : string -> option (F * string))
    (fs : filesystem) (m0 : Model F) (path : string) :
  fst (LoadFromFile strtof fs m0 path)
  = negb (GetVertexCount (snd (LoadFromFile strtof fs m0 path)) =? 0).
Proof.
  unfold GetVertexCount.
  destruct (fst (LoadFromFile strtof fs m0 path)) eqn:E.
  - apply LoadFromFile_success_valid, IsValid_nonempty in E.
    symmetry. apply negb_true_iff, not_true_is_false. now rewrite size_zero.
  - apply LoadFromFile_failure_empty in E. destruct E as [-> _]. reflexivity.
Qed.

Lemma flat_map_nonempty {A B : Type} (f : A -> list B) (l : list A) :
  flat_map f l <> [] <-> exists a, In a l /\ f a <> [].
Proof.
  induction l as [|a l IH]; cbn [flat_map].
  - split; [congruence|]. intros [a [[] _]].
  - split.
    + intros Hne. destruct (f a) eqn:Ea.
      * destruct (proj1 IH Hne) as [a' [Hin Ha']]. exists a'. split; [now right|exact Ha'].
      * exists a. split; [now left|]. rewrite Ea. discriminate.
    + intros [a' [[<- | Hin] Ha']] E; apply app_eq_nil in E; destruct E as [E1 E2].
      * contradiction.
      * apply IH; [eauto|exact E2].
Qed.

(** X7.  A load returns true exactly when the vertex buffer is not empty
    afterwards, that is, when the file can be opened and holds at least
    one readable vertex record; face records have no part in it. *)
Theorem LoadFromFile_true_iff_vertex :
  forall (F : Type) (strtof : string -> option (F * string))
         (fs : filesystem) (m0 : Model F) (path : string),
    (fst (LoadFromFile strtof fs m0 path) = true <->
     0 < GetVertexCount (snd (LoadFromFile strtof fs m0 path))) /\
    (fst (LoadFromFile strtof fs m0 path) = true <->
     exists content line,
       fs path = Some content /\ In line (Text.getlines content) /\
       vertex_of_line strtof line <> []).
Proof.
  intros F strtof fs m0 path.
  pose proof (LoadFromFile_flag_count strtof fs m0 path) as Hflag.
  assert (H1 : fst (LoadFromFile strtof fs m0 path) = true <->
               vertices_ (snd (LoadFromFile strtof fs m0 path)) <> []).
  { rewrite Hflag, negb_true_iff. unfold GetVertexCount.
    rewrite <- not_true_iff_false, size_zero. tauto. }
  split.
  - rewrite H1. unfold GetVertexCount, size.
    destruct (vertices_ _); simpl; split; try congruence; try lia.
  - rewrite H1. destruct (fs path) as [content|] eqn:Hfs.
    + rewrite (LoadFromFile_opened_vertices strtof fs m0 path Hfs), flat_map_nonempty.
      split.
      * intros [line [Hin Hv]]. now exists content, line.
      * intros [content' [line [[= <-] [Hin Hv]]]]. now exists line.
    + split.
      * intros Hne. exfalso. apply Hne.
        apply (LoadFromFile_failure_empty strtof fs m0 path).
        rewrite LoadFromFile_unfold, Hfs. reflexivity.
      * intros [content [line [[=] _]]].
Qed.

Lemma LoadFromFile_true_iff_vertex_witness :
  fst (LoadFromFile Decimal.strtof test_files new_Model "comments_test.obj") = true.
Proof.
  apply (proj2 (@LoadFromFile_true_iff_vertex decimal Decimal.strtof test_files
                  new_Model "comments_test.obj")).
  exists ("# comment" ++ LF ++ "v 1.0 2.0 3.0" ++ LF ++ "# comment" ++ LF ++
          "f 1 1 1" ++ LF), "v 1.0 2.0 3.0".
  split; [reflexivity|]. split; [right; left; reflexivity|discriminate].
Defined.

(** ** The controller *)

Lemma int_of_size_t_small (n : N) : n < 2 ^ 31 -> int_of_size_t n = Z.of_N n.
Proof.
  intros Hn. unfold int_of_size_t.
  assert (Hz : (0 <= Z.of_N n < 2 ^ 31)%Z).
  { split; [apply N2Z.is_nonneg|]. change (2 ^ 31)%Z with (Z.of_N (2 ^ 31)). lia. }
  rewrite Z.mod_small by lia.
  destruct (Z.ltb_spec (Z.of_N n) (2 ^ 31)); [reflexivity|lia].
Qed.

(** X10.  After [LoadModelFromFile] the manager holds a model, whatever it held
    before.  Its vertices are as many as the readable vertex records of the
    file (none when the file cannot be opened); the flag is true exactly
    when there is one at least, and the model, normalised, is then valid.
    Short of 2^31 vertices [GetVerticesCount] is their number; after a
    failure [GetEdgesCount] is 0. *)
Theorem LoadModelFromFile_counts :
  forall (F : Type) (O : FloatOps F) (strtof : string -> option (F * string))
         (fs : filesystem) (mgr : ModelManager F) (path : string),
    let r := LoadModelFromFile strtof fs mgr path in
    let n := match fs path with
             | Some content =>
                 size (flat_map (vertex_of_line strtof) (Text.getlines content))
             | None => 0
             end in
    fst r = negb (n =? 0) /\
    (exists m, GetModel (snd r) = Some m /\ GetVertexCount m = n /\
               (fst r = true -> IsValid m = true)) /\
    (n < 2 ^ 31 -> GetVerticesCount (snd r) = Z.of_N n) /\
    (fst r = false -> GetEdgesCount (snd r) = 0%Z).
Proof.
  intros F O strtof fs mgr path r n.
  pose proof (LoadFromFile_flag_count strtof fs new_Model path) as Hflag.
  pose proof (@LoadFromFile_success_valid F strtof fs new_Model path) as Hvalid.
  pose proof (@LoadFromFile_failure_empty F strtof fs new_Model path) as Hfail.
  assert (Hn : GetVertexCount (snd (LoadFromFile strtof fs new_Model path)) = n).
  { unfold n, GetVertexCount. destruct (fs path) as [content|] eqn:Hfs.
    - now rewrite (LoadFromFile_opened_vertices strtof fs new_Model path Hfs).
    - assert (E : fst (LoadFromFile strtof fs new_Model path) = false)
        by (rewrite LoadFromFile_unfold, Hfs; reflexivity).
      now rewrite (proj1 (Hfail E)). }
  subst r. unfold LoadModelFromFile, LoadModel.
  destruct (LoadFromFile strtof fs new_Model path) as [flag m0].
  cbn [fst snd] in *.
  set (m := if flag then NormalizeModel m0 else m0).
  assert (Hcount : GetVertexCount m = n).
  { unfold m. destruct flag; [|exact Hn].
    now rewrite (proj1 (NormalizeModel_same_mesh m0)). }
  split; [now rewrite Hflag, Hn|]. split; [|split].
  - exists m. split; [reflexivity|]. split; [exact Hcount|].
    intros ->. unfold m.
    rewrite (proj2 (proj2 (NormalizeModel_same_mesh m0))). now apply Hvalid.
  - intros Hsmall. unfold GetVerticesCount, GetModel. cbn [current_model_].
    rewrite Hcount. now apply int_of_size_t_small.
  - intros ->. unfold GetEdgesCount, GetModel, GetEdgeCount, GetEdges.
    cbn [current_model_]. unfold m. now rewrite (proj2 (Hfail eq_refl)).
Qed.

Lemma LoadModelFromFile_counts_witness :
  GetVerticesCount
    (snd (LoadModelFromFile R_strtof more_files (mkModelManager None) "plain.obj"))
  = 3%Z.
Proof.
  apply (proj1 (proj2 (proj2 (@LoadModelFromFile_counts R R_FloatOps R_strtof more_files
                                (mkModelManager None) "plain.obj")))).
  reflexivity.
Defined.

(** ** The widget and the model it points to *)

Section DrawLinesLemmas.
Context {F : Type}.

Lemma subscript_in_range (vertices : list (Vertex F)) (i : N) (d : Vertex F) :
  (size vertices <=? i) = false ->
  subscript vertices i = Some (nth (N.to_nat i) vertices d).
Proof.
  intros Hi. apply N.leb_gt in Hi. unfold size in Hi. unfold subscript.
  apply nth_error_nth'. lia.
Qed.

(** The loop never reads outside the buffer: it draws the edges whose two
    indices are in range, and skips the others. *)
Lemma draw_edges_in_range (vertices : list (Vertex F)) (edges : list (N * N))
    (d : Vertex F) :
  draw_edges vertices edges
  = Some (flat_map (segment vertices d)
            (filter (fun edge => negb ((size vertices <=? fst edge)
                                       || (size vertices <=? snd edge))) edges)).
Proof.
  induction edges as [|edge rest IH]; [reflexivity|].
  cbn [draw_edges filter].
  destruct ((size vertices <=? fst edge) || (size vertices <=? snd edge)) eqn:E;
    cbn [negb]; [exact IH|].
  apply orb_false_iff in E. destruct E as [E1 E2].
  rewrite (subscript_in_range _ _ d E1), (subscript_in_range _ _ d E2), IH.
  reflexivity.
Qed.

Lemma filter_all {A : Type} (f : A -> bool) (l : list A) :
  (forall a, In a l -> f a = true) -> filter f l = l.
Proof.
  induction l as [|a l IH]; intros Hall; [reflexivity|]. cbn [filter].
  rewrite (Hall a (or_introl eq_refl)). f_equal. apply IH.
  intros b Hb. apply Hall. now right.
Qed.
End DrawLinesLemmas.

Lemma drawLines_defined {F : Type} (settings : line_settings F)
    (h : Objects.store F) (w : GLWidget.t) :
  (forall p, GLWidget.vertices_ w = Some p -> Objects.object h p <> None) ->
  drawLines settings h w <> None.
Proof.
  intros Hlive. unfold drawLines.
  destruct (GLWidget.vertices_ w) as [p|]; [|discriminate].
  destruct (GLWidget.edges_ w) as [|e es]; [discriminate|].
  specialize (Hlive p eq_refl).
  destruct (Objects.object h p) as [model|]; [|contradiction].
  destruct (vertices_ model) as [|v vs] eqn:Ev; [discriminate|].
  rewrite (draw_edges_in_range (v :: vs) (e :: es) v). discriminate.
Qed.

(** X23.  [drawLines] reads nothing outside the vertex buffer: whenever
    the pointer of the widget is null or points to a live model, the calls
    it makes are defined, whatever the edges are.  When the widget holds the
    edges of a valid model it points to, every edge is drawn, in the order
    of the edges, as the segment between its two vertices, and none is
    skipped. *)
Theorem drawLines_in_bounds :
  forall (F : Type) (settings : line_settings F) (h : Objects.store F)
         (w : GLWidget.t),
    ((forall p, GLWidget.vertices_ w = Some p -> Objects.object h p <> None) ->
     drawLines settings h w <> None) /\
    (forall (p : pointer) (model : Model F) (d : Vertex F),
        GLWidget.vertices_ w = Some p ->
        Objects.object h p = Some model ->
        GLWidget.edges_ w = GetEdges model ->
        IsValid model = true ->
        drawLines settings h w
        = Some (line_style settings
                  ++ match GetEdges model with
                     | [] => []
                     | _ :: _ =>
                         glBegin_GL_LINES
                           :: flat_map (segment (vertices_ model) d) (GetEdges model)
                           ++ [glEnd]
                     end)%list).
Proof.
  intros F settings h w. split; [apply drawLines_defined|].
  intros p model d Hp Hobj Hedges Hvalid. unfold drawLines.
  rewrite Hp, Hedges, Hobj.
  destruct (GetEdges model) as [|e es] eqn:Ee; [now rewrite app_nil_r|].
  destruct (vertices_ model) as [|v vs] eqn:Ev.
  { unfold IsValid in Hvalid. rewrite Ev in Hvalid. discriminate. }
  rewrite <- Ev, <- Ee. rewrite (draw_edges_in_range (vertices_ model) (GetEdges model) d).
  rewrite filter_all; [reflexivity|].
  intros [a b] Hab. destruct (GetEdges_below model a b Hvalid Hab) as [Hlt Hb].
  unfold GetVertexCount in Hb. cbn [fst snd].
  apply negb_true_iff, orb_false_iff. rewrite !N.leb_gt. lia.
Qed.

Lemma drawLines_in_bounds_witness :
  drawLines solid_lines (Process.heap showing_triangle)
    (Process.glWidget showing_triangle)
  = Some (line_style solid_lines
            ++ glBegin_GL_LINES
                 :: flat_map (segment (vertices_ triangle) (mkVertex (mkDecimal false 0 0) (mkDecimal false 0 0) (mkDecimal false 0 0)))
                      [(0, 1); (0, 2); (1, 2)]
                 ++ [glEnd])%list.
Proof.
  exact (proj2 (@drawLines_in_bounds decimal solid_lines
                  (Process.heap showing_triangle) (Process.glWidget showing_triangle))
           0%nat triangle
           (mkVertex (mkDecimal false 0 0) (mkDecimal false 0 0) (mkDecimal false 0 0))
           eq_refl eq_refl eq_refl eq_refl).
Defined.

Section StoreLemmas.
Context {F : Type}.

Lemma live_is_allocated (h : Objects.store F) (p : pointer) :
  Objects.well_formed h -> Objects.object h p <> None ->
  (p < Objects.allocated h)%nat.
Proof.
  intros Hwf Hlive. destruct (Nat.lt_ge_cases p (Objects.allocated h)) as [Hlt|Hge];
    [exact Hlt|]. elim Hlive. now apply Hwf.
Qed.

Lemma assign_well_formed (h : Objects.store F) (p : pointer) (m : Model F) :
  Objects.well_formed h -> (p < Objects.allocated h)%nat ->
  Objects.well_formed (Objects.assign h p m).
Proof.
  intros Hwf Hp q Hq. cbn in *.
  destruct (Nat.eqb_spec q p); [lia|]. now apply Hwf.
Qed.

Lemma delete_well_formed (h : Objects.store F) (p : option pointer) :
  Objects.well_formed h -> Objects.well_formed (Objects.delete h p).
Proof.
  intros Hwf. destruct p as [p|]; [|exact Hwf]. intros q Hq. cbn in *.
  destruct (Nat.eqb q p); [reflexivity|]. now apply Hwf.
Qed.

Lemma new_well_formed (h : Objects.store F) :
  Objects.well_formed h -> Objects.well_formed (fst (Objects.new h)).
Proof.
  intros Hwf q Hq. cbn in *.
  destruct (Nat.eqb_spec q (Objects.allocated h)); [lia|]. apply Hwf. lia.
Qed.
End StoreLemmas.

Section ProcessLemmas.
Context {F : Type} `{FloatOps F}.
Variable strtof : string -> option (F * string).

(** What [LoadModel] leaves: a new object, which the manager points to and
    which holds the outcome of the load; the object the manager pointed to
    before is deleted; the widget is not told. *)
Lemma LoadModel_new_spec (fs : filesystem) (s : Process.t F) (path : string) :
  Objects.well_formed (Process.heap s) ->
  let r := LoadModel_new strtof fs s path in
  let loaded := LoadFromFile strtof fs new_Model path in
  let p := Objects.allocated (Process.heap s) in
  fst r = fst loaded /\
  Process.current_model_ (snd r) = Some p /\
  Objects.object (Process.heap (snd r)) p
  = Some (if fst loaded then NormalizeModel (snd loaded) else snd loaded) /\
  Objects.allocated (Process.heap (snd r)) = S p /\
  Objects.well_formed (Process.heap (snd r)) /\
  Process.glWidget (snd r) = Process.glWidget s /\
  (forall q, Process.current_model_ s = Some q -> (q < p)%nat ->
             Objects.object (Process.heap (snd r)) q = None).
Proof.
  intros Hwf. cbv zeta. unfold LoadModel_new.
  destruct (LoadFromFile strtof fs new_Model path) as [flag m].
  destruct s as [h cur w]. cbn [Process.heap Process.current_model_ Process.glWidget
                                 fst snd] in *.
  assert (Hall : Objects.allocated (Objects.delete h cur) = Objects.allocated h)
    by (destruct cur; reflexivity).
  cbn [Objects.new fst snd Objects.assign Objects.object Objects.allocated
       Process.heap Process.current_model_ Process.glWidget].
  rewrite !Hall, Nat.eqb_refl. repeat split.
  - intros q Hq. cbn [Objects.object Objects.allocated Objects.assign] in Hq |- *.
    destruct (Nat.eqb_spec q (Objects.allocated h)); [lia|].
    pose proof (@delete_well_formed F h cur Hwf q) as Hd. rewrite Hall in Hd.
    apply Hd. lia.
  - intros q -> Hq. cbn [Objects.object Objects.assign].
    destruct (Nat.eqb_spec q (Objects.allocated h)); [lia|].
    cbn [Objects.delete Objects.object]. now rewrite Nat.eqb_refl.
Qed.

Lemma onLoadButtonClicked_unfold (fs : filesystem) (filePath : string)
    (s : Process.t F) :
  filePath <> "" ->
  Objects.well_formed (Process.heap s) ->
  let r := LoadModel_new strtof fs s filePath in
  let loaded := LoadFromFile strtof fs new_Model filePath in
  onLoadButtonClicked strtof fs filePath s
  = if fst loaded
    then Process.mk (Process.heap (snd r)) (Process.current_model_ (snd r))
           (setModelData (Some (Objects.allocated (Process.heap s)))
              (GetEdges (NormalizeModel (snd loaded))) (Process.glWidget (snd r)))
    else snd r.
Proof.
  intros Hpath Hwf. cbv zeta.
  destruct (@LoadModel_new_spec fs s filePath Hwf) as [Hflag [Hcur [Hobj _]]].
  unfold onLoadButtonClicked. destruct filePath as [|c rest]; [contradiction|].
  destruct (LoadModel_new strtof fs s (String c rest)) as [ok s1].
  cbn [fst snd] in *. rewrite <- Hflag. destruct ok; [|reflexivity].
  rewrite Hcur, Hobj, <- Hflag. reflexivity.
Qed.
End ProcessLemmas.

(** X24.  When the widget has been given a model and a later load through
    the load button fails, the handler leaves the widget as it is: its
    pointer then refers to the model that [LoadModel] has deleted, while the
    manager holds a new, empty model; if the widget has edges to draw,
    [drawLines] reads the deleted object. *)
Theorem failed_load_leaves_widget_dangling :
  forall (F : Type) (O : FloatOps F) (strtof : string -> option (F * string))
         (fs : filesystem) (filePath : string) (s : Process.t F),
    shows_current_model s ->
    filePath <> "" ->
    fst (LoadFromFile strtof fs new_Model filePath) = false ->
    GLWidget.vertices_ (Process.glWidget s) <> None ->
    let s' := onLoadButtonClicked strtof fs filePath s in
    Process.glWidget s' = Process.glWidget s /\
    dangling s' /\
    (exists p model,
        Process.current_model_ s' = Some p /\
        Objects.object (Process.heap s') p = Some model /\
        vertices_ model = [] /\
        GLWidget.vertices_ (Process.glWidget s') <> Some p) /\
    (GLWidget.edges_ (Process.glWidget s) <> [] ->
     forall settings : line_settings F,
       drawLines settings (Process.heap s') (Process.glWidget s') = None).
Proof.
  intros F O strtof fs filePath s [Hwf Hshow] Hpath Hfail Hwidget. cbv zeta.
  rewrite (@onLoadButtonClicked_unfold _ _ strtof fs filePath s Hpath Hwf), Hfail.
  destruct (@LoadModel_new_spec _ _ strtof fs s filePath Hwf)
    as [_ [Hcur [Hobj [Hall [Hwf' [Hw Hold]]]]]].
  rewrite Hfail in Hobj.
  destruct (Process.current_model_ s) as [p0|] eqn:Hp0; [|contradiction].
  destruct Hshow as [model0 [Hlive [Hnull | [Hptr Hedges]]]]; [contradiction|].
  assert (Hlt : (p0 < Objects.allocated (Process.heap s))%nat).
  { apply live_is_allocated; [exact Hwf|]. rewrite Hlive. discriminate. }
  specialize (Hold p0 eq_refl Hlt).
  split; [exact Hw|]. split; [|split].
  - exists p0. rewrite Hw, Hall. repeat split; [exact Hptr|lia|exact Hold].
  - exists (Objects.allocated (Process.heap s)),
      (snd (LoadFromFile strtof fs new_Model filePath)).
    split; [exact Hcur|]. split; [exact Hobj|].
    split; [apply (LoadFromFile_failure_empty strtof fs new_Model filePath Hfail)|].
    rewrite Hw, Hptr. intros [= E]. lia.
  - intros Hne settings. unfold drawLines. rewrite Hw, Hptr.
    destruct (GLWidget.edges_ (Process.glWidget s)); [contradiction|].
    now rewrite Hold.
Qed.

Lemma showing_triangle_R_shows : shows_current_model showing_triangle_R.
Proof.
  split.
  - intros q Hq. cbn in *. destruct q; [lia|reflexivity].
  - cbn. exists triangle_R. split; [reflexivity|]. right. split; reflexivity.
Qed.

Lemma failed_load_leaves_widget_dangling_witness :
  dangling (onLoadButtonClicked R_strtof test_files "empty_test.obj" showing_triangle_R) /\
  drawLines (mkLineSettings false 1%R 0%R 0%R 0%R)
    (Process.heap
       (onLoadButtonClicked R_strtof test_files "empty_test.obj" showing_triangle_R))
    (Process.glWidget
       (onLoadButtonClicked R_strtof test_files "empty_test.obj" showing_triangle_R))
  = None.
Proof.
  destruct (@failed_load_leaves_widget_dangling R R_FloatOps R_strtof test_files
              "empty_test.obj" showing_triangle_R showing_triangle_R_shows)
    as [_ [Hd [_ Hdraw]]];
    [discriminate|reflexivity|discriminate|].
  split; [exact Hd|]. apply Hdraw. discriminate.
Defined.

Section InPlace.
Context {F : Type} `{FloatOps F}.
Context {C : Type} `{Command F C}.

(** A command that keeps the edges of the model keeps the widget and the
    manager together. *)
Lemma Execute_in_place_shows (cmd : C) (s : Process.t F) :
  (forall m, exists m',
      Execute cmd (mkModelManager (Some m)) = mkModelManager (Some m') /\
      GetEdges m' = GetEdges m) ->
  Execute cmd (mkModelManager None) = mkModelManager None ->
  shows_current_model s ->
  shows_current_model (Execute_in_place cmd s) /\
  manager_of (Execute_in_place cmd s) = Execute cmd (manager_of s) /\
  Process.glWidget (Execute_in_place cmd s) = Process.glWidget s.
Proof.
  intros Hsome Hnone [Hwf Hshow]. unfold Execute_in_place, manager_of.
  destruct (Process.current_model_ s) as [p|] eqn:Hp.
  - destruct Hshow as [model [Hlive Hw]]. rewrite Hlive.
    destruct (Hsome model) as [model' [He Hedges]]. rewrite He.
    cbn [current_model_ Process.heap Process.current_model_ Process.glWidget
         Objects.assign Objects.object].
    rewrite Nat.eqb_refl. split; [|split; reflexivity].
    split.
    + apply assign_well_formed; [exact Hwf|].
      apply live_is_allocated; [exact Hwf|]. rewrite Hlive. discriminate.
    + cbn [Process.heap Process.current_model_ Process.glWidget
           Objects.assign Objects.object]. rewrite Nat.eqb_refl.
      exists model'. split; [reflexivity|]. now rewrite Hedges.
  - rewrite Hp, Hnone. split; [|split; reflexivity].
    split; [exact Hwf|]. now rewrite Hp.
Qed.
End InPlace.

Lemma same_mesh_keeps_edges {F : Type} (m0 : Model F) (mgr : ModelManager F) :
  (exists m', mgr = mkModelManager (Some m') /\
     GetVertexCount m' = GetVertexCount m0 /\ GetEdges m' = GetEdges m0 /\
     IsValid m' = IsValid m0) ->
  exists m', mgr = mkModelManager (Some m') /\ GetEdges m' = GetEdges m0.
Proof. intros [m' [E [_ [He _]]]]. now exists m'. Qed.

(** X25.  The widget and the manager stay together: when the window opens
    the widget holds no pointer; after a load through the load button that
    succeeds, the widget points to the model the manager holds, which is
    valid, and holds its edges; a transform command changes that model in
    place, so that the widget sees the new vertices with the edges it
    holds, which are still those of the model.  In every such state
    [drawLines] reads live data only. *)
Theorem widget_follows_the_model :
  forall (F : Type) (O : FloatOps F) (strtof : string -> option (F * string))
         (fs : filesystem),
    shows_current_model (@initial F) /\
    forall s : Process.t F,
      shows_current_model s ->
      (forall filePath : string,
          filePath <> "" ->
          fst (LoadFromFile strtof fs new_Model filePath) = true ->
          let s' := onLoadButtonClicked strtof fs filePath s in
          shows_current_model s' /\
          manager_of s' = snd (LoadModel strtof fs (manager_of s) filePath) /\
          exists p model,
            GLWidget.vertices_ (Process.glWidget s') = Some p /\
            Process.current_model_ s' = Some p /\
            Objects.object (Process.heap s') p = Some model /\
            IsValid model = true /\
            GLWidget.edges_ (Process.glWidget s') = GetEdges model) /\
      (forall cmd : MoveCommand F,
          shows_current_model (Execute_in_place cmd s) /\
          manager_of (Execute_in_place cmd s) = Execute cmd (manager_of s) /\
          Process.glWidget (Execute_in_place cmd s) = Process.glWidget s) /\
      (forall cmd : RotateCommand F,
          shows_current_model (Execute_in_place cmd s) /\
          manager_of (Execute_in_place cmd s) = Execute cmd (manager_of s) /\
          Process.glWidget (Execute_in_place cmd s) = Process.glWidget s) /\
      (forall cmd : ScaleCommand F,
          shows_current_model (Execute_in_place cmd s) /\
          manager_of (Execute_in_place cmd s) = Execute cmd (manager_of s) /\
          Process.glWidget (Execute_in_place cmd s) = Process.glWidget s) /\
      (forall settings : line_settings F,
          drawLines settings (Process.heap s) (Process.glWidget s) <> None).
Proof.
  intros F O strtof fs. split.
  { split; [intros q _; reflexivity|reflexivity]. }
  intros s Hs. split; [|split; [|split; [|split]]].
  - intros filePath Hpath Hok. cbv zeta. destruct Hs as [Hwf Hshow].
    rewrite (@onLoadButtonClicked_unfold _ _ strtof fs filePath s Hpath Hwf), Hok.
    destruct (@LoadModel_new_spec _ _ strtof fs s filePath Hwf)
      as [_ [Hcur [Hobj [Hall [Hwf' [Hw Hold]]]]]].
    rewrite Hok in Hobj.
    set (p := Objects.allocated (Process.heap s)) in *.
    set (model := NormalizeModel (snd (LoadFromFile strtof fs new_Model filePath))) in *.
    assert (Hvalid : IsValid model = true).
    { unfold model. rewrite (proj2 (proj2 (NormalizeModel_same_mesh _))).
      now apply LoadFromFile_success_valid. }
    split; [|split].
    + split; [exact Hwf'|]. cbn [Process.current_model_ Process.heap Process.glWidget].
      rewrite Hcur. exists model. split; [exact Hobj|]. right. split; reflexivity.
    + unfold manager_of. cbn [Process.current_model_ Process.heap]. rewrite Hcur, Hobj.
      unfold LoadModel.
      destruct (LoadFromFile strtof fs new_Model filePath) as [flag m0].
      cbn [fst snd] in *. subst flag. reflexivity.
    + exists p, model. cbn [Process.current_model_ Process.heap Process.glWidget].
      repeat split; assumption.
  - intros cmd. apply Execute_in_place_shows; [| |exact Hs].
    + intros m. apply same_mesh_keeps_edges. apply Move_same_mesh.
    + reflexivity.
  - intros cmd. apply Execute_in_place_shows; [| |exact Hs].
    + intros m. apply same_mesh_keeps_edges. apply Rotate_same_mesh.
    + reflexivity.
  - intros cmd. apply Execute_in_place_shows; [| |exact Hs].
    + intros m. apply same_mesh_keeps_edges. apply Scale_same_mesh.
    + cbn [Execute ScaleCommand_Command]. now destruct (fleb (factor_ cmd) lit_0_0).
  - intros settings. apply drawLines_defined. intros p Hp.
    destruct Hs as [Hwf Hshow].
    destruct (Process.current_model_ s) as [p0|]; [|congruence].
    destruct Hshow as [model [Hlive [Hnull | [Hptr _]]]]; [congruence|].
    rewrite Hptr in Hp. injection Hp as <-. rewrite Hlive. discriminate.
Qed.

Lemma widget_follows_the_model_witness :
  shows_current_model
    (onLoadButtonClicked R_strtof more_files "plain.obj" (@initial R)).
Proof.
  refine (proj1 (proj1 (proj2 (@widget_follows_the_model R R_FloatOps R_strtof
                                  more_files)
                          (@initial R) _) "plain.obj" _ _)).
  - exact (proj1 (@widget_follows_the_model R R_FloatOps R_strtof more_files)).
  - discriminate.
  - reflexivity.
Defined.

Local Open Scope R_scope.

(** ** Composing transforms, in exact arithmetic *)

Section OnVertices.
Context {F : Type} `{FloatOps F}.

Lemma on_vertices_compose (f g : list (Vertex F) -> list (Vertex F))
    (mgr : ModelManager F) :
  on_vertices f (on_vertices g mgr) = on_vertices (fun vs => f (g vs)) mgr.
Proof.
  unfold on_vertices, GetModel. destruct mgr as [[m|]]; reflexivity.
Qed.

Lemma on_vertices_ext (f g : list (Vertex F) -> list (Vertex F))
    (mgr : ModelManager F) :
  (forall vs, f vs = g vs) -> on_vertices f mgr = on_vertices g mgr.
Proof.
  intros Hfg. unfold on_vertices, GetModel. destruct mgr as [[m|]]; [|reflexivity].
  cbn. now rewrite Hfg.
Qed.

Lemma on_vertices_id (f : list (Vertex F) -> list (Vertex F)) (mgr : ModelManager F) :
  (forall vs, f vs = vs) -> on_vertices f mgr = mgr.
Proof.
  intros Hf. unfold on_vertices, GetModel. destruct mgr as [[m|]]; [|reflexivity].
  cbn. rewrite Hf. now destruct m.
Qed.
End OnVertices.

Lemma map_pointwise {A : Type} (f : A -> A) (l : list A) :
  (forall a, f a = a) -> map f l = l.
Proof. intros Hf. rewrite (map_ext _ _ Hf). apply map_id. Qed.

Lemma Vertex_eta {F : Type} (v : Vertex F) : mkVertex (x v) (y v) (z v) = v.
Proof. now destruct v. Qed.

Lemma Move_then_Move (a b : MoveCommand R) (mgr : ModelManager R) :
  Execute b (Execute a mgr)
  = Execute (mkMoveCommand (dx_ a + dx_ b) (dy_ a + dy_ b) (dz_ a + dz_ b)) mgr.
Proof.
  cbn [Execute MoveCommand_Command dx_ dy_ dz_].
  rewrite on_vertices_compose. apply on_vertices_ext. intros vs.
  rewrite map_map. apply map_ext. intros v. cbn [x y z]. to_R. f_equal; ring.
Qed.

Lemma Move_zero (mgr : ModelManager R) : Execute (mkMoveCommand 0 0 0) mgr = mgr.
Proof.
  cbn [Execute MoveCommand_Command dx_ dy_ dz_].
  apply on_vertices_id. intros vs. apply map_pointwise. intros v. to_R.
  rewrite <- (Vertex_eta v) at 4. f_equal; ring.
Qed.

(** X11.  In exact arithmetic translations add up, the opposite
    translation undoes one, and the zero translation changes nothing. *)
Theorem MoveCommand_compose :
  forall (a b : MoveCommand R) (mgr : ModelManager R),
    Execute b (Execute a mgr)
    = Execute (mkMoveCommand (dx_ a + dx_ b) (dy_ a + dy_ b) (dz_ a + dz_ b)) mgr /\
    Execute (mkMoveCommand (- dx_ a) (- dy_ a) (- dz_ a)) (Execute a mgr) = mgr /\
    Execute (mkMoveCommand 0 0 0) mgr = mgr.
Proof.
  intros a b mgr. split; [apply Move_then_Move|]. split; [|apply Move_zero].
  rewrite Move_then_Move. cbn [dx_ dy_ dz_].
  rewrite !Rplus_opp_r. apply Move_zero.
Qed.

Lemma ScaleCommand_R (k : R) (mgr : ModelManager R) :
  0 < k ->
  Execute (mkScaleCommand k) mgr
  = on_vertices (map (fun v => mkVertex (x v * k) (y v * k) (z v * k))) mgr.
Proof.
  intros Hk. cbn [Execute ScaleCommand_Command factor_]. to_R.
  replace (Rleb k 0) with false; [reflexivity|].
  symmetry. apply not_true_is_false. rewrite Rleb_true. lra.
Qed.

Lemma rotate_about_X_0 (v : Vertex R) : rotate_about_X 0 v = v.
Proof.
  unfold rotate_about_X. to_R. rewrite cos_0, sin_0.
  rewrite <- (Vertex_eta v) at 6. f_equal; ring.
Qed.

Lemma rotate_about_Y_0 (v : Vertex R) : rotate_about_Y 0 v = v.
Proof.
  unfold rotate_about_Y. to_R. rewrite cos_0, sin_0.
  rewrite <- (Vertex_eta v) at 6. f_equal; ring.
Qed.

Lemma rotate_about_Z_0 (v : Vertex R) : rotate_about_Z 0 v = v.
Proof.
  unfold rotate_about_Z. to_R. rewrite cos_0, sin_0.
  rewrite <- (Vertex_eta v) at 6. f_equal; ring.
Qed.

(** In exact arithmetic the test on the angle makes no difference: a
    rotation by zero is the identity. *)
Lemma axis_pass_R (rot : R -> Vertex R -> Vertex R) (t : R) (vs : list (Vertex R)) :
  (forall v, rot 0 v = v) -> axis_pass rot t vs = map (rot t) vs.
Proof.
  intros H0. unfold axis_pass. to_R. destruct (Reqb t 0) eqn:E; [|reflexivity].
  apply Reqb_true in E. subst t. symmetry. now apply map_pointwise.
Qed.

Lemma RotateCommand_R (cmd : RotateCommand R) (mgr : ModelManager R) :
  Execute cmd mgr
  = on_vertices
      (map (fun v =>
              rotate_about_Z (to_radians (angle_z_ cmd))
                (rotate_about_Y (to_radians (angle_y_ cmd))
                   (rotate_about_X (to_radians (angle_x_ cmd)) v))))
      mgr.
Proof.
  cbn [Execute RotateCommand_Command]. apply on_vertices_ext. intros vs.
  rewrite RotateVertices_passes. unfold rotate_XYZ.
  rewrite (axis_pass_R _ _ _ rotate_about_X_0), (axis_pass_R _ _ _ rotate_about_Y_0),
    (axis_pass_R _ _ _ rotate_about_Z_0).
  now rewrite !map_map.
Qed.

Lemma rotate_about_X_scaled (t k : R) (v : Vertex R) :
  rotate_about_X t (scaled k v) = scaled k (rotate_about_X t v).
Proof. unfold rotate_about_X, scaled. cbn [x y z]. to_R. f_equal; ring. Qed.

Lemma rotate_about_Y_scaled (t k : R) (v : Vertex R) :
  rotate_about_Y t (scaled k v) = scaled k (rotate_about_Y t v).
Proof. unfold rotate_about_Y, scaled. cbn [x y z]. to_R. f_equal; ring. Qed.

Lemma rotate_about_Z_scaled (t k : R) (v : Vertex R) :
  rotate_about_Z t (scaled k v) = scaled k (rotate_about_Z t v).
Proof. unfold rotate_about_Z, scaled. cbn [x y z]. to_R. f_equal; ring. Qed.

Lemma Scale_then_Scale (a b : R) (mgr : ModelManager R) :
  0 < a -> 0 < b ->
  Execute (mkScaleCommand b) (Execute (mkScaleCommand a) mgr)
  = Execute (mkScaleCommand (a * b)) mgr.
Proof.
  intros Ha Hb. assert (Hab : 0 < a * b) by nra.
  rewrite !ScaleCommand_R by assumption.
  rewrite on_vertices_compose. apply on_vertices_ext. intros vs.
  rewrite map_map. apply map_ext. intros v. cbn [x y z]. f_equal; ring.
Qed.

Lemma Scale_one (mgr : ModelManager R) : Execute (mkScaleCommand 1) mgr = mgr.
Proof.
  rewrite ScaleCommand_R by lra. apply on_vertices_id. intros vs.
  apply map_pointwise. intros v. rewrite <- (Vertex_eta v) at 4. f_equal; ring.
Qed.

(** X12.  In exact arithmetic scalings by positive factors multiply; a
    scaling commutes with every rotation, goes through a translation by
    scaling the offset, and the factor 1 changes nothing. *)
Theorem ScaleCommand_compose :
  forall (a b : R) (mgr : ModelManager R),
    0 < a -> 0 < b ->
    Execute (mkScaleCommand b) (Execute (mkScaleCommand a) mgr)
    = Execute (mkScaleCommand (a * b)) mgr /\
    (forall cmd : RotateCommand R,
        Execute (mkScaleCommand a) (Execute cmd mgr)
        = Execute cmd (Execute (mkScaleCommand a) mgr)) /\
    (forall cmd : MoveCommand R,
        Execute (mkScaleCommand a) (Execute cmd mgr)
        = Execute (mkMoveCommand (dx_ cmd * a) (dy_ cmd * a) (dz_ cmd * a))
            (Execute (mkScaleCommand a) mgr)) /\
    Execute (mkScaleCommand 1) mgr = mgr.
Proof.
  intros a b mgr Ha Hb.
  assert (Hab : 0 < a * b) by nra.
  split; [|split; [|split]].
  - now apply Scale_then_Scale.
  - intros cmd. rewrite !ScaleCommand_R by assumption. rewrite !RotateCommand_R.
    rewrite !on_vertices_compose. apply on_vertices_ext. intros vs.
    rewrite !map_map. apply map_ext. intros v.
    change (fun v0 : Vertex R => mkVertex (x v0 * a) (y v0 * a) (z v0 * a))
      with (scaled a).
    change (mkVertex (x v * a) (y v * a) (z v * a)) with (scaled a v).
    now rewrite rotate_about_X_scaled, rotate_about_Y_scaled, rotate_about_Z_scaled.
  - intros cmd. rewrite !ScaleCommand_R by assumption.
    cbn [Execute MoveCommand_Command dx_ dy_ dz_].
    rewrite !on_vertices_compose. apply on_vertices_ext. intros vs.
    rewrite !map_map. apply map_ext. intros v. cbn [x y z]. to_R. f_equal; ring.
  - apply Scale_one.
Qed.

Lemma ScaleCommand_compose_witness :
  Execute (mkScaleCommand 3) (Execute (mkScaleCommand 2) (mkModelManager (Some two_points)))
  = Execute (mkScaleCommand (2 * 3)) (mkModelManager (Some two_points)).
Proof.
  refine (proj1 (@ScaleCommand_compose 2 3 (mkModelManager (Some two_points)) _ _)); lra.
Defined.

(** ** Rotations, in exact arithmetic *)

Lemma to_radians_plus (a b : R) : to_radians (a + b) = to_radians a + to_radians b.
Proof. rewrite !to_radians_R. field. Qed.

Lemma to_radians_opp (a : R) : to_radians (- a) = - to_radians a.
Proof. rewrite !to_radians_R. field. Qed.

Lemma to_radians_0 : to_radians 0 = 0.
Proof. rewrite to_radians_R. field. Qed.

Lemma to_radians_360 : to_radians 360 = 2 * PI.
Proof. rewrite to_radians_R. field. Qed.

Lemma rotate_about_X_plus (s t : R) (v : Vertex R) :
  rotate_about_X t (rotate_about_X s v) = rotate_about_X (s + t) v.
Proof.
  unfold rotate_about_X. cbn [x y z]. to_R. rewrite cos_plus, sin_plus.
  f_equal; ring.
Qed.

Lemma rotate_about_Y_plus (s t : R) (v : Vertex R) :
  rotate_about_Y t (rotate_about_Y s v) = rotate_about_Y (s + t) v.
Proof.
  unfold rotate_about_Y. cbn [x y z]. to_R. rewrite cos_plus, sin_plus.
  f_equal; ring.
Qed.

Lemma rotate_about_Z_plus (s t : R) (v : Vertex R) :
  rotate_about_Z t (rotate_about_Z s v) = rotate_about_Z (s + t) v.
Proof.
  unfold rotate_about_Z. cbn [x y z]. to_R. rewrite cos_plus, sin_plus.
  f_equal; ring.
Qed.

Lemma rotate_about_X_turn (v : Vertex R) : rotate_about_X (2 * PI) v = v.
Proof.
  unfold rotate_about_X. to_R. rewrite cos_2PI, sin_2PI.
  rewrite <- (Vertex_eta v) at 6. f_equal; ring.
Qed.

Lemma rotate_about_Y_turn (v : Vertex R) : rotate_about_Y (2 * PI) v = v.
Proof.
  unfold rotate_about_Y. to_R. rewrite cos_2PI, sin_2PI.
  rewrite <- (Vertex_eta v) at 6. f_equal; ring.
Qed.

Lemma rotate_about_Z_turn (v : Vertex R) : rotate_about_Z (2 * PI) v = v.
Proof.
  unfold rotate_about_Z. to_R. rewrite cos_2PI, sin_2PI.
  rewrite <- (Vertex_eta v) at 6. f_equal; ring.
Qed.

(** One axis at a time. *)
Lemma RotateCommand_X (a : R) (mgr : ModelManager R) :
  Execute (mkRotateCommand a 0 0) mgr
  = on_vertices (map (rotate_about_X (to_radians a))) mgr.
Proof.
  rewrite RotateCommand_R. cbn [angle_x_ angle_y_ angle_z_]. rewrite to_radians_0.
  apply on_vertices_ext. intros vs. apply map_ext. intros v.
  now rewrite rotate_about_Y_0, rotate_about_Z_0.
Qed.

Lemma RotateCommand_Y (a : R) (mgr : ModelManager R) :
  Execute (mkRotateCommand 0 a 0) mgr
  = on_vertices (map (rotate_about_Y (to_radians a))) mgr.
Proof.
  rewrite RotateCommand_R. cbn [angle_x_ angle_y_ angle_z_]. rewrite to_radians_0.
  apply on_vertices_ext. intros vs. apply map_ext. intros v.
  now rewrite rotate_about_X_0, rotate_about_Z_0.
Qed.

Lemma RotateCommand_Z (a : R) (mgr : ModelManager R) :
  Execute (mkRotateCommand 0 0 a) mgr
  = on_vertices (map (rotate_about_Z (to_radians a))) mgr.
Proof.
  rewrite RotateCommand_R. cbn [angle_x_ angle_y_ angle_z_]. rewrite to_radians_0.
  apply on_vertices_ext. intros vs. apply map_ext. intros v.
  now rewrite rotate_about_X_0, rotate_about_Y_0.
Qed.

Lemma RotateX_then_X (a b : R) (mgr : ModelManager R) :
  Execute (mkRotateCommand b 0 0) (Execute (mkRotateCommand a 0 0) mgr)
  = Execute (mkRotateCommand (a + b) 0 0) mgr.
Proof.
  rewrite !RotateCommand_X, on_vertices_compose, to_radians_plus.
  apply on_vertices_ext. intros vs. rewrite map_map. apply map_ext. intros v.
  apply rotate_about_X_plus.
Qed.

Lemma RotateY_then_Y (a b : R) (mgr : ModelManager R) :
  Execute (mkRotateCommand 0 b 0) (Execute (mkRotateCommand 0 a 0) mgr)
  = Execute (mkRotateCommand 0 (a + b) 0) mgr.
Proof.
  rewrite !RotateCommand_Y, on_vertices_compose, to_radians_plus.
  apply on_vertices_ext. intros vs. rewrite map_map. apply map_ext. intros v.
  apply rotate_about_Y_plus.
Qed.

Lemma RotateZ_then_Z (a b : R) (mgr : ModelManager R) :
  Execute (mkRotateCommand 0 0 b) (Execute (mkRotateCommand 0 0 a) mgr)
  = Execute (mkRotateCommand 0 0 (a + b)) mgr.
Proof.
  rewrite !RotateCommand_Z, on_vertices_compose, to_radians_plus.
  apply on_vertices_ext. intros vs. rewrite map_map. apply map_ext. intros v.
  apply rotate_about_Z_plus.
Qed.

Lemma Rotate_zero (mgr : ModelManager R) : Execute (mkRotateCommand 0 0 0) mgr = mgr.
Proof.
  rewrite RotateCommand_X, to_radians_0. apply on_vertices_id. intros vs.
  apply map_pointwise. apply rotate_about_X_0.
Qed.

(** X13.  In exact arithmetic the angles of two rotations about the same
    axis add up, and a full turn of 360 degrees changes nothing. *)
Theorem RotateCommand_same_axis :
  forall (a b : R) (mgr : ModelManager R),
    Execute (mkRotateCommand b 0 0) (Execute (mkRotateCommand a 0 0) mgr)
    = Execute (mkRotateCommand (a + b) 0 0) mgr /\
    Execute (mkRotateCommand 0 b 0) (Execute (mkRotateCommand 0 a 0) mgr)
    = Execute (mkRotateCommand 0 (a + b) 0) mgr /\
    Execute (mkRotateCommand 0 0 b) (Execute (mkRotateCommand 0 0 a) mgr)
    = Execute (mkRotateCommand 0 0 (a + b)) mgr /\
    Execute (mkRotateCommand 360 0 0) mgr = mgr /\
    Execute (mkRotateCommand 0 360 0) mgr = mgr /\
    Execute (mkRotateCommand 0 0 360) mgr = mgr.
Proof.
  intros a b mgr.
  split; [apply RotateX_then_X|]. split; [apply RotateY_then_Y|].
  split; [apply RotateZ_then_Z|].
  rewrite !RotateCommand_X, !RotateCommand_Y, !RotateCommand_Z, to_radians_360.
  repeat split.
  - apply on_vertices_id. intros vs. apply map_pointwise. apply rotate_about_X_turn.
  - apply on_vertices_id. intros vs. apply map_pointwise. apply rotate_about_Y_turn.
  - apply on_vertices_id. intros vs. apply map_pointwise. apply rotate_about_Z_turn.
Qed.

(** X14.  In exact arithmetic a rotation about the three axes is undone
    by the three opposite single-axis rotations in the reverse order, Z
    first.  The one command with the three opposite angles, which turns
    about X first, does not undo it: after (90, 90, 0) and (-90, -90, 0)
    the vertex (0, 1, 0) stands at (0, 0, 1). *)
Theorem RotateCommand_undo :
  (forall (a b c : R) (mgr : ModelManager R),
      Execute (mkRotateCommand (- a) 0 0)
        (Execute (mkRotateCommand 0 (- b) 0)
           (Execute (mkRotateCommand 0 0 (- c))
              (Execute (mkRotateCommand a b c) mgr))) = mgr) /\
  (forall m : Model R,
      vertices_ m = [mkVertex 0 1 0] ->
      Execute (mkRotateCommand (-90) (-90) 0)
        (Execute (mkRotateCommand 90 90 0) (mkModelManager (Some m)))
      = mkModelManager (Some (set_vertices m [mkVertex 0 0 1]))).
Proof.
  split.
  - intros a b c mgr.
    rewrite RotateCommand_X, RotateCommand_Y, RotateCommand_Z, RotateCommand_R.
    cbn [angle_x_ angle_y_ angle_z_].
    rewrite !on_vertices_compose. apply on_vertices_id. intros vs.
    rewrite !map_map. apply map_pointwise. intros v.
    rewrite !to_radians_opp.
    rewrite rotate_about_Z_plus, Rplus_opp_r, rotate_about_Z_0.
    rewrite rotate_about_Y_plus, Rplus_opp_r, rotate_about_Y_0.
    rewrite rotate_about_X_plus, Rplus_opp_r, rotate_about_X_0. reflexivity.
  - intros m Hm. rewrite !RotateCommand_R. cbn [angle_x_ angle_y_ angle_z_].
    rewrite on_vertices_compose. unfold on_vertices, GetModel. cbn [current_model_].
    rewrite Hm. cbn [map]. do 2 f_equal. f_equal.
    assert (Hm90 : to_radians (-90) = - (PI / 2)) by (rewrite to_radians_R; field).
    rewrite Hm90, to_radians_0, to_radians_90.
    rewrite !rotate_about_Z_0.
    unfold rotate_about_X, rotate_about_Y. cbn [x y z]. to_R.
    rewrite cos_neg, sin_neg, cos_PI2, sin_PI2. f_equal; f_equal; ring.
Qed.

Lemma RotateCommand_undo_witness :
  Execute (mkRotateCommand (-90) (-90) 0)
    (Execute (mkRotateCommand 90 90 0)
       (mkModelManager (Some (mkModel "a.obj" [mkVertex 0 1 0] [] kSuccess ""))))
  = mkModelManager
      (Some (set_vertices (mkModel "a.obj" [mkVertex 0 1 0] [] kSuccess "")
               [mkVertex 0 0 1])).
Proof.
  apply (proj2 RotateCommand_undo (mkModel "a.obj" [mkVertex 0 1 0] [] kSuccess "")).
  reflexivity.
Defined.

Lemma rotate_about_X_distance (t : R) (u v : Vertex R) :
  squared_distance (rotate_about_X t u) (rotate_about_X t v) = squared_distance u v.
Proof.
  unfold squared_distance, rotate_about_X. cbn [x y z]. to_R.
  pose proof (sin2_cos2 t) as H. unfold Rsqr in H.
  transitivity ((x u - x v) * (x u - x v)
                + ((y u - y v) * (y u - y v) + (z u - z v) * (z u - z v))
                  * (sin t * sin t + cos t * cos t)); [ring|].
  rewrite H. ring.
Qed.

Lemma rotate_about_Y_distance (t : R) (u v : Vertex R) :
  squared_distance (rotate_about_Y t u) (rotate_about_Y t v) = squared_distance u v.
Proof.
  unfold squared_distance, rotate_about_Y. cbn [x y z]. to_R.
  pose proof (sin2_cos2 t) as H. unfold Rsqr in H.
  transitivity ((y u - y v) * (y u - y v)
                + ((x u - x v) * (x u - x v) + (z u - z v) * (z u - z v))
                  * (sin t * sin t + cos t * cos t)); [ring|].
  rewrite H. ring.
Qed.

Lemma rotate_about_Z_distance (t : R) (u v : Vertex R) :
  squared_distance (rotate_about_Z t u) (rotate_about_Z t v) = squared_distance u v.
Proof.
  unfold squared_distance, rotate_about_Z. cbn [x y z]. to_R.
  pose proof (sin2_cos2 t) as H. unfold Rsqr in H.
  transitivity ((z u - z v) * (z u - z v)
                + ((x u - x v) * (x u - x v) + (y u - y v) * (y u - y v))
                  * (sin t * sin t + cos t * cos t)); [ring|].
  rewrite H. ring.
Qed.

Lemma rotate_origin (s t r : R) :
  rotate_about_Z r (rotate_about_Y t (rotate_about_X s origin)) = origin.
Proof.
  unfold rotate_about_X, rotate_about_Y, rotate_about_Z, origin. cbn [x y z]. to_R.
  f_equal; ring.
Qed.

(** X15.  In exact arithmetic a rotation keeps the distance between any
    two vertices of the buffer, and the distance of every vertex from the
    origin. *)
Theorem RotateCommand_keeps_distances :
  forall (cmd : RotateCommand R) (m : Model R),
  exists m',
    Execute cmd (mkModelManager (Some m)) = mkModelManager (Some m') /\
    forall i j : nat,
      squared_distance (nth i (vertices_ m') origin) (nth j (vertices_ m') origin)
      = squared_distance (nth i (vertices_ m) origin) (nth j (vertices_ m) origin) /\
      squared_distance (nth i (vertices_ m') origin) origin
      = squared_distance (nth i (vertices_ m) origin) origin.
Proof.
  intros cmd m. rewrite RotateCommand_R.
  set (g := fun v => rotate_about_Z (to_radians (angle_z_ cmd))
                       (rotate_about_Y (to_radians (angle_y_ cmd))
                          (rotate_about_X (to_radians (angle_x_ cmd)) v))).
  exists (set_vertices m (map g (vertices_ m))). split; [reflexivity|].
  assert (Hg : forall u v, squared_distance (g u) (g v) = squared_distance u v).
  { intros u v. unfold g.
    now rewrite rotate_about_Z_distance, rotate_about_Y_distance,
      rotate_about_X_distance. }
  assert (Ho : g origin = origin) by apply rotate_origin.
  assert (Hn : forall i, nth i (map g (vertices_ m)) origin = g (nth i (vertices_ m) origin)).
  { intros i. rewrite <- Ho at 1. apply map_nth. }
  intros i j. cbn [set_vertices vertices_]. rewrite !Hn. split; [apply Hg|].
  transitivity (squared_distance (g (nth i (vertices_ m) origin)) (g origin));
    [now rewrite Ho|apply Hg].
Qed.

(** ** Normalisation as a canonical form, in exact arithmetic *)

(** The bounding box under a map that is increasing on every axis. *)
Lemma bounding_box_monotone (f g h : R -> R) (vs : list (Vertex R)) :
  (forall a b, a <= b -> f a <= f b) ->
  (forall a b, a <= b -> g a <= g b) ->
  (forall a b, a <= b -> h a <= h b) ->
  vs <> [] ->
  bounding_box (map (fun v => mkVertex (f (x v)) (g (y v)) (h (z v))) vs)
  = (mkVertex (f (x (fst (bounding_box vs)))) (g (y (fst (bounding_box vs))))
              (h (z (fst (bounding_box vs)))),
     mkVertex (f (x (snd (bounding_box vs)))) (g (y (snd (bounding_box vs))))
              (h (z (snd (bounding_box vs))))).
Proof.
  intros Hf Hg Hh Hne.
  assert (Hmap : forall p : Vertex R -> R, map p vs <> [])
    by (intros p E; apply map_eq_nil in E; contradiction).
  unfold bounding_box. cbn [fst snd x y z]. rewrite !map_map. cbn [x y z].
  rewrite <- (axis_min_map f Hf (Hmap x)), <- (axis_min_map g Hg (Hmap y)),
    <- (axis_min_map h Hh (Hmap z)), <- (axis_max_map f Hf (Hmap x)),
    <- (axis_max_map g Hg (Hmap y)), <- (axis_max_map h Hh (Hmap z)).
  rewrite !map_map. reflexivity.
Qed.

Lemma sqrt_scaled (Q s : R) : 0 <= Q -> 0 <= s -> sqrt (Q * (s * s)) = sqrt Q * s.
Proof.
  intros HQ Hs. rewrite sqrt_mult_alt by exact HQ. now rewrite sqrt_square.
Qed.

Lemma sum_of_squares_nonneg (a b c : R) : 0 <= a * a + b * b + c * c.
Proof.
  pose proof (Rle_0_sqr a). pose proof (Rle_0_sqr b). pose proof (Rle_0_sqr c).
  unfold Rsqr in *. lra.
Qed.

Lemma box_half_diagonal_nonneg (lo hi : Vertex R) : 0 <= box_half_diagonal (lo, hi).
Proof.
  rewrite box_half_diagonal_R.
  pose proof (sqrt_pos ((x hi - x lo) * (x hi - x lo) + (y hi - y lo) * (y hi - y lo)
                        + (z hi - z lo) * (z hi - z lo))). lra.
Qed.

(** Half the diagonal of a box whose corners are scaled by [s] about any
    centre and then moved. *)
Lemma box_half_diagonal_affine (lo hi lo' hi' : Vertex R) (s : R) :
  0 <= s ->
  x hi' - x lo' = (x hi - x lo) * s ->
  y hi' - y lo' = (y hi - y lo) * s ->
  z hi' - z lo' = (z hi - z lo) * s ->
  box_half_diagonal (lo', hi') = box_half_diagonal (lo, hi) * s.
Proof.
  intros Hs Hx Hy Hz. rewrite !box_half_diagonal_R, Hx, Hy, Hz.
  match goal with
  | |- sqrt ?e * _ = sqrt ?Q * _ * _ =>
      replace e with (Q * (s * s)) by ring;
      rewrite (sqrt_scaled (Q := Q)); [ring| |exact Hs]
  end.
  apply sum_of_squares_nonneg.
Qed.

Lemma NormalizeModel_R (m : Model R) :
  vertices_ m <> [] ->
  NormalizeModel m
  = set_vertices m
      (map (recentre_rescale
              (box_midpoint (bounding_box (vertices_ m)))
              (radius_or_one (box_half_diagonal (bounding_box (vertices_ m)))))
         (vertices_ m)).
Proof. apply NormalizeModel_nonempty. Qed.

Lemma set_vertices_twice {F : Type} (m : Model F) (a b : list (Vertex F)) :
  set_vertices (set_vertices m a) b = set_vertices m b.
Proof. reflexivity. Qed.

(** X16.  In exact arithmetic normalising a normalised model changes
    nothing. *)
Theorem NormalizeModel_idempotent :
  forall m : Model R, NormalizeModel (NormalizeModel m) = NormalizeModel m.
Proof.
  intros m. destruct (vertices_ m) as [|v0 vs0] eqn:Ev.
  { unfold NormalizeModel. rewrite Ev. unfold NormalizeModel. now rewrite Ev. }
  assert (Hne : vertices_ m <> []) by (rewrite Ev; discriminate).
  rewrite (NormalizeModel_R m Hne).
  set (box := bounding_box (vertices_ m)).
  set (c := box_midpoint box). set (r := radius_or_one (box_half_diagonal box)).
  set (vs' := map (recentre_rescale c r) (vertices_ m)).
  assert (Hne' : vertices_ (set_vertices m vs') <> []).
  { cbn [set_vertices vertices_]. unfold vs'. rewrite Ev. discriminate. }
  rewrite (NormalizeModel_R _ Hne').
  change (vertices_ (set_vertices m vs')) with vs'.
  rewrite set_vertices_twice. f_equal.
  assert (Hr : 0 < r) by apply radius_or_one_pos.
  assert (Hbox' : bounding_box vs'
                  = (recentre_rescale c r (fst box), recentre_rescale c r (snd box))).
  { unfold vs', box. now apply bounding_box_recentre_rescale. }
  rewrite Hbox'.
  assert (Hs : 0 <= 1 / r) by (apply Rlt_le, Rdiv_lt_0_compat; lra).
  assert (Hhd : box_half_diagonal
                  (recentre_rescale c r (fst box), recentre_rescale c r (snd box))
                = box_half_diagonal box * (1 / r)).
  { destruct box as [lo hi] eqn:Eb. cbn [fst snd].
    apply box_half_diagonal_affine; [exact Hs| | |];
      rewrite !recentre_rescale_R; cbn [x y z]; ring. }
  assert (Hc : box_midpoint
                 (recentre_rescale c r (fst box), recentre_rescale c r (snd box))
               = mkVertex 0 0 0).
  { unfold c. destruct box as [lo hi]. cbn [fst snd].
    rewrite !recentre_rescale_R. unfold box_midpoint. cbn [x y z]. to_R.
    f_equal; field; lra. }
  assert (Hr' : radius_or_one
                  (box_half_diagonal
                     (recentre_rescale c r (fst box), recentre_rescale c r (snd box)))
                = 1).
  { rewrite Hhd. unfold r. rewrite !radius_or_one_R.
    destruct (Rlt_dec (box_half_diagonal box) (1 / 1000000)) as [Hlt|Hge].
    - destruct (Rlt_dec (box_half_diagonal box * (1 / 1)) (1 / 1000000)); [reflexivity|lra].
    - assert (E1 : box_half_diagonal box * (1 / box_half_diagonal box) = 1)
        by (field; lra).
      rewrite E1. destruct (Rlt_dec 1 (1 / 1000000)); [lra|reflexivity]. }
  rewrite Hc, Hr'. apply map_pointwise. intros v.
  rewrite recentre_rescale_R. cbn [x y z].
  rewrite <- (Vertex_eta v) at 4. f_equal; field.
Qed.

(** X17.  In exact arithmetic normalisation forgets where the mesh stood
    and, above the threshold of the guard, how large it was: a model and
    the same model translated, or scaled by a positive factor with both
    half-diagonals at 1e-6 or more, have the same normal form. *)
Theorem NormalizeModel_forgets_position_and_size :
  forall m : Model R,
    (forall cmd : MoveCommand R,
        option_map NormalizeModel
          (GetModel (Execute cmd (mkModelManager (Some m))))
        = Some (NormalizeModel m)) /\
    (forall k : R,
        0 < k ->
        1 / 1000000 <= box_half_diagonal (bounding_box (vertices_ m)) ->
        1 / 1000000 <= k * box_half_diagonal (bounding_box (vertices_ m)) ->
        option_map NormalizeModel
          (GetModel (Execute (mkScaleCommand k) (mkModelManager (Some m))))
        = Some (NormalizeModel m)).
Proof.
  intros m. split.
  - intros cmd. cbn [Execute MoveCommand_Command on_vertices GetModel current_model_
                       option_map]. f_equal.
    destruct (vertices_ m) as [|v0 vs0] eqn:Ev.
    { unfold NormalizeModel. cbn [set_vertices vertices_]. rewrite Ev. cbn [map].
      destruct m; cbn in *; now subst. }
    assert (Hne : vertices_ m <> []) by (rewrite Ev; discriminate).
    rewrite <- Ev.
    set (mv := fun vertex : Vertex R =>
                 mkVertex (fadd (x vertex) (dx_ cmd)) (fadd (y vertex) (dy_ cmd))
                          (fadd (z vertex) (dz_ cmd))).
    assert (Hne' : vertices_ (set_vertices m (map mv (vertices_ m))) <> []).
    { cbn [set_vertices vertices_]. rewrite Ev. discriminate. }
    rewrite (NormalizeModel_R _ Hne'), (NormalizeModel_R m Hne).
    cbn [set_vertices vertices_]. rewrite set_vertices_twice. f_equal.
    assert (Hbox : bounding_box (map mv (vertices_ m))
                   = (mv (fst (bounding_box (vertices_ m))),
                      mv (snd (bounding_box (vertices_ m))))).
    { unfold mv. to_R.
      apply (bounding_box_monotone (fun t => t + dx_ cmd) (fun t => t + dy_ cmd)
               (fun t => t + dz_ cmd)); try exact Hne; intros; lra. }
    rewrite Hbox. destruct (bounding_box (vertices_ m)) as [lo hi]. cbn [fst snd].
    assert (Hhd : box_half_diagonal (mv lo, mv hi) = box_half_diagonal (lo, hi)).
    { rewrite <- (Rmult_1_r (box_half_diagonal (lo, hi))).
      apply box_half_diagonal_affine; [lra| | |]; unfold mv; cbn [x y z]; to_R; ring. }
    rewrite Hhd, map_map. apply map_ext. intros v.
    rewrite !recentre_rescale_R. unfold box_midpoint, mv. cbn [x y z]. to_R.
    generalize (1 / radius_or_one (box_half_diagonal (lo, hi))). intros s.
    apply f_equal3; field.
  - intros k Hk Hbig Hkbig. rewrite ScaleCommand_R by exact Hk.
    cbn [on_vertices GetModel current_model_ option_map]. f_equal.
    destruct (vertices_ m) as [|v0 vs0] eqn:Ev.
    { unfold NormalizeModel. cbn [set_vertices vertices_]. rewrite Ev. cbn [map].
      destruct m; cbn in *; now subst. }
    assert (Hne : vertices_ m <> []) by (rewrite Ev; discriminate).
    rewrite <- Ev in *.
    assert (Hne' : vertices_ (set_vertices m (map (scaled k) (vertices_ m))) <> []).
    { cbn [set_vertices vertices_]. rewrite Ev. discriminate. }
    change (fun v : Vertex R => mkVertex (x v * k) (y v * k) (z v * k)) with (scaled k).
    rewrite (NormalizeModel_R _ Hne'), (NormalizeModel_R m Hne).
    cbn [set_vertices vertices_]. rewrite set_vertices_twice. f_equal.
    assert (Hbox : bounding_box (map (scaled k) (vertices_ m))
                   = (scaled k (fst (bounding_box (vertices_ m))),
                      scaled k (snd (bounding_box (vertices_ m))))).
    { unfold scaled.
      apply (bounding_box_monotone (fun t => t * k) (fun t => t * k)
               (fun t => t * k)); try exact Hne; intros; nra. }
    rewrite Hbox. destruct (bounding_box (vertices_ m)) as [lo hi]. cbn [fst snd].
    assert (Hhd : box_half_diagonal (scaled k lo, scaled k hi)
                  = box_half_diagonal (lo, hi) * k).
    { apply box_half_diagonal_affine; [lra| | |]; unfold scaled; cbn [x y z]; ring. }
    rewrite Hhd, !radius_or_one_R.
    destruct (Rlt_dec (box_half_diagonal (lo, hi) * k) (1 / 1000000)); [lra|].
    destruct (Rlt_dec (box_half_diagonal (lo, hi)) (1 / 1000000)); [lra|].
    rewrite map_map. apply map_ext. intros v.
    rewrite !recentre_rescale_R. unfold box_midpoint, scaled. cbn [x y z]. to_R.
    pose proof (box_half_diagonal_nonneg lo hi).
    apply f_equal3; field; lra.
Qed.

Lemma NormalizeModel_forgets_position_and_size_witness :
  option_map NormalizeModel
    (GetModel (Execute (mkScaleCommand 2) (mkModelManager (Some two_points))))
  = Some (NormalizeModel two_points).
Proof.
  apply (proj2 (NormalizeModel_forgets_position_and_size two_points) 2);
    rewrite ?two_points_half_diagonal; lra.
Defined.

(** ** Equality of vertices up to 1e-6 *)


(** ** The sliders of the main window, in exact arithmetic *)

Lemma handle_app {E S : Type} (handler : E -> S -> S) (es es' : list E) (st : S) :
  handle handler (es ++ es') st = handle handler es' (handle handler es st).
Proof. unfold handle. apply fold_left_app. Qed.

Lemma last_setting_app (unit : R) (values : list Z) (value : Z) (before : R) :
  last_setting unit (values ++ [value]) before = IZR value / unit.
Proof. unfold last_setting. now rewrite rev_app_distr. Qed.

Lemma int_of_double_IZR (k : Z) : int_of_double (IZR k) = k.
Proof.
  assert (Hint : forall z : Z, Int_part (IZR z) = z).
  { intros z. unfold Int_part.
    rewrite <- (up_tech (IZR z) z); [lia|lra|]. rewrite plus_IZR. lra. }
  unfold int_of_double. destruct (Rle_dec 0 (IZR k)); [apply Hint|].
  rewrite <- opp_IZR, Hint. lia.
Qed.

(** X20.  In exact arithmetic, however the three translation sliders are
    moved, the model ends up translated, on every axis, by the difference
    between the value its slider was last set to and the value it had at
    the start; a slider that was not moved contributes nothing. *)
Theorem translate_sliders_net_effect :
  forall (events : list (translate_slider * Z)) (w : MainWindow)
         (mgr : ModelManager R),
    controller_ w = true ->
    let w' := fst (handle valueChanged events (w, mgr)) in
    res_sdvigX_ w'
    = last_setting 10 (settings_of translateXSlider events) (res_sdvigX_ w) /\
    res_sdvigY_ w'
    = last_setting 10 (settings_of translateYSlider events) (res_sdvigY_ w) /\
    res_sdvigZ_ w'
    = last_setting 10 (settings_of translateZSlider events) (res_sdvigZ_ w) /\
    snd (handle valueChanged events (w, mgr))
    = TranslateModel (res_sdvigX_ w' - res_sdvigX_ w) (res_sdvigY_ w' - res_sdvigY_ w)
        (res_sdvigZ_ w' - res_sdvigZ_ w) mgr.
Proof.
  intros events w mgr Hc. cbv zeta.
  assert (Hgen : let w' := fst (handle valueChanged events (w, mgr)) in
     controller_ w' = true /\
     res_sdvigX_ w'
     = last_setting 10 (settings_of translateXSlider events) (res_sdvigX_ w) /\
     res_sdvigY_ w'
     = last_setting 10 (settings_of translateYSlider events) (res_sdvigY_ w) /\
     res_sdvigZ_ w'
     = last_setting 10 (settings_of translateZSlider events) (res_sdvigZ_ w) /\
     snd (handle valueChanged events (w, mgr))
     = TranslateModel (res_sdvigX_ w' - res_sdvigX_ w) (res_sdvigY_ w' - res_sdvigY_ w)
         (res_sdvigZ_ w' - res_sdvigZ_ w) mgr); [|cbv zeta in Hgen; tauto].
  cbv zeta. induction events as [|[s value] events IH] using rev_ind.
  - cbn. rewrite Hc. repeat split.
    unfold TranslateModel. rewrite !Rminus_diag. symmetry. apply Move_zero.
  - rewrite handle_app. unfold settings_of in *. rewrite !filter_app, !map_app.
    destruct (handle valueChanged events (w, mgr)) as [w1 mgr1].
    cbn [fst snd] in IH. destruct IH as [Hc1 [HX [HY [HZ Hm]]]].
    unfold TranslateModel in *.
    destruct s; cbn [handle fold_left valueChanged fst snd filter map app];
      unfold onTranslateXSliderChanged, onTranslateYSliderChanged,
        onTranslateZSliderChanged; cbv zeta;
      cbn [controller_ res_sdvigX_ res_sdvigY_ res_sdvigZ_]; rewrite Hc1;
      cbn [fst snd controller_ res_sdvigX_ res_sdvigY_ res_sdvigZ_];
      rewrite ?last_setting_app, ?app_nil_r;
      (split; [reflexivity|]); (split; [first [reflexivity|exact HX]|]);
      (split; [first [reflexivity|exact HY]|]);
      (split; [first [reflexivity|exact HZ]|]);
      unfold TranslateModel; rewrite Hm, Move_then_Move; cbn [dx_ dy_ dz_];
      f_equal; f_equal; ring.
Qed.

Lemma translate_sliders_net_effect_witness :
  snd (handle valueChanged
         [(translateXSlider, 5%Z); (translateYSlider, (-20)%Z); (translateXSlider, 15%Z)]
         (new_MainWindow true, mkModelManager (Some two_points)))
  = TranslateModel (15 / 10 - 0) (-20 / 10 - 0) (0 - 0)
      (mkModelManager (Some two_points)).
Proof.
  exact (proj2 (proj2 (proj2
           (@translate_sliders_net_effect
              [(translateXSlider, 5%Z); (translateYSlider, (-20)%Z);
               (translateXSlider, 15%Z)]
              (new_MainWindow true) (mkModelManager (Some two_points)) eq_refl)))).
Defined.

(** X21.  In exact arithmetic, as long as the scale slider stays at
    positive values, the model ends up scaled by the ratio between the
    value the slider was last set to and the value it had at the start. *)
Theorem scale_slider_net_effect :
  forall (values : list Z) (w : MainWindow) (mgr : ModelManager R),
    controller_ w = true ->
    0 < res_scale_ w ->
    Forall (fun value => (0 < value)%Z) values ->
    let w' := fst (handle onScaleSliderChanged values (w, mgr)) in
    res_scale_ w' = last_setting 100 values (res_scale_ w) /\
    snd (handle onScaleSliderChanged values (w, mgr))
    = ScaleModel (res_scale_ w' / res_scale_ w) mgr.
Proof.
  intros values w mgr Hc Hpos Hall. cbv zeta.
  assert (Hgen : let w' := fst (handle onScaleSliderChanged values (w, mgr)) in
     controller_ w' = true /\ 0 < res_scale_ w' /\
     res_scale_ w' = last_setting 100 values (res_scale_ w) /\
     snd (handle onScaleSliderChanged values (w, mgr))
     = ScaleModel (res_scale_ w' / res_scale_ w) mgr); [|cbv zeta in Hgen; tauto].
  cbv zeta. induction values as [|value values IH] using rev_ind.
  - cbn. repeat split; try assumption.
    unfold ScaleModel. replace (res_scale_ w / res_scale_ w) with 1 by (field; lra).
    symmetry. apply Scale_one.
  - apply Forall_app in Hall. destruct Hall as [Hall Hv].
    inversion Hv as [|? ? Hvalue _]; subst.
    specialize (IH Hall). rewrite handle_app.
    destruct (handle onScaleSliderChanged values (w, mgr)) as [w1 mgr1].
    cbn [fst snd] in IH. destruct IH as [Hc1 [Hpos1 [Hres Hm]]].
    cbn [handle fold_left]. unfold onScaleSliderChanged. cbv zeta.
    rewrite Hc1. cbn [fst snd controller_ res_scale_].
    assert (Hval : 0 < IZR value / 100).
    { apply Rdiv_lt_0_compat; [|lra]. now apply (IZR_lt 0). }
    split; [reflexivity|]. split; [exact Hval|]. split; [now rewrite last_setting_app|].
    replace (Reqb (res_scale_ w1) 0) with false
      by (symmetry; apply Reqb_false; lra).
    cbn [negb]. unfold ScaleModel in *. rewrite Hm.
    rewrite Scale_then_Scale.
    + f_equal. f_equal. field. lra.
    + apply Rdiv_lt_0_compat; assumption.
    + apply Rdiv_lt_0_compat; assumption.
Qed.

Lemma scale_slider_net_effect_witness :
  snd (handle onScaleSliderChanged [50%Z; 300%Z]
         (new_MainWindow true, mkModelManager (Some two_points)))
  = ScaleModel (300 / 100 / 1) (mkModelManager (Some two_points)).
Proof.
  refine (proj2 (@scale_slider_net_effect [50%Z; 300%Z] (new_MainWindow true)
                   (mkModelManager (Some two_points)) eq_refl _ _)).
  - cbn. lra.
  - repeat constructor.
Defined.

(** X22.  In exact arithmetic, when one rotation slider is moved, and its
    member holds a whole number at the start (0 in a new window), the model
    ends up turned about the axis of the slider by the difference, in
    degrees, between the value the slider was last set to and the value it
    had at the start. *)
Theorem rotate_slider_net_effect :
  forall (values : list Z) (w : MainWindow) (mgr : ModelManager R),
    controller_ w = true ->
    (forall k : Z,
        res_virtX_ w = IZR k ->
        let w' := fst (handle onRotateXSliderChanged values (w, mgr)) in
        res_virtX_ w' = last_setting 1 values (res_virtX_ w) /\
        snd (handle onRotateXSliderChanged values (w, mgr))
        = RotateModel (res_virtX_ w' - res_virtX_ w) 0 0 mgr) /\
    (forall k : Z,
        res_virtY_ w = IZR k ->
        let w' := fst (handle onRotateYSliderChanged values (w, mgr)) in
        res_virtY_ w' = last_setting 1 values (res_virtY_ w) /\
        snd (handle onRotateYSliderChanged values (w, mgr))
        = RotateModel 0 (res_virtY_ w' - res_virtY_ w) 0 mgr) /\
    (forall k : Z,
        res_virtZ_ w = IZR k ->
        let w' := fst (handle onRotateZSliderChanged values (w, mgr)) in
        res_virtZ_ w' = last_setting 1 values (res_virtZ_ w) /\
        snd (handle onRotateZSliderChanged values (w, mgr))
        = RotateModel 0 0 (res_virtZ_ w' - res_virtZ_ w) mgr).
Proof.
  intros values w mgr Hc.
  assert (Hdiff : forall a b : Z, IZR (int_of_double (IZR a - IZR b)) = IZR a - IZR b).
  { intros a b. now rewrite <- minus_IZR, int_of_double_IZR. }
  assert (Hone : forall v : Z, IZR v / 1 = IZR v) by (intros; field).
  split; [|split]; intros k Hk; cbv zeta.
  - assert (Hgen : let w' := fst (handle onRotateXSliderChanged values (w, mgr)) in
       controller_ w' = true /\ (exists k', res_virtX_ w' = IZR k') /\
       res_virtX_ w' = last_setting 1 values (res_virtX_ w) /\
       snd (handle onRotateXSliderChanged values (w, mgr))
       = RotateModel (res_virtX_ w' - res_virtX_ w) 0 0 mgr);
      [|cbv zeta in Hgen; tauto].
    cbv zeta. induction values as [|value values IH] using rev_ind.
    + cbn. split; [exact Hc|]. split; [now exists k|]. split; [reflexivity|].
      unfold RotateModel. rewrite Rminus_diag. symmetry. apply Rotate_zero.
    + rewrite handle_app.
      destruct (handle onRotateXSliderChanged values (w, mgr)) as [w1 mgr1].
      cbn [fst snd] in IH. destruct IH as [Hc1 [[k1 Hk1] [Hres Hm]]].
      cbn [handle fold_left]. unfold onRotateXSliderChanged. cbv zeta.
      rewrite Hc1. cbn [fst snd controller_ res_virtX_].
      split; [reflexivity|]. split; [now exists value|].
      split; [now rewrite last_setting_app, Hone|].
      unfold RotateModel in *. rewrite Hm, Hk1, Hdiff, RotateX_then_X.
      f_equal. f_equal. rewrite <- Hk1. ring.
  - assert (Hgen : let w' := fst (handle onRotateYSliderChanged values (w, mgr)) in
       controller_ w' = true /\ (exists k', res_virtY_ w' = IZR k') /\
       res_virtY_ w' = last_setting 1 values (res_virtY_ w) /\
       snd (handle onRotateYSliderChanged values (w, mgr))
       = RotateModel 0 (res_virtY_ w' - res_virtY_ w) 0 mgr);
      [|cbv zeta in Hgen; tauto].
    cbv zeta. induction values as [|value values IH] using rev_ind.
    + cbn. split; [exact Hc|]. split; [now exists k|]. split; [reflexivity|].
      unfold RotateModel. rewrite Rminus_diag. symmetry. apply Rotate_zero.
    + rewrite handle_app.
      destruct (handle onRotateYSliderChanged values (w, mgr)) as [w1 mgr1].
      cbn [fst snd] in IH. destruct IH as [Hc1 [[k1 Hk1] [Hres Hm]]].
      cbn [handle fold_left]. unfold onRotateYSliderChanged. cbv zeta.
      rewrite Hc1. cbn [fst snd controller_ res_virtY_].
      split; [reflexivity|]. split; [now exists value|].
      split; [now rewrite last_setting_app, Hone|].
      unfold RotateModel in *. rewrite Hm, Hk1, Hdiff, RotateY_then_Y.
      f_equal. f_equal. rewrite <- Hk1. ring.
  - assert (Hgen : let w' := fst (handle onRotateZSliderChanged values (w, mgr)) in
       controller_ w' = true /\ (exists k', res_virtZ_ w' = IZR k') /\
       res_virtZ_ w' = last_setting 1 values (res_virtZ_ w) /\
       snd (handle onRotateZSliderChanged values (w, mgr))
       = RotateModel 0 0 (res_virtZ_ w' - res_virtZ_ w) mgr);
      [|cbv zeta in Hgen; tauto].
    cbv zeta. induction values as [|value values IH] using rev_ind.
    + cbn. split; [exact Hc|]. split; [now exists k|]. split; [reflexivity|].
      unfold RotateModel. rewrite Rminus_diag. symmetry. apply Rotate_zero.
    + rewrite handle_app.
      destruct (handle onRotateZSliderChanged values (w, mgr)) as [w1 mgr1].
      cbn [fst snd] in IH. destruct IH as [Hc1 [[k1 Hk1] [Hres Hm]]].
      cbn [handle fold_left]. unfold onRotateZSliderChanged. cbv zeta.
      rewrite Hc1. cbn [fst snd controller_ res_virtZ_].
      split; [reflexivity|]. split; [now exists value|].
      split; [now rewrite last_setting_app, Hone|].
      unfold RotateModel in *. rewrite Hm, Hk1, Hdiff, RotateZ_then_Z.
      f_equal. f_equal. rewrite <- Hk1. ring.
Qed.

Lemma rotate_slider_net_effect_witness :
  snd (handle onRotateXSliderChanged [90%Z; 45%Z]
         (new_MainWindow true, mkModelManager (Some two_points)))
  = RotateModel (45 - 0) 0 0 (mkModelManager (Some two_points)).
Proof.
  exact (proj2 (proj1 (@rotate_slider_net_effect [90%Z; 45%Z] (new_MainWindow true)
                         (mkModelManager (Some two_points)) eq_refl) 0%Z eq_refl)).
Defined.
